(** * Beat-synced cut placement engine (randomCutGenerator)

    A shallow embedding of the cut generator of the Snapcut template
    editor: [detectMeasures], [detectDrops], [generateRandomCuts],
    [generateEquidistantCuts], [addTimeVariation] and
    [optimizeCutDurations]; and of the code around it: the beat detector
    of the waveform view, the audio trimmer with its WAV encoder, the cut
    handlers of the editor, the plan lookups of the preview, the segments
    of the exported timeline and the names of the exported files.

    Modelling conventions.
    - A JavaScript [number] holding a time, an intensity or a priority is an
      exact rational ([Q]); inputs are finite, so no NaN or infinity arises
      and rounding is idealised away (the tolerance of the specification
      becomes 0).  Decimal literals are the corresponding fractions.
    - Where the outcome of one comparison decides the shape of a result
      (the duration guard of [generateRandomCuts], the silence test of
      [detectDrops], the sample indices of the trimmer), the comparison is
      also given as the code evaluates it, on IEEE 754 doubles ([Double],
      over the Standard Library's [SpecFloat]): see
      [generateRandomCutsOnDoubles], [detectDropsOnDoubles] and
      [sampleIndex].
    - [planCount] is an integer ([Z]); array lengths are [nat].
    - [Array.prototype.sort] is the stable sort mandated by ECMAScript,
      written as a stable insertion sort driven by the comparator.
    - [Array.prototype.reduce] without an initial value throws a
      [TypeError] on an empty array; a call of the engine therefore yields a
      [result]: a returned value or a thrown exception.
    - [crypto.randomUUID()] draws from an arbitrary stream [uuid]; in every
      path exactly one identifier is drawn per cut pushed, so the cut pushed
      at index [i] receives [uuid i].
    - The bytes of an [ArrayBuffer] are a list of integers in [0, 255]; a
      write through a [DataView] past the end is a [RangeError], [None].
      The samples of an [AudioBuffer] are exact rationals as well. *)

From Stdlib Require Import QArith Qabs Qminmax ZArith List Bool String Lia Lqa.
From Stdlib Require Import Permutation Sorted Qround.
From Stdlib Require Decimal DecimalString DecimalZ DecimalPos.
From Stdlib Require Floats.SpecFloat.
Import ListNotations.
Open Scope Q_scope.

(** ** Numbers *)

Module Num.

(** [a < b] on numbers. *)
Definition ltb (a b : Q) : bool := negb (Qle_bool b a).
(** [a >= b] on numbers. *)
Definition geb (a b : Q) : bool := Qle_bool b a.
(** [a <= b] on numbers. *)
Definition leb (a b : Q) : bool := Qle_bool a b.

Definition max (a b : Q) : Q := Qmax a b.
Definition min (a b : Q) : Q := Qmin a b.
Definition abs (a : Q) : Q := Qabs a.

(** A natural number (an array index or length) used as a number. *)
Definition ofNat (n : nat) : Q := inject_Z (Z.of_nat n).

End Num.

(** ** Doubles

    The binary64 numbers of JavaScript and their operations, rounded to
    nearest with ties to even, as [SpecFloat] specifies them. *)

Module Double.

Definition t : Type := SpecFloat.spec_float.

Definition prec : Z := 53.
Definition emax : Z := 1024.

(** The double nearest to an integer. *)
Definition ofZ (z : Z) : t := SpecFloat.binary_normalize prec emax z 0 false.

Definition sub (x y : t) : t := SpecFloat.SFsub prec emax x y.
Definition mul (x y : t) : t := SpecFloat.SFmul prec emax x y.

(** The double nearest to a rational, ties to even: the quotient of the
    numerator by the denominator, rounded once.  A rational that is a
    double is kept as it is, and a decimal literal gets the double
    JavaScript reads it as. *)
Definition ofQ (x : Q) : t :=
  let quotient (negative : bool) (n : positive) :=
    let '(m, e, l) :=
      SpecFloat.SFdiv_core_binary prec emax (Zpos n) 0 (Zpos (Qden x)) 0 in
    SpecFloat.binary_round_aux prec emax negative m e l in
  match Qnum x with
  | Z0 => SpecFloat.S754_zero false
  | Zpos n => quotient false n
  | Zneg n => quotient true n
  end.

(** [x < y] and [x >= y] on doubles. *)
Definition ltb (x y : t) : bool := SpecFloat.SFltb x y.
Definition geb (x y : t) : bool := SpecFloat.SFleb y x.

(** The value of a finite double. *)
Definition toQ (x : t) : option Q :=
  match x with
  | SpecFloat.S754_zero _ => Some 0
  | SpecFloat.S754_finite s m e =>
      Some ((if s then -1 else 1) * inject_Z (Zpos m) * Qpower 2 e)
  | _ => None
  end.

(** [Math.floor(x)] of a finite double, as an integer. *)
Definition floor (x : t) : option Z := option_map Qfloor (toQ x).

End Double.

(** ** Results of a call: a value or a thrown exception *)

Inductive JsError : Type :=
| TypeError_reduceOfEmptyArray.

Inductive result (A : Type) : Type :=
| Ok (a : A)
| Throw (e : JsError).

Arguments Ok {A} a.
Arguments Throw {A} e.

Definition bind {A B : Type} (r : result A) (k : A -> result B) : result B :=
  match r with
  | Ok a => k a
  | Throw e => Throw e
  end.

Notation "x <- r ;; k" := (bind r (fun x => k))
  (at level 61, r at next level, right associativity).

(** ** Arrays *)

Section Arrays.

Context {A : Type}.

(** Insertion of [x], which precedes every element of [l] in the original
    array, into the sorted [l]: [x] stays in front of an element [y]
    whenever the comparator does not place [y] first, [cmp x y <= 0]. *)
Fixpoint insertSorted (cmp : A -> A -> Q) (x : A) (l : list A) : list A :=
  match l with
  | [] => [x]
  | y :: ys =>
      if Num.leb (cmp x y) 0 then x :: y :: ys
      else y :: insertSorted cmp x ys
  end.

(** [l.sort(cmp)]: stable. *)
Fixpoint arraySort (cmp : A -> A -> Q) (l : list A) : list A :=
  match l with
  | [] => []
  | x :: xs => insertSorted cmp x (arraySort cmp xs)
  end.

(** [l.map((x, index) => f x index)], the indices starting at [i]. *)
Fixpoint mapiFrom {B : Type} (i : nat) (f : A -> nat -> B) (l : list A)
  : list B :=
  match l with
  | [] => []
  | x :: xs => f x i :: mapiFrom (S i) f xs
  end.

Definition mapi {B : Type} (f : A -> nat -> B) (l : list A) : list B :=
  mapiFrom 0 f l.

(** [l.reduce(f)] with no initial value. *)
Definition reduce1 (f : A -> A -> A) (l : list A) : result A :=
  match l with
  | [] => Throw TypeError_reduceOfEmptyArray
  | x :: xs => Ok (fold_left f xs x)
  end.

(** [l.some(p)] and [l.find(p)] are [existsb p l] and [find p l]. *)

End Arrays.

(** ** Data model (types/index.ts and the generator's own interfaces) *)

Inductive BeatType : Type := strong | medium | weak.

Definition isStrong (t : BeatType) : bool :=
  match t with strong => true | _ => false end.

Module BeatMarker.
Record t : Type := mk {
  time : Q;
  intensity : Q;
  type : BeatType
}.
End BeatMarker.

Module CutMarker.
Record t : Type := mk {
  id : string;
  time : Q;
  color : string;
  duration : Q;
  trimSettings : option (Q * Q)
}.
End CutMarker.

Module MeasureInfo.
Record t : Type := mk {
  startTime : Q;
  bpm : Q;
  confidence : Q
}.
End MeasureInfo.

(** [DropMarker extends BeatMarker] *)
Module DropMarker.
Record t : Type := mk {
  time : Q;
  intensity : Q;
  type : BeatType;
  isDrop : bool;
  silenceDuration : Q
}.
End DropMarker.

Inductive Reason : Type := drop | measure_start | measure_mid | strong_beat.

Definition isDropReason (r : Reason) : bool :=
  match r with drop => true | _ => false end.

(** [BeatMarker & { priority: number; reason: string }]; the two extra
    fields a candidate spread from a drop carries along are never read. *)
Module Candidate.
Record t : Type := mk {
  time : Q;
  intensity : Q;
  type : BeatType;
  priority : Q;
  reason : Reason
}.
End Candidate.

Record RandomCutOptions : Type := mkOptions {
  startTime : Q;
  endTime : Q;
  planCount : Z;
  beatMarkers : list BeatMarker.t;
  minCutInterval : Q;
  prioritizeStrongBeats : bool
}.

Definition COLORS : list string :=
  ["#F97316"; "#3B82F6"; "#10B981"; "#8B5CF6"; "#EF4444"; "#F59E0B"]%string.

(** [COLORS[i % COLORS.length]] *)
Definition colorAt (i : nat) : string :=
  nth (i mod List.length COLORS) COLORS EmptyString.

(** An object is truthy. *)
Definition truthy {A : Type} (_ : A) : bool := true.

(** ** optimizeCutDurations *)

(** The comparator [(a, b) => a.time - b.time]. *)
Definition byTime (a b : CutMarker.t) : Q :=
  CutMarker.time a - CutMarker.time b.

(** [{ ...cut, duration: d }] *)
Definition withDuration (cut : CutMarker.t) (d : Q) : CutMarker.t :=
  CutMarker.mk (CutMarker.id cut) (CutMarker.time cut) (CutMarker.color cut) d
               (CutMarker.trimSettings cut).

Definition optimizeCutDurations (cuts : list CutMarker.t) (endTime : Q)
  : list CutMarker.t :=
  let sortedCuts := arraySort byTime cuts in
  mapi (fun cut index =>
          let maxDuration :=
            match nth_error sortedCuts (index + 1) with
            | Some nextCut => CutMarker.time nextCut - CutMarker.time cut
            | None => endTime - CutMarker.time cut
            end in
          withDuration cut
            (Num.min (CutMarker.duration cut)
                     (Num.max (3#10) (maxDuration - (1#10)))))
       sortedCuts.

(** ** detectMeasures *)

(** The two interval loops: for [i] from 1, the interval between element
    [i] and element [i - 1] is kept when it lies strictly between [lo] and
    [hi]. *)
Fixpoint intervalsFrom (lo hi : Q) (previous : BeatMarker.t)
         (rest : list BeatMarker.t) : list Q :=
  match rest with
  | [] => []
  | current :: rest' =>
      let interval := BeatMarker.time current - BeatMarker.time previous in
      if Num.ltb lo interval && Num.ltb interval hi
      then interval :: intervalsFrom lo hi current rest'
      else intervalsFrom lo hi current rest'
  end.

Definition intervalsWithin (lo hi : Q) (beats : list BeatMarker.t) : list Q :=
  match beats with
  | [] => []
  | first :: rest => intervalsFrom lo hi first rest
  end.

(** The clustering loop over the sorted intervals, from index 1: the state
    is the pair of [clusters] and [currentCluster]. *)
Fixpoint clusterLoop (previous : Q) (rest : list Q)
         (clusters : list (list Q)) (currentCluster : list Q)
  : list (list Q) * list Q :=
  match rest with
  | [] => (clusters, currentCluster)
  | x :: rest' =>
      let diff := x - previous in
      if Num.ltb diff (3#10)
      then clusterLoop x rest' clusters (currentCluster ++ [x])
      else
        let clusters' :=
          if (1 <=? List.length currentCluster)%nat
          then clusters ++ [currentCluster] else clusters in
        clusterLoop x rest' clusters' [x]
  end.

Definition clustersOf (measureIntervals : list Q) : list (list Q) :=
  match measureIntervals with
  | [] => []
  | first :: rest =>
      let '(clusters, currentCluster) := clusterLoop first rest [] [first] in
      if (1 <=? List.length currentCluster)%nat
      then clusters ++ [currentCluster] else clusters
  end.

(** The tempo analysis, up to the start of the grid walk: [None] is one of
    the early [return []], otherwise the strong beats, the average measure
    duration and the bpm. *)
Definition measureGrid (beatMarkers : list BeatMarker.t)
  : option (list BeatMarker.t * Q * Q) :=
  if (List.length beatMarkers <? 8)%nat then None else
  let allBeats :=
    filter (fun beat => Num.ltb (1#10) (BeatMarker.intensity beat))
           beatMarkers in
  let strongBeats :=
    filter (fun beat => isStrong (BeatMarker.type beat)) beatMarkers in
  if (List.length strongBeats <? 3)%nat then None else
  let allIntervals := intervalsWithin (3#20) 2 allBeats in
  let measureIntervals := intervalsWithin (4#5) 6 strongBeats in
  if (List.length measureIntervals <? 2)%nat then None else
  let measureIntervals := arraySort (fun a b => a - b) measureIntervals in
  let clusters := clustersOf measureIntervals in
  let dominantCluster :=
    fold_left (fun largest current =>
                 if (List.length largest <? List.length current)%nat
                 then current else largest)
              clusters [] in
  if (List.length dominantCluster <? 2)%nat then None else
  let averageMeasureDuration :=
    fold_left (fun sum val => sum + val) dominantCluster 0
    / Num.ofNat (List.length dominantCluster) in
  let bpm := 60 / (averageMeasureDuration / 4) in
  Some (strongBeats, averageMeasureDuration, bpm).

(** One turn of the grid walk; the state is [expectedNextMeasure] and the
    [measures] pushed so far. *)
Definition walkStep (averageMeasureDuration bpm : Q)
           (st : Q * list MeasureInfo.t) (beat : BeatMarker.t)
  : Q * list MeasureInfo.t :=
  let '(expectedNextMeasure, measures) := st in
  let timeDiff := Num.abs (BeatMarker.time beat - expectedNextMeasure) in
  if Num.ltb timeDiff (averageMeasureDuration * (3#10))
  then (BeatMarker.time beat + averageMeasureDuration,
        measures ++
          [MeasureInfo.mk (BeatMarker.time beat) bpm
             (Num.max (1#10) (1 - (timeDiff / averageMeasureDuration)))])
  else st.

Definition walk (averageMeasureDuration bpm : Q) (st : Q * list MeasureInfo.t)
           (beats : list BeatMarker.t) : Q * list MeasureInfo.t :=
  fold_left (walkStep averageMeasureDuration bpm) beats st.

(** [strongBeats[0].time], the start of the grid. *)
Definition gridStart (strongBeats : list BeatMarker.t) : Q :=
  match strongBeats with
  | [] => 0
  | first :: _ => BeatMarker.time first
  end.

Definition detectMeasures (beatMarkers : list BeatMarker.t)
  : list MeasureInfo.t :=
  match measureGrid beatMarkers with
  | None => []
  | Some (strongBeats, averageMeasureDuration, bpm) =>
      let '(_, measures) :=
        walk averageMeasureDuration bpm (gridStart strongBeats, [])
             strongBeats in
      filter (fun m => Num.ltb (2#5) (MeasureInfo.confidence m)) measures
  end.

(** ** detectDrops *)

Fixpoint dropsFrom (previousBeat : BeatMarker.t) (rest : list BeatMarker.t)
  : list DropMarker.t :=
  match rest with
  | [] => []
  | currentBeat :: rest' =>
      let silenceDuration :=
        BeatMarker.time currentBeat - BeatMarker.time previousBeat in
      let minSilenceDuration := 6#5 in
      if Num.geb silenceDuration minSilenceDuration
         && Num.ltb (1#5) (BeatMarker.intensity currentBeat)
      then DropMarker.mk (BeatMarker.time currentBeat)
                         (BeatMarker.intensity currentBeat)
                         (BeatMarker.type currentBeat) true silenceDuration
           :: dropsFrom currentBeat rest'
      else dropsFrom currentBeat rest'
  end.

Definition detectDrops (beatMarkers : list BeatMarker.t) : list DropMarker.t :=
  let strongBeats :=
    filter (fun beat => isStrong (BeatMarker.type beat)) beatMarkers in
  match strongBeats with
  | [] => []
  | first :: rest => dropsFrom first rest
  end.

(** The test [silenceDuration >= minSilenceDuration &&
    currentBeat.intensity > 0.2] as the code evaluates it: the difference of
    the two times is rounded to a double before it is compared with the
    double 1.2. *)
Definition isDropOnDoubles (previousBeat currentBeat : BeatMarker.t) : bool :=
  let silenceDuration :=
    Double.sub (Double.ofQ (BeatMarker.time currentBeat))
               (Double.ofQ (BeatMarker.time previousBeat)) in
  let minSilenceDuration := Double.ofQ (6#5) in
  Double.geb silenceDuration minSilenceDuration
  && Double.ltb (Double.ofQ (1#5))
                (Double.ofQ (BeatMarker.intensity currentBeat)).

(** [detectDrops] with its test decided on doubles; the values stored stay
    exact. *)
Fixpoint dropsFromOnDoubles (previousBeat : BeatMarker.t)
         (rest : list BeatMarker.t) : list DropMarker.t :=
  match rest with
  | [] => []
  | currentBeat :: rest' =>
      let silenceDuration :=
        BeatMarker.time currentBeat - BeatMarker.time previousBeat in
      if isDropOnDoubles previousBeat currentBeat
      then DropMarker.mk (BeatMarker.time currentBeat)
                         (BeatMarker.intensity currentBeat)
                         (BeatMarker.type currentBeat) true silenceDuration
           :: dropsFromOnDoubles currentBeat rest'
      else dropsFromOnDoubles currentBeat rest'
  end.

Definition detectDropsOnDoubles (beatMarkers : list BeatMarker.t)
  : list DropMarker.t :=
  let strongBeats :=
    filter (fun beat => isStrong (BeatMarker.type beat)) beatMarkers in
  match strongBeats with
  | [] => []
  | first :: rest => dropsFromOnDoubles first rest
  end.

(** ** generateRandomCuts *)

Section Engine.

(** The stream [crypto.randomUUID()] draws from. *)
Variable uuid : nat -> string.

(** A fresh cut pushed onto [selectedCuts] when it holds [index] cuts. *)
Definition newCut (index : nat) (t : Q) : CutMarker.t :=
  CutMarker.mk (uuid index) t (colorAt index) 1 None.

(** Fallback: equidistant cuts when no beat is available. *)
Definition generateEquidistantCuts (startTime endTime : Q) (count : Z)
  : list CutMarker.t :=
  let duration := endTime - startTime in
  let interval := duration / (inject_Z count + 1) in
  map (fun i =>
         CutMarker.mk (uuid i)
                      (startTime + (interval * (Num.ofNat i + 1)))
                      (colorAt i)
                      (Num.min 1 (interval * (4#5)))
                      None)
      (seq 0 (Z.to_nat count)).

(** [Math.max(startTime + 0.05, beatTime - lead)] *)
Definition leadTime (startTime beatTime lead : Q) : Q :=
  Num.max (startTime + (1#20)) (beatTime - lead).

(** [candidates.some(c => Math.abs(c.time - t) < 0.1)] *)
Definition covered (candidates : list Candidate.t) (t : Q) : bool :=
  existsb (fun c => Num.ltb (Num.abs (Candidate.time c - t)) (1#10)) candidates.

(** 1. drops *)
Definition addDrops (startTime endTime : Q) (drops : list DropMarker.t)
           (candidates : list Candidate.t) : list Candidate.t :=
  fold_left
    (fun candidates dropMarker =>
       if Num.ltb startTime (DropMarker.time dropMarker)
          && Num.ltb (DropMarker.time dropMarker) endTime
       then candidates ++
              [Candidate.mk
                 (leadTime startTime (DropMarker.time dropMarker) (1#20))
                 (DropMarker.intensity dropMarker)
                 (DropMarker.type dropMarker)
                 100 drop]
       else candidates)
    drops candidates.

(** 2. measure starts *)
Definition addMeasureStarts (startTime : Q) (availableBeats : list BeatMarker.t)
           (measures : list MeasureInfo.t) (candidates : list Candidate.t)
  : list Candidate.t :=
  fold_left
    (fun candidates measure =>
       match find (fun beat =>
                     Num.ltb (Num.abs (BeatMarker.time beat
                                       - MeasureInfo.startTime measure)) (1#5))
                  availableBeats with
       | Some nearestBeat =>
           if negb (covered candidates (BeatMarker.time nearestBeat))
           then candidates ++
                  [Candidate.mk
                     (leadTime startTime (BeatMarker.time nearestBeat) (3#100))
                     (BeatMarker.intensity nearestBeat)
                     (BeatMarker.type nearestBeat)
                     (80 + (MeasureInfo.confidence measure * 20))
                     measure_start]
           else candidates
       | None => candidates
       end)
    measures candidates.

(** 3. measure middles *)
Definition addMeasureMids (startTime activeDuration : Q)
           (availableBeats : list BeatMarker.t)
           (measures : list MeasureInfo.t) (candidates : list Candidate.t)
  : list Candidate.t :=
  if (0 <? List.length measures)%nat then
    let avgMeasureDuration :=
      if (1 <? List.length measures)%nat
      then (MeasureInfo.startTime
              (nth (List.length measures - 1) measures (MeasureInfo.mk 0 0 0))
            - MeasureInfo.startTime (nth 0 measures (MeasureInfo.mk 0 0 0)))
           / (Num.ofNat (List.length measures) - 1)
      else activeDuration / Num.max 1 (Num.ofNat (List.length measures)) in
    fold_left
      (fun candidates measure =>
         let midMeasureTime :=
           MeasureInfo.startTime measure + (avgMeasureDuration / 2) in
         match find (fun beat =>
                       Num.ltb (Num.abs (BeatMarker.time beat - midMeasureTime))
                               (avgMeasureDuration * (3#10))
                       && isStrong (BeatMarker.type beat))
                    availableBeats with
         | Some nearestBeat =>
             if negb (covered candidates (BeatMarker.time nearestBeat))
             then candidates ++
                    [Candidate.mk
                       (leadTime startTime (BeatMarker.time nearestBeat)
                                 (3#100))
                       (BeatMarker.intensity nearestBeat)
                       (BeatMarker.type nearestBeat)
                       (60 + (BeatMarker.intensity nearestBeat * 20))
                       measure_mid]
             else candidates
         | None => candidates
         end)
      measures candidates
  else candidates.

(** 4. other strong beats *)
Definition addStrongBeats (startTime : Q) (availableBeats : list BeatMarker.t)
           (candidates : list Candidate.t) : list Candidate.t :=
  fold_left
    (fun candidates beat =>
       if negb (covered candidates (BeatMarker.time beat))
       then candidates ++
              [Candidate.mk (leadTime startTime (BeatMarker.time beat) (1#50))
                            (BeatMarker.intensity beat) (BeatMarker.type beat)
                            (40 + (BeatMarker.intensity beat * 20))
                            strong_beat]
       else candidates)
    (filter (fun beat => isStrong (BeatMarker.type beat)) availableBeats)
    candidates.

(** The comparator [(a, b) => b.priority - a.priority]. *)
Definition byPriorityDesc (a b : Candidate.t) : Q :=
  Candidate.priority b - Candidate.priority a.

(** The candidate list, as sorted by decreasing priority. *)
Definition buildCandidates (startTime endTime : Q)
           (availableBeats : list BeatMarker.t)
           (measures : list MeasureInfo.t) (drops : list DropMarker.t)
  : list Candidate.t :=
  let activeDuration := endTime - startTime in
  let candidates := addDrops startTime endTime drops [] in
  let candidates :=
    addMeasureStarts startTime availableBeats measures candidates in
  let candidates :=
    addMeasureMids startTime activeDuration availableBeats measures
                   candidates in
  let candidates := addStrongBeats startTime availableBeats candidates in
  arraySort byPriorityDesc candidates.

(** [selectedCuts.length < cutsNeeded] *)
Definition short (selectedCuts : list CutMarker.t) (cutsNeeded : Z) : bool :=
  (Z.of_nat (List.length selectedCuts) <? cutsNeeded)%Z.

(** [selectedCuts.some(cut => Math.abs(cut.time - t) < minCutInterval)] *)
Definition tooCloseTo (minCutInterval : Q) (selectedCuts : list CutMarker.t)
           (t : Q) : bool :=
  existsb (fun cut => Num.ltb (Num.abs (CutMarker.time cut - t)) minCutInterval)
          selectedCuts.

(** First, every drop. *)
Definition addForced (cutsNeeded : Z) (forcedCuts : list Candidate.t)
           (selectedCuts : list CutMarker.t) : list CutMarker.t :=
  fold_left
    (fun selectedCuts forced =>
       if short selectedCuts cutsNeeded
       then selectedCuts ++
              [newCut (List.length selectedCuts) (Candidate.time forced)]
       else selectedCuts)
    forcedCuts selectedCuts.

(** Then the other candidates, in order, with [break] and [continue]. *)
Fixpoint addByPriority (cutsNeeded : Z) (minCutInterval : Q)
         (candidates : list Candidate.t) (selectedCuts : list CutMarker.t)
  : list CutMarker.t :=
  match candidates with
  | [] => selectedCuts
  | candidate :: rest =>
      if negb (short selectedCuts cutsNeeded) then selectedCuts
      else if isDropReason (Candidate.reason candidate)
      then addByPriority cutsNeeded minCutInterval rest selectedCuts
      else
        let tooClose :=
          tooCloseTo minCutInterval selectedCuts (Candidate.time candidate) in
        if negb tooClose
        then addByPriority cutsNeeded minCutInterval rest
               (selectedCuts ++
                  [newCut (List.length selectedCuts)
                          (Candidate.time candidate)])
        else addByPriority cutsNeeded minCutInterval rest selectedCuts
  end.

(** One turn of the backfill loop. *)
Definition backfillStep (startTime activeDuration : Q) (cutsNeeded : Z)
           (minCutInterval : Q) (availableBeats : list BeatMarker.t)
           (selectedCuts : list CutMarker.t) : result (list CutMarker.t) :=
  let missingIndex := List.length selectedCuts in
  let idealTime :=
    startTime + ((Num.ofNat missingIndex + 1) * activeDuration
                 / (inject_Z cutsNeeded + 1)) in
  nearestBeat <-
    reduce1
      (fun nearest current =>
         let currentDistance := Num.abs (BeatMarker.time current - idealTime) in
         let nearestDistance := Num.abs (BeatMarker.time nearest - idealTime) in
         if Num.ltb currentDistance nearestDistance then current else nearest)
      (filter (fun beat =>
                 negb (tooCloseTo minCutInterval selectedCuts
                                  (BeatMarker.time beat)))
              availableBeats) ;;
  if truthy nearestBeat
  then Ok (selectedCuts ++
             [newCut missingIndex
                     (leadTime startTime (BeatMarker.time nearestBeat) (1#50))])
  else Ok (selectedCuts ++ [newCut missingIndex idealTime]).

(** [while (selectedCuts.length < cutsNeeded)]: a turn that does not throw
    pushes exactly one cut, so the loop is the recursion on the number
    [missing] of cuts still to place, entered with
    [cutsNeeded - selectedCuts.length]. *)
Fixpoint backfill (missing : nat) (startTime activeDuration : Q)
         (cutsNeeded : Z) (minCutInterval : Q)
         (availableBeats : list BeatMarker.t)
         (selectedCuts : list CutMarker.t) : result (list CutMarker.t) :=
  match missing with
  | O => Ok selectedCuts
  | S missing' =>
      selectedCuts' <-
        backfillStep startTime activeDuration cutsNeeded minCutInterval
                     availableBeats selectedCuts ;;
      backfill missing' startTime activeDuration cutsNeeded minCutInterval
               availableBeats selectedCuts'
  end.

(** [availableBeats] *)
Definition availableBeatsOf (o : RandomCutOptions) : list BeatMarker.t :=
  filter (fun beat =>
            Num.ltb (startTime o) (BeatMarker.time beat)
            && Num.ltb (BeatMarker.time beat) (endTime o))
         (beatMarkers o).

(** [selectedCuts] when the backfill loop is reached. *)
Definition selectCuts (o : RandomCutOptions) : list CutMarker.t :=
  let cutsNeeded := (planCount o - 1)%Z in
  let availableBeats := availableBeatsOf o in
  let measures := detectMeasures availableBeats in
  let drops := detectDrops availableBeats in
  let candidates :=
    buildCandidates (startTime o) (endTime o) availableBeats measures drops in
  let forcedCuts :=
    filter (fun c => isDropReason (Candidate.reason c)) candidates in
  let selectedCuts := addForced cutsNeeded forcedCuts [] in
  addByPriority cutsNeeded (minCutInterval o) candidates selectedCuts.

Definition generateRandomCuts (o : RandomCutOptions)
  : result (list CutMarker.t) :=
  if (planCount o <? 2)%Z then Ok [] else
  let cutsNeeded := (planCount o - 1)%Z in
  let activeDuration := endTime o - startTime o in
  if Num.ltb activeDuration (inject_Z cutsNeeded * minCutInterval o)
  then Ok [] else
  let availableBeats := availableBeatsOf o in
  if (List.length availableBeats =? 0)%nat
  then Ok (generateEquidistantCuts (startTime o) (endTime o) cutsNeeded) else
  let selectedCuts := selectCuts o in
  selectedCuts <-
    backfill (Z.to_nat (cutsNeeded - Z.of_nat (List.length selectedCuts)))
             (startTime o) activeDuration cutsNeeded (minCutInterval o)
             availableBeats selectedCuts ;;
  let finalCuts :=
    optimizeCutDurations (arraySort byTime selectedCuts) (endTime o) in
  Ok finalCuts.

(** The guard [activeDuration < cutsNeeded * minCutInterval] as the code
    evaluates it: the difference and the product are each rounded to a
    double before they are compared. *)
Definition tooShortOnDoubles (o : RandomCutOptions) : bool :=
  let cutsNeeded := Double.ofZ (planCount o - 1) in
  let activeDuration :=
    Double.sub (Double.ofQ (endTime o)) (Double.ofQ (startTime o)) in
  Double.ltb activeDuration (Double.mul cutsNeeded (Double.ofQ (minCutInterval o))).

(** [generateRandomCuts] with its duration guard decided on doubles; the
    placement of the cuts is as above. *)
Definition generateRandomCutsOnDoubles (o : RandomCutOptions)
  : result (list CutMarker.t) :=
  if (planCount o <? 2)%Z then Ok [] else
  let cutsNeeded := (planCount o - 1)%Z in
  let activeDuration := endTime o - startTime o in
  if tooShortOnDoubles o then Ok [] else
  let availableBeats := availableBeatsOf o in
  if (List.length availableBeats =? 0)%nat
  then Ok (generateEquidistantCuts (startTime o) (endTime o) cutsNeeded) else
  let selectedCuts := selectCuts o in
  selectedCuts <-
    backfill (Z.to_nat (cutsNeeded - Z.of_nat (List.length selectedCuts)))
             (startTime o) activeDuration cutsNeeded (minCutInterval o)
             availableBeats selectedCuts ;;
  let finalCuts :=
    optimizeCutDurations (arraySort byTime selectedCuts) (endTime o) in
  Ok finalCuts.

End Engine.

(** ** Properties stated about the engine *)

(** The duration pass of [optimizeCutDurations] over an array already
    sorted, as a walk reading the head of the remaining cuts for
    [sortedCuts[index + 1]]. *)
Fixpoint rebalance (endTime : Q) (l : list CutMarker.t) : list CutMarker.t :=
  match l with
  | [] => []
  | cut :: rest =>
      let maxDuration :=
        match rest with
        | nextCut :: _ => CutMarker.time nextCut - CutMarker.time cut
        | [] => endTime - CutMarker.time cut
        end in
      withDuration cut
        (Num.min (CutMarker.duration cut) (Num.max (3#10) (maxDuration - (1#10))))
      :: rebalance endTime rest
  end.

(** Cuts in ascending order of time, ties allowed. *)
Definition ascending (l : list CutMarker.t) : Prop :=
  StronglySorted (fun a b => CutMarker.time a <= CutMarker.time b) l.

(** Cuts in strictly ascending order of time. *)
Definition strictlyAscending (l : list CutMarker.t) : Prop :=
  StronglySorted (fun a b => CutMarker.time a < CutMarker.time b) l.

(** [o] is [i] up to its duration. *)
Definition sameButDuration (i o : CutMarker.t) : Prop :=
  CutMarker.id o = CutMarker.id i /\
  CutMarker.time o = CutMarker.time i /\
  CutMarker.color o = CutMarker.color i /\
  CutMarker.trimSettings o = CutMarker.trimSettings i.

(** Beats in ascending order of time, equal times allowed: the order in
    which the beat classifier hands them over. *)
Definition ascendingBeats (l : list BeatMarker.t) : Prop :=
  StronglySorted (fun a b => BeatMarker.time a <= BeatMarker.time b) l.

(** Every later cut of the list lies at least [gap] after every earlier
    one; in particular every two adjacent cuts do. *)
Definition spacedBy (gap : Q) (l : list CutMarker.t) : Prop :=
  StronglySorted (fun a b => CutMarker.time a + gap <= CutMarker.time b) l.

(** Two times at least [gap] apart, in either order. *)
Definition apart (gap a b : Q) : Prop := gap <= Num.abs (a - b).

(** Any two entries of a list of times are at least [gap] apart. *)
Definition pairwiseApart (gap : Q) (l : list Q) : Prop :=
  StronglySorted (apart gap) l.

(** The two guards under which the engine declines. *)
Definition declines (o : RandomCutOptions) : Prop :=
  (planCount o < 2)%Z \/
  ((2 <= planCount o)%Z /\
   endTime o - startTime o < inject_Z (planCount o - 1) * minCutInterval o).

(** The two guards as the code decides them. *)
Definition declinesOnDoubles (o : RandomCutOptions) : Prop :=
  (planCount o < 2)%Z \/
  ((2 <= planCount o)%Z /\ tooShortOnDoubles o = true).

(** The cut placed ahead of a drop. *)
Definition dropCutTime (o : RandomCutOptions) (d : DropMarker.t) : Q :=
  Num.max (startTime o + (1#20)) (DropMarker.time d - (1#20)).

(** A cut time within the active region, not before [startTime + 0.05]. *)
Definition withinRegion (o : RandomCutOptions) (t : Q) : Prop :=
  startTime o + (1#20) <= t /\ t < endTime o.

(** Two different times. *)
Definition separate (a b : Q) : Prop := ~ a == b.

(** [t > startTime && t < endTime] *)
Definition inside (startTime endTime t : Q) : bool :=
  Num.ltb startTime t && Num.ltb t endTime.

(** The candidate pushed for a drop. *)
Definition dropCandidate (startTime : Q) (d : DropMarker.t) : Candidate.t :=
  Candidate.mk (leadTime startTime (DropMarker.time d) (1#20))
               (DropMarker.intensity d) (DropMarker.type d) 100 drop.

(** A candidate other than a drop: it sits a lead time ahead of one of the
    available beats. *)
Definition fromBeat (startTime : Q) (availableBeats : list BeatMarker.t)
           (c : Candidate.t) : Prop :=
  isDropReason (Candidate.reason c) = false /\
  exists beat lead,
    In beat availableBeats /\ 0 <= lead /\
    Candidate.time c = leadTime startTime (BeatMarker.time beat) lead.

(** The position the specification gives the grid after [k] acceptances. *)
Definition fixedGrid (start averageMeasureDuration : Q) (k : nat) : Q :=
  start + Num.ofNat k * averageMeasureDuration.

(** The last measure pushed, if any. *)
Definition lastMeasure (measures : list MeasureInfo.t) : option MeasureInfo.t :=
  match rev measures with
  | [] => None
  | m :: _ => Some m
  end.

(** ** Sample inputs *)

(** A stream of identifiers. *)
Definition sampleUuid (n : nat) : string :=
  String (Ascii.ascii_of_nat (48 + n mod 10)) EmptyString.

Definition weakAt (t : Q) : BeatMarker.t := BeatMarker.mk t (1#2) weak.
Definition strongAt (t : Q) : BeatMarker.t := BeatMarker.mk t (1#2) strong.

(** Eight strong beats two seconds apart, the second one 100ms early. *)
Definition driftBeats : list BeatMarker.t :=
  [strongAt 1; strongAt (29#10); strongAt 5; strongAt 7;
   strongAt 9; strongAt 11; strongAt 13; strongAt 15].

(** One weak beat in a ten-second region, three plans. *)
Definition loneBeat : RandomCutOptions :=
  mkOptions 0 10 3 [weakAt 5] (4#5) true.

(** Two strong beats, the second a drop, six plans. *)
Definition twoStrong : RandomCutOptions :=
  mkOptions 0 10 6 [strongAt 1; strongAt 5] (4#5) true.

(** No beat, a region just long enough for two cuts. *)
Definition tightRegion : RandomCutOptions :=
  mkOptions 0 (8#5) 3 [] (4#5) true.

(** No beat, a region of 80ms and a minimum interval of 10ms. *)
Definition tinyRegion : RandomCutOptions :=
  mkOptions 0 (2#25) 2 [] (1#100) true.


(** One weak beat and a minimum interval of 10ms. *)
Definition looseInterval : RandomCutOptions :=
  mkOptions 0 10 3 [weakAt 5] (1#100) true.

(** Three strong beats, two of them drops 1.5s apart, and a minimum
    interval of 2s. *)
Definition wideInterval : RandomCutOptions :=
  mkOptions 0 10 3 [strongAt 1; strongAt 3; strongAt (9#2)] 2 true.

(** Two weak beats 0.79s apart. *)
Definition nearBeats : RandomCutOptions :=
  mkOptions 0 10 3 [weakAt (339#100); weakAt (209#50)] (4#5) true.

(** The drifting beats as a whole track. *)
Definition driftTrack (planCount : Z) : RandomCutOptions :=
  mkOptions 0 20 planCount driftBeats (4#5) true.

(** Two cuts handed over out of order. *)
Definition sampleCuts : list CutMarker.t :=
  [CutMarker.mk "a" 4 "#F97316" 3 None; CutMarker.mk "b" 2 "#3B82F6" (1#2) None].

(** The list a call returns, empty when it throws. *)
Definition returned {A : Type} (r : result (list A)) : list A :=
  match r with
  | Ok l => l
  | Throw _ => []
  end.

(** ** addTimeVariation *)

(** [{ ...cut, time: t }] *)
Definition withTime (cut : CutMarker.t) (t : Q) : CutMarker.t :=
  CutMarker.mk (CutMarker.id cut) t (CutMarker.color cut)
               (CutMarker.duration cut) (CutMarker.trimSettings cut).

(** [Math.random()] draws from the stream [random], the cut at index [i]
    taking the draw [random i]. *)
Definition addTimeVariation (random : nat -> Q) (cuts : list CutMarker.t)
           (maxVariation : Q) : list CutMarker.t :=
  mapi (fun cut i =>
          withTime cut
                   (CutMarker.time cut + (random i - (1#2)) * maxVariation))
       cuts.

(** ** Further properties stated about the engine *)

(** A time placed 50, 30 or 20ms ahead of a beat of the active region, and
    not before [startTime + 0.05]. *)
Definition aheadOfBeat (o : RandomCutOptions) (t : Q) : Prop :=
  exists beat lead,
    In beat (availableBeatsOf o) /\
    (lead = (1#20) \/ lead = (3#100) \/ lead = (1#50)) /\
    t = Num.max (startTime o + (1#20)) (BeatMarker.time beat - lead).

(** The id and the color of a cut. *)
Definition idAndColor (cut : CutMarker.t) : string * string :=
  (CutMarker.id cut, CutMarker.color cut).

(** The position the backfill loop aims at when [missingIndex] cuts are
    selected. *)
Definition idealTimeAt (o : RandomCutOptions) (missingIndex : nat) : Q :=
  startTime o + ((Num.ofNat missingIndex + 1) * (endTime o - startTime o)
                 / (inject_Z (planCount o - 1) + 1)).

(** The strong beats of a list. *)
Definition strongBeatsOf (beatMarkers : list BeatMarker.t) : list BeatMarker.t :=
  filter (fun beat => isStrong (BeatMarker.type beat)) beatMarkers.

(** Every two neighbours of a list of times lie [gap] apart. *)
Definition evenlySpaced (gap : Q) (times : list Q) : Prop :=
  forall i a b,
    nth_error times i = Some a -> nth_error times (S i) = Some b ->
    b - a == gap.

(** A measure as the grid walk pushes it, for the tempo [bpm] and among the
    beats [whole]. *)
Definition pushed (bpm : Q) (whole : list BeatMarker.t) (m : MeasureInfo.t)
  : Prop :=
  MeasureInfo.bpm m = bpm /\
  7#10 < MeasureInfo.confidence m <= 1 /\
  exists beat, In beat whole /\ MeasureInfo.startTime m = BeatMarker.time beat.

(** Two measures in a row on a grid of measures lasting [avg]. *)
Definition inStep (avg : Q) (m1 m2 : MeasureInfo.t) : Prop :=
  (7#10) * avg < MeasureInfo.startTime m2 - MeasureInfo.startTime m1
  < (13#10) * avg.

(** What the grid walk keeps true of its state. *)
Definition kept (avg bpm : Q) (whole : list BeatMarker.t)
           (st : Q * list MeasureInfo.t) : Prop :=
  Forall (pushed bpm whole) (snd st) /\
  Sorted (inStep avg) (snd st) /\
  forall m, lastMeasure (snd st) = Some m ->
            fst st = MeasureInfo.startTime m + avg.

(** ** Beat detection (the analysis of the waveform display) *)

(** [amplitude > 0.25 ? 'strong' : amplitude > 0.15 ? 'medium' : 'weak'] *)
Definition classify (amplitude : Q) : BeatType :=
  if Num.ltb (1#4) amplitude then strong
  else if Num.ltb (3#20) amplitude then medium
  else weak.

(** The array [smoothed]: the mean of five neighbours from index 2 to
    [samples - 3], and the initial 0 elsewhere. *)
Definition smoothedOf (filteredData : list Q) : list Q :=
  let samples := List.length filteredData in
  map (fun i =>
         if (2 <=? i)%nat && (i <? samples - 2)%nat
         then (nth (i - 2) filteredData 0 + nth (i - 1) filteredData 0
               + nth i filteredData 0 + nth (i + 1) filteredData 0
               + nth (i + 2) filteredData 0) / 5
         else 0)
      (seq 0 samples).

(** One turn of the peak loop at index [i]; [beats[beats.length - 1]] is
    read with [nth_error], which finds nothing in an empty array. *)
Definition beatStep (smoothed : list Q) (samples : nat) (duration : Q)
           (beats : list BeatMarker.t) (i : nat) : list BeatMarker.t :=
  let threshold := 2#25 in
  let minInterval := 3#20 in
  let time := (Num.ofNat i / Num.ofNat samples) * duration in
  let amplitude := nth i smoothed 0 in
  if Num.ltb threshold amplitude
     && Num.ltb (nth (i - 1) smoothed 0) amplitude
     && Num.ltb (nth (i + 1) smoothed 0) amplitude
     && Num.ltb (nth (i - 2) smoothed 0) amplitude
     && Num.ltb (nth (i + 2) smoothed 0) amplitude
  then
    match nth_error beats (List.length beats - 1) with
    | Some lastBeat =>
        if Num.ltb minInterval (time - BeatMarker.time lastBeat)
        then beats ++ [BeatMarker.mk time amplitude (classify amplitude)]
        else beats
    | None => beats ++ [BeatMarker.mk time amplitude (classify amplitude)]
    end
  else beats.

(** The beats found in the block averages [filteredData] of a file lasting
    [duration]: the loop runs from index 3 to [smoothed.length - 4]. *)
Definition detectBeats (filteredData : list Q) (duration : Q)
  : list BeatMarker.t :=
  let samples := List.length filteredData in
  let smoothed := smoothedOf filteredData in
  fold_left (beatStep smoothed samples duration) (seq 3 (samples - 6)) [].

(** Each beat comes more than [gap] after the one before it. *)
Definition beatsSpaced (gap : Q) (beats : list BeatMarker.t) : Prop :=
  Sorted (fun a b => BeatMarker.time a + gap < BeatMarker.time b) beats.

(** A peak of height [h] in the block averages, between silences. *)
Definition peak (h : Q) : list Q :=
  [0; 0; 0; h * (1#3); h * (2#3); h; h * (2#3); h * (1#3); 0; 0].

(** Block averages with four peaks, one every ten blocks. *)
Definition sampleWaveform : list Q :=
  peak 1 ++ peak (3#10) ++ peak (3#5) ++ peak (1#5).

(** ** The audio trimmer *)

(** A decoded [AudioBuffer]: [channels] holds the samples that
    [getChannelData] returns, one array per channel.  The platform only
    hands out buffers with at least one channel and a positive sample
    rate. *)
Module AudioBuffer.
Record t : Type := mk {
  numberOfChannels : nat;
  sampleRate : Q;
  length : nat;
  channels : list (list Q)
}.
End AudioBuffer.

(** [buffer.getChannelData(channel)[i]]; every read of the trimmer is within
    the channel. *)
Definition sampleAt (buffer : AudioBuffer.t) (channel i : nat) : Q :=
  nth i (nth channel (AudioBuffer.channels buffer) []) 0.

(** A call that returns a value or throws an [Error] with a message. *)
Inductive outcome (A : Type) : Type :=
| Done (a : A)
| Failed (message : string).

Arguments Done {A} a.
Arguments Failed {A} message.

(** The conversion of a number to an integer, towards zero, that the
    setters of a [DataView] apply before they wrap it. *)
Definition truncate (x : Q) : Z :=
  if Qle_bool 0 x then Qfloor x else Qceiling x.

(** The [width] bytes of [v] modulo [2 ^ (8 * width)], lowest first. *)
Definition littleEndian (width : nat) (v : Z) : list Z :=
  map (fun k => ((v / 2 ^ (8 * Z.of_nat k)) mod 256)%Z) (seq 0 width).

(** A write of [bytes] at [offset] into the bytes [view] of an
    [ArrayBuffer]; [None] is the [RangeError] of a write past the end. *)
Definition store (view : list Z) (offset : nat) (bytes : list Z)
  : option (list Z) :=
  if (offset + List.length bytes <=? List.length view)%nat
  then Some (firstn offset view ++ bytes
             ++ skipn (offset + List.length bytes) view)
  else None.

Definition setUint8 (view : list Z) (offset : nat) (value : Q)
  : option (list Z) :=
  store view offset (littleEndian 1 (truncate value)).

(** [view.setUint16(offset, value, true)] *)
Definition setUint16 (view : list Z) (offset : nat) (value : Q)
  : option (list Z) :=
  store view offset (littleEndian 2 (truncate value)).

(** [view.setUint32(offset, value, true)] *)
Definition setUint32 (view : list Z) (offset : nat) (value : Q)
  : option (list Z) :=
  store view offset (littleEndian 4 (truncate value)).

(** [view.setInt16(offset, value, true)]: the two bytes of the two's
    complement of the wrapped value. *)
Definition setInt16 (view : list Z) (offset : nat) (value : Q)
  : option (list Z) :=
  store view offset (littleEndian 2 (truncate value)).

Definition bindOption {A B : Type} (r : option A) (k : A -> option B)
  : option B :=
  match r with
  | Some a => k a
  | None => None
  end.

Notation "x <~ r ;; k" := (bindOption r (fun x => k))
  (at level 61, r at next level, right associativity).

(** [string.charCodeAt(i)] of an ASCII string. *)
Definition charCode (c : Ascii.ascii) : Q :=
  Num.ofNat (Ascii.nat_of_ascii c).

(** [writeString(offset, string)] *)
Fixpoint writeString (view : list Z) (offset : nat) (s : string)
  : option (list Z) :=
  match s with
  | EmptyString => Some view
  | String c rest =>
      view' <~ setUint8 view offset (charCode c) ;;
      writeString view' (S offset) rest
  end.

(** [Math.max(-1, Math.min(1, x))], scaled by [0x8000] below zero and by
    [0x7FFF] otherwise. *)
Definition intSampleOf (x : Q) : Q :=
  let sample := Num.max (-1) (Num.min 1 x) in
  if Num.ltb sample 0 then sample * 32768 else sample * 32767.

(** The body of the inner loop: one sample written, [offset] moved on. *)
Definition writeSample (buffer : AudioBuffer.t) (i : nat)
           (st : option (list Z * nat)) (channel : nat)
  : option (list Z * nat) :=
  st' <~ st ;;
  let '(view, offset) := st' in
  let intSample := intSampleOf (sampleAt buffer channel i) in
  view' <~ setInt16 view offset intSample ;;
  Some (view', (offset + 2)%nat).

(** The body of the outer loop: the frame [i], channel after channel. *)
Definition writeFrame (buffer : AudioBuffer.t) (numberOfChannels : nat)
           (st : option (list Z * nat)) (i : nat) : option (list Z * nat) :=
  fold_left (writeSample buffer i) (seq 0 numberOfChannels) st.

(** The bytes of the WAV file of a buffer. *)
Definition audioBufferToWav (buffer : AudioBuffer.t) : option (list Z) :=
  let numberOfChannels := AudioBuffer.numberOfChannels buffer in
  let sampleRate := AudioBuffer.sampleRate buffer in
  let format := 1 in
  let bitDepth := 16%nat in
  let bytesPerSample := (bitDepth / 8)%nat in
  let blockAlign := (numberOfChannels * bytesPerSample)%nat in
  let byteRate := sampleRate * Num.ofNat blockAlign in
  let dataSize := (AudioBuffer.length buffer * blockAlign)%nat in
  let bufferSize := (44 + dataSize)%nat in
  let view := repeat 0%Z bufferSize in
  view <~ writeString view 0 "RIFF" ;;
  view <~ setUint32 view 4 (Num.ofNat (bufferSize - 8)) ;;
  view <~ writeString view 8 "WAVE" ;;
  view <~ writeString view 12 "fmt " ;;
  view <~ setUint32 view 16 16 ;;
  view <~ setUint16 view 20 format ;;
  view <~ setUint16 view 22 (Num.ofNat numberOfChannels) ;;
  view <~ setUint32 view 24 sampleRate ;;
  view <~ setUint32 view 28 byteRate ;;
  view <~ setUint16 view 32 (Num.ofNat blockAlign) ;;
  view <~ setUint16 view 34 (Num.ofNat bitDepth) ;;
  view <~ writeString view 36 "data" ;;
  view <~ setUint32 view 40 (Num.ofNat dataSize) ;;
  st <~ fold_left (writeFrame buffer numberOfChannels)
                  (seq 0 (AudioBuffer.length buffer)) (Some (view, 44%nat)) ;;
  Some (fst st).

(** [Math.floor(time * sampleRate)] as the code computes it: the product
    is rounded to a double before the floor is taken.  [None] stands for an
    infinite product. *)
Definition sampleIndex (time sampleRate : Q) : option Z :=
  Double.floor (Double.mul (Double.ofQ time) (Double.ofQ sampleRate)).

(** The part of [trimAudioFile] between the decoding of the file and the
    encoding of the result: the check of the sample window and the copy.
    An infinite sample index fails one of the three tests of the check. *)
Definition trimBuffer (audioBuffer : AudioBuffer.t) (startTime endTime : Q)
  : outcome AudioBuffer.t :=
  let sampleRate := AudioBuffer.sampleRate audioBuffer in
  match sampleIndex startTime sampleRate, sampleIndex endTime sampleRate with
  | Some startSample, Some endSample =>
      let trimmedLength := (endSample - startSample)%Z in
      if (endSample <=? startSample)%Z || (startSample <? 0)%Z
         || (Z.of_nat (AudioBuffer.length audioBuffer) <? endSample)%Z
      then Failed "Invalid trim parameters"
      else
        Done (AudioBuffer.mk
                (AudioBuffer.numberOfChannels audioBuffer)
                sampleRate
                (Z.to_nat trimmedLength)
                (map (fun channel =>
                        map (fun i =>
                               sampleAt audioBuffer channel
                                        (Z.to_nat startSample + i))
                            (seq 0 (Z.to_nat trimmedLength)))
                     (seq 0 (AudioBuffer.numberOfChannels audioBuffer))))
  | _, _ => Failed "Invalid trim parameters"
  end.

(** [trimAudioFile] on the decoded buffer of the file. *)
Definition trimAudioFile (audioBuffer : AudioBuffer.t) (startTime endTime : Q)
  : outcome (list Z) :=
  match trimBuffer audioBuffer startTime endTime with
  | Failed message => Failed message
  | Done trimmedBuffer =>
      match audioBufferToWav trimmedBuffer with
      | Some wavBlob => Done wavBlob
      | None => Failed "RangeError"
      end
  end.

(** What a reader of the file does: [width] bytes at [offset], lowest
    first, as an unsigned number. *)
Fixpoint readLittleEndian (bytes : list Z) (offset width : nat) : Z :=
  match width with
  | O => 0
  | S width' =>
      (nth offset bytes 0 + 256 * readLittleEndian bytes (S offset) width')%Z
  end.

(** The same bytes as a signed 16-bit number. *)
Definition readInt16 (bytes : list Z) (offset : nat) : Z :=
  let u := readLittleEndian bytes offset 2 in
  if (u <? 32768)%Z then u else (u - 65536)%Z.

(** A stereo buffer of three frames at 4 Hz. *)
Definition sampleBuffer : AudioBuffer.t :=
  AudioBuffer.mk 2 4 3 [[1#2; -1; 2]; [0; -(1#4); 1]].

(** A mono buffer of 480 frames, 10ms, at 48kHz: a ramp from 0 towards 1. *)
Definition ramp48k : AudioBuffer.t :=
  AudioBuffer.mk 1 48000 480 [map (fun i => Num.ofNat i / 480) (seq 0 480)].

(** The 44 bytes of the header and the bytes of the samples, frame after
    frame and channel after channel, as a reader of the file expects them. *)
Definition wavHeader (buffer : AudioBuffer.t) : list Z :=
  let numberOfChannels := AudioBuffer.numberOfChannels buffer in
  let blockAlign := (numberOfChannels * 2)%nat in
  let dataSize := (AudioBuffer.length buffer * blockAlign)%nat in
  [82; 73; 70; 70]%Z
  ++ littleEndian 4 (Z.of_nat (44 + dataSize - 8))
  ++ [87; 65; 86; 69]%Z
  ++ [102; 109; 116; 32]%Z
  ++ littleEndian 4 16
  ++ littleEndian 2 1
  ++ littleEndian 2 (Z.of_nat numberOfChannels)
  ++ littleEndian 4 (truncate (AudioBuffer.sampleRate buffer))
  ++ littleEndian 4 (truncate (AudioBuffer.sampleRate buffer
                               * Num.ofNat blockAlign))
  ++ littleEndian 2 (Z.of_nat blockAlign)
  ++ littleEndian 2 16
  ++ [100; 97; 116; 97]%Z
  ++ littleEndian 4 (Z.of_nat dataSize).

Definition frameBytes (buffer : AudioBuffer.t) (i : nat) : list Z :=
  flat_map (fun channel =>
              littleEndian 2 (truncate (intSampleOf (sampleAt buffer channel i))))
           (seq 0 (AudioBuffer.numberOfChannels buffer)).

Definition wavData (buffer : AudioBuffer.t) : list Z :=
  flat_map (frameBytes buffer) (seq 0 (AudioBuffer.length buffer)).

(** The character codes of an ASCII string. *)
Definition charCodes (s : string) : list Z :=
  map (fun c => Z.of_nat (Ascii.nat_of_ascii c)) (list_ascii_of_string s).


(** ** The cut handlers of the editor (App.tsx) *)

(** [handleAddCut(time)] with an audio file loaded: the next list of cuts,
    [id] being the identifier drawn.  The state updater runs on the list
    the handler read. *)
Definition handleAddCut (id : string) (cutMarkers : list CutMarker.t)
           (time : Q) : list CutMarker.t :=
  let nextCut :=
    find (fun cut => Num.ltb time (CutMarker.time cut)) cutMarkers in
  let defaultDuration :=
    match nextCut with
    | Some nextCut => Num.min (CutMarker.time nextCut - time) 1
    | None => 1
    end in
  let newCut :=
    CutMarker.mk id time (colorAt (List.length cutMarkers)) defaultDuration
                 None in
  arraySort byTime (cutMarkers ++ [newCut]).

Definition handleRemoveCut (cutMarkers : list CutMarker.t) (id : string)
  : list CutMarker.t :=
  filter (fun cut => negb (String.eqb (CutMarker.id cut) id)) cutMarkers.

(** ** Plans of the preview *)

(** The loop of [getCurrentPlanNumber] from the index [i] on. *)
Fixpoint planFrom (i : nat) (sortedCuts : list CutMarker.t) (currentTime : Q)
  : nat :=
  match sortedCuts with
  | [] => 1
  | cut :: rest =>
      if Num.geb currentTime (CutMarker.time cut)
         && match rest with
            | [] => true
            | nextCut :: _ => Num.ltb currentTime (CutMarker.time nextCut)
            end
      then i + 2
      else planFrom (S i) rest currentTime
  end.

Definition getCurrentPlanNumber (cutMarkers : list CutMarker.t)
           (currentTime : Q) : nat :=
  let sortedCuts := arraySort byTime cutMarkers in
  planFrom 0 sortedCuts currentTime.

(** [l[k]] for an integer [k]: [undefined] outside the array. *)
Definition itemAt {A : Type} (l : list A) (k : Z) : option A :=
  if (k <? 0)%Z then None else nth_error l (Z.to_nat k).

(** [cut?.time || fallback]: a time of 0 is falsy. *)
Definition timeOr (cut : option CutMarker.t) (fallback : Q) : Q :=
  match cut with
  | Some cut =>
      if Qeq_bool (CutMarker.time cut) 0 then fallback else CutMarker.time cut
  | None => fallback
  end.

Definition getPlanDuration (cutMarkers : list CutMarker.t)
           (startTime endTime : Q) (planIndex : Z) : Q :=
  let sortedCuts := arraySort byTime cutMarkers in
  if (planIndex =? 1)%Z then
    let firstCutTime := timeOr (itemAt sortedCuts 0) endTime in
    firstCutTime - startTime
  else
    let previousCutTime := timeOr (itemAt sortedCuts (planIndex - 2)) startTime in
    let currentCutTime := timeOr (itemAt sortedCuts (planIndex - 1)) endTime in
    currentCutTime - previousCutTime.

(** The sum of a list of numbers. *)
Definition total (l : list Q) : Q := fold_right Qplus 0 l.

(** The plans [1 .. n + 1] that [n] cuts delimit. *)
Definition plansOf (cutMarkers : list CutMarker.t) : list Z :=
  map Z.of_nat (seq 1 (List.length cutMarkers + 1)).

(** ** Segments of the exported timeline *)

Module VideoSegment.
Record t : Type := mk {
  planIndex : nat;
  startTime : Q;
  endTime : Q
}.
End VideoSegment.

(** The loop of [createVideoPlaceholderSegments] (ExportPanel.tsx) from the
    index [i] on. *)
Fixpoint segmentsFrom (i : nat) (sortedCuts : list CutMarker.t)
         (startTime endTime : Q) : list VideoSegment.t :=
  match sortedCuts with
  | [] => []
  | cut :: rest =>
      let planIndex := (i + 2)%nat in
      (if Num.ltb (CutMarker.time cut) endTime
       then [VideoSegment.mk planIndex
               (Num.max (CutMarker.time cut) startTime)
               (Num.min (match rest with
                         | nextCut :: _ => CutMarker.time nextCut
                         | [] => endTime
                         end) endTime)]
       else [])
      ++ segmentsFrom (S i) rest startTime endTime
  end.

Definition createVideoPlaceholderSegments (cutMarkers : list CutMarker.t)
           (startTime endTime : Q) : list VideoSegment.t :=
  let sortedCuts := arraySort byTime cutMarkers in
  let firstCutTime :=
    match sortedCuts with
    | cut :: _ => CutMarker.time cut
    | [] => endTime
    end in
  let segments :=
    VideoSegment.mk 1 startTime (Num.min firstCutTime endTime)
    :: segmentsFrom 0 sortedCuts startTime endTime in
  filter (fun segment =>
            Num.ltb (VideoSegment.startTime segment)
                    (VideoSegment.endTime segment))
         segments.

(** The plan and the duration of every entry of the main timeline that
    ExportPanel builds from the segments. *)
Definition panelTimeline (cutMarkers : list CutMarker.t)
           (startTime endTime : Q) : list (nat * Q) :=
  map (fun segment =>
         let segmentDuration :=
           VideoSegment.endTime segment - VideoSegment.startTime segment in
         (VideoSegment.planIndex segment, segmentDuration))
      (createVideoPlaceholderSegments cutMarkers startTime endTime).

(** An entry of the main timeline of [generateSnapcutJSON]: [video] is the
    number in [placeholder_video_<n>.mp4]. *)
Module TimelineItem.
Record t : Type := mk {
  duration : Q;
  startTime : Q;
  video : nat
}.
End TimelineItem.

(** The loop of [generateSnapcutJSON] from the index [i] on. *)
Fixpoint itemsFrom (i : nat) (sortedCuts : list CutMarker.t)
         (startTime endTime : Q) : list TimelineItem.t :=
  match sortedCuts with
  | [] => []
  | cut :: rest =>
      let segmentEnd :=
        match rest with
        | nextCut :: _ => Num.min (CutMarker.time nextCut) endTime
        | [] => endTime
        end in
      let segmentDuration := segmentEnd - CutMarker.time cut in
      (if Num.ltb 0 segmentDuration
       then [TimelineItem.mk segmentDuration (CutMarker.time cut - startTime)
                             (i + 2)]
       else [])
      ++ itemsFrom (S i) rest startTime endTime
  end.

(** [mainTimeline] of [generateSnapcutJSON]. *)
Definition mainTimeline (cutMarkers : list CutMarker.t)
           (startTime endTime : Q) : list TimelineItem.t :=
  let sortedCuts := arraySort byTime cutMarkers in
  let firstCutTime :=
    match sortedCuts with
    | cut :: _ => CutMarker.time cut
    | [] => endTime
    end in
  let firstDuration := Num.min firstCutTime endTime - startTime in
  (if Num.ltb 0 firstDuration then [TimelineItem.mk firstDuration 0 1] else [])
  ++ itemsFrom 0 sortedCuts startTime endTime.

(** Every entry starts where the entries before it end, [elapsed] being
    the time the earlier entries take. *)
Fixpoint contiguousFrom (elapsed : Q) (items : list TimelineItem.t) : Prop :=
  match items with
  | [] => True
  | item :: rest =>
      TimelineItem.startTime item == elapsed /\
      0 < TimelineItem.duration item /\
      contiguousFrom (elapsed + TimelineItem.duration item) rest
  end.

(** ** Names of the exported files (fileNamingService.ts) *)

Module ProjectSettings.
Record t : Type := mk {
  category : string;
  templateNumber : string;
  musicId : string
}.
End ProjectSettings.

Module NamingContext.
Record t : Type := mk {
  projectSettings : ProjectSettings.t;
  duration : Q;
  planCount : Z
}.
End NamingContext.

(** An integer below [2 ^ 53] in a template literal: its decimal digits, a
    minus sign in front of a negative one. *)
Definition numberToString (z : Z) : string :=
  DecimalString.NilZero.string_of_int (Z.to_int z).

Definition generateBasePrefix (context : NamingContext.t) : string :=
  let settings := NamingContext.projectSettings context in
  (ProjectSettings.category settings ++ "_"
   ++ ProjectSettings.templateNumber settings ++ "_"
   ++ ProjectSettings.musicId settings ++ "_"
   ++ numberToString (NamingContext.planCount context) ++ "_"
   ++ numberToString (Qceiling (NamingContext.duration context)) ++ "s")%string.

Definition generateRawVideoFilename (context : NamingContext.t)
           (planIndex : Z) : string :=
  let basePrefix := generateBasePrefix context in
  (basePrefix ++ "_video" ++ numberToString planIndex ++ ".mp4")%string.

Definition generateVideoExportFilename (context : NamingContext.t)
           (index : Z) : string :=
  let basePrefix := generateBasePrefix context in
  (basePrefix ++ "_video" ++ numberToString (index + 1) ++ ".mp4")%string.

Definition createContext (projectSettings : ProjectSettings.t)
           (cutMarkers : list CutMarker.t) (duration : Q) : NamingContext.t :=
  NamingContext.mk projectSettings duration
                   (Z.of_nat (List.length cutMarkers) + 1).

(** ** More sample inputs *)

(** No beat, four plans, a region of 2.4s: three times the interval 0.8. *)
Definition boundaryRegion : RandomCutOptions :=
  mkOptions 0 (12#5) 4 [] (4#5) true.

(** The double that 0.8 denotes, read exactly: a little more than 4/5. *)
Definition double08 : Q := 3602879701896397 # 4503599627370496.

(** No beat, six plans, a region of 4s, and that double as interval. *)
Definition roundedRegion : RandomCutOptions :=
  mkOptions 0 4 6 [] double08 true.

(** Three strong beats, the last two of them drops exactly 1.2s apart, and
    a minimum interval of 1.21s. *)
Definition tightDrops : RandomCutOptions :=
  mkOptions 0 10 3 [strongAt 1; strongAt 3; strongAt (21#5)] (121#100) true.

(** Strong beats at 2.1s and 3.3s, and at 0.5s and 1.7s. *)
Definition beatsAt21 : list BeatMarker.t := [strongAt (21#10); strongAt (33#10)].
Definition beatsAt05 : list BeatMarker.t := [strongAt (1#2); strongAt (17#10)].

(** One weak beat, two plans. *)
Definition singleCut : RandomCutOptions :=
  mkOptions 0 10 2 [weakAt 5] (4#5) true.

(** A stream of draws of [Math.random()]. *)
Definition sampleRandom (i : nat) : Q :=
  if Nat.even i then 1#4 else 9#10.

(** Three cuts in ascending order. *)
Definition sortedCuts3 : list CutMarker.t :=
  [CutMarker.mk "a" 2 "#F97316" 1 None;
   CutMarker.mk "b" 4 "#3B82F6" 1 None;
   CutMarker.mk "c" 7 "#10B981" 1 None].

Definition sampleSettings : ProjectSettings.t :=
  ProjectSettings.mk "Travel" "006" "012".

(** * Proofs *)

(** ** Comparisons *)

Lemma ltb_lt (a b : Q) : Num.ltb a b = true <-> a < b.
Proof.
  unfold Num.ltb. rewrite negb_true_iff.
  split; intro H.
  - apply Qnot_le_lt. intro Hle. apply Qle_bool_iff in Hle. congruence.
  - destruct (Qle_bool b a) eqn:E; [|reflexivity].
    apply Qle_bool_iff in E. lra.
Qed.

Lemma ltb_ge (a b : Q) : Num.ltb a b = false <-> b <= a.
Proof.
  unfold Num.ltb. rewrite negb_false_iff. apply Qle_bool_iff.
Qed.

Lemma leb_le (a b : Q) : Num.leb a b = true <-> a <= b.
Proof. apply Qle_bool_iff. Qed.

Lemma leb_gt (a b : Q) : Num.leb a b = false <-> b < a.
Proof.
  unfold Num.leb. split; intro H.
  - apply Qnot_le_lt. intro Hle. apply Qle_bool_iff in Hle. congruence.
  - destruct (Qle_bool a b) eqn:E; [|reflexivity].
    apply Qle_bool_iff in E. lra.
Qed.

Lemma geb_ge (a b : Q) : Num.geb a b = true <-> b <= a.
Proof. apply Qle_bool_iff. Qed.




Lemma max_cases (a b : Q) :
  (b <= a /\ Num.max a b = a) \/ (a <= b /\ Num.max a b = b).
Proof.
  unfold Num.max, Qmax, GenericMinMax.gmax.
  destruct (a ?= b) eqn:E.
  - left. apply Qeq_alt in E. split; [lra | reflexivity].
  - right. apply Qlt_alt in E. split; [lra | reflexivity].
  - left. apply Qgt_alt in E. split; [lra | reflexivity].
Qed.

(** ** Sorting *)

Section SortFacts.

Context {A : Type} (cmp : A -> A -> Q).

Lemma insertSorted_perm (x : A) (l : list A) :
  Permutation (x :: l) (insertSorted cmp x l).
Proof.
  induction l as [|y ys IH]; simpl.
  - apply Permutation_refl.
  - destruct (Num.leb (cmp x y) 0).
    + apply Permutation_refl.
    + eapply perm_trans; [apply perm_swap|].
      apply perm_skip. exact IH.
Qed.

Lemma arraySort_perm (l : list A) : Permutation l (arraySort cmp l).
Proof.
  induction l as [|x xs IH]; simpl.
  - apply perm_nil.
  - eapply perm_trans; [apply perm_skip; exact IH|].
    apply insertSorted_perm.
Qed.

Lemma arraySort_length (l : list A) :
  List.length (arraySort cmp l) = List.length l.
Proof. symmetry. apply Permutation_length, arraySort_perm. Qed.

Lemma arraySort_In (x : A) (l : list A) : In x (arraySort cmp l) <-> In x l.
Proof.
  split; intro H.
  - eapply Permutation_in; [apply Permutation_sym, arraySort_perm | exact H].
  - eapply Permutation_in; [apply arraySort_perm | exact H].
Qed.

(** The comparator orders by a numeric key. *)
Variable key : A -> Q.
Hypothesis cmp_key : forall x y, cmp x y <= 0 <-> key x <= key y.

Lemma insertSorted_sorted (x : A) (l : list A) :
  StronglySorted (fun a b => key a <= key b) l ->
  StronglySorted (fun a b => key a <= key b) (insertSorted cmp x l).
Proof.
  induction 1 as [|y ys Hs IH Hall]; simpl.
  - constructor; [constructor | constructor].
  - destruct (Num.leb (cmp x y) 0) eqn:E.
    + apply leb_le, cmp_key in E.
      constructor; [constructor; assumption|].
      constructor; [exact E|].
      eapply Forall_impl; [|exact Hall].
      intros z Hz. cbv beta in *. lra.
    + apply leb_gt in E.
      assert (Hyx : key y <= key x).
      { destruct (Qlt_le_dec (key x) (key y)) as [Hlt|Hle]; [|exact Hle].
        assert (cmp x y <= 0) by (apply cmp_key; lra). lra. }
      constructor; [exact IH|].
      eapply Permutation_Forall; [apply insertSorted_perm|].
      constructor; assumption.
Qed.

Lemma arraySort_sorted (l : list A) :
  StronglySorted (fun a b => key a <= key b) (arraySort cmp l).
Proof.
  induction l as [|x xs IH]; simpl.
  - constructor.
  - apply insertSorted_sorted, IH.
Qed.

(** Sorting an array already in order leaves it as it is. *)
Lemma arraySort_fixed (l : list A) :
  StronglySorted (fun a b => key a <= key b) l -> arraySort cmp l = l.
Proof.
  induction 1 as [|x xs Hs IH Hall]; simpl; [reflexivity|].
  rewrite IH. destruct xs as [|y ys]; simpl; [reflexivity|].
  inversion Hall as [|? ? Hxy _]; subst.
  apply cmp_key, leb_le in Hxy. rewrite Hxy. reflexivity.
Qed.

End SortFacts.

Lemma byTime_key (x y : CutMarker.t) :
  byTime x y <= 0 <-> CutMarker.time x <= CutMarker.time y.
Proof. unfold byTime. split; intro; lra. Qed.

Lemma sortByTime_ascending (l : list CutMarker.t) :
  ascending (arraySort byTime l).
Proof. apply (arraySort_sorted byTime CutMarker.time byTime_key). Qed.

Lemma sortByTime_fixed (l : list CutMarker.t) :
  ascending l -> arraySort byTime l = l.
Proof. apply (arraySort_fixed byTime CutMarker.time byTime_key). Qed.

(** ** optimizeCutDurations *)

Lemma mapiFrom_rebalance (endTime : Q) (pre l : list CutMarker.t) :
  mapiFrom (List.length pre)
    (fun cut index =>
       let maxDuration :=
         match nth_error (pre ++ l) (index + 1) with
         | Some nextCut => CutMarker.time nextCut - CutMarker.time cut
         | None => endTime - CutMarker.time cut
         end in
       withDuration cut
         (Num.min (CutMarker.duration cut)
                  (Num.max (3#10) (maxDuration - (1#10))))) l
  = rebalance endTime l.
Proof.
  revert pre. induction l as [|x xs IH]; intro pre; [reflexivity|].
  cbn [mapiFrom rebalance]. f_equal.
  - rewrite nth_error_app2 by lia.
    replace (List.length pre + 1 - List.length pre)%nat with 1%nat by lia.
    destruct xs; reflexivity.
  - specialize (IH (pre ++ [x])).
    rewrite length_app, <- app_assoc in IH. cbn [List.length app] in IH.
    replace (List.length pre + 1)%nat with (S (List.length pre)) in IH by lia.
    exact IH.
Qed.

Lemma optimizeCutDurations_rebalance (cuts : list CutMarker.t) (endTime : Q) :
  optimizeCutDurations cuts endTime = rebalance endTime (arraySort byTime cuts).
Proof.
  unfold optimizeCutDurations, mapi.
  apply (mapiFrom_rebalance endTime []).
Qed.

Lemma rebalance_times (endTime : Q) (l : list CutMarker.t) :
  map CutMarker.time (rebalance endTime l) = map CutMarker.time l.
Proof. induction l as [|x xs IH]; simpl; [reflexivity | now rewrite IH]. Qed.

Lemma rebalance_length (endTime : Q) (l : list CutMarker.t) :
  List.length (rebalance endTime l) = List.length l.
Proof. induction l as [|x xs IH]; simpl; [reflexivity | now rewrite IH]. Qed.

Lemma rebalance_frame (endTime : Q) (l : list CutMarker.t) :
  Forall2 sameButDuration l (rebalance endTime l).
Proof.
  induction l as [|x xs IH]; simpl; constructor; [|exact IH].
  repeat split.
Qed.

(** Whether a list is in order depends on its times alone. *)
Lemma sorted_by_times (R : Q -> Q -> Prop) (l l' : list CutMarker.t) :
  map CutMarker.time l = map CutMarker.time l' ->
  StronglySorted (fun a b => R (CutMarker.time a) (CutMarker.time b)) l ->
  StronglySorted (fun a b => R (CutMarker.time a) (CutMarker.time b)) l'.
Proof.
  intros E H. revert l' E.
  induction H as [|x xs Hs IH Hall]; intros [|y ys] E; try discriminate;
    [constructor|].
  injection E as Ex Exs. constructor; [apply IH; exact Exs|].
  rewrite <- Ex.
  apply Forall_forall. intros z Hz.
  apply (in_map CutMarker.time) in Hz. rewrite <- Exs in Hz.
  apply in_map_iff in Hz. destruct Hz as [w [Ew Hw]].
  rewrite <- Ew. rewrite Forall_forall in Hall. apply Hall, Hw.
Qed.

Lemma rebalance_ascending (endTime : Q) (l : list CutMarker.t) :
  ascending l -> ascending (rebalance endTime l).
Proof.
  apply (sorted_by_times Qle). symmetry. apply rebalance_times.
Qed.


Lemma optimizeCutDurations_ascending (cuts : list CutMarker.t) (endTime : Q) :
  ascending (optimizeCutDurations cuts endTime).
Proof.
  rewrite optimizeCutDurations_rebalance.
  apply rebalance_ascending, sortByTime_ascending.
Qed.



(** C10. [optimizeCutDurations] returns as many cuts as it is given: the
    input cuts, reordered by ascending time, each with its id, time, color
    (and trim settings) unchanged; only the duration may differ. *)
Theorem optimizeCutDurations_frame (cuts : list CutMarker.t) (endTime : Q) :
  let out := optimizeCutDurations cuts endTime in
  List.length out = List.length cuts /\
  ascending out /\
  exists reordered,
    Permutation cuts reordered /\ Forall2 sameButDuration reordered out.
Proof.
  cbv zeta. split; [|split].
  - rewrite optimizeCutDurations_rebalance, rebalance_length.
    apply arraySort_length.
  - apply optimizeCutDurations_ascending.
  - exists (arraySort byTime cuts). split.
    + apply arraySort_perm.
    + rewrite optimizeCutDurations_rebalance. apply rebalance_frame.
Qed.

(** ** The grid walk of detectMeasures *)


Lemma lastMeasure_snoc (ms : list MeasureInfo.t) (m : MeasureInfo.t) :
  lastMeasure (ms ++ [m]) = Some m.
Proof. unfold lastMeasure. rewrite rev_app_distr. reflexivity. Qed.

(** After a turn, the expected position is the one before it, or the time
    of the beat just accepted plus the average measure duration. *)
Lemma walkStep_expected avg bpm expected measures beat :
  let st' := walkStep avg bpm (expected, measures) beat in
  (st' = (expected, measures)) \/
  (fst st' = BeatMarker.time beat + avg /\
   exists c, snd st' = measures ++ [MeasureInfo.mk (BeatMarker.time beat) bpm c]).
Proof.
  cbv zeta. unfold walkStep.
  destruct (Num.ltb _ _); [right | left; reflexivity].
  cbn [fst snd]. split; [reflexivity|]. eexists. reflexivity.
Qed.

Lemma walk_invariant avg bpm start (beats : list BeatMarker.t) :
  forall expected measures,
    expected = match lastMeasure measures with
               | None => start
               | Some m => MeasureInfo.startTime m + avg
               end ->
    let st' := walk avg bpm (expected, measures) beats in
    fst st' = match lastMeasure (snd st') with
              | None => start
              | Some m => MeasureInfo.startTime m + avg
              end.
Proof.
  induction beats as [|b bs IH]; intros expected measures Hinv.
  - exact Hinv.
  - cbv zeta. unfold walk. cbn [fold_left]. fold (walk avg bpm).
    destruct (walkStep_expected avg bpm expected measures b) as [E|[E1 [c E2]]].
    + rewrite E. apply IH, Hinv.
    + destruct (walkStep avg bpm (expected, measures) b) as [e' ms'].
      cbn [fst snd] in E1, E2. subst e' ms'.
      apply IH. rewrite lastMeasure_snoc. reflexivity.
Qed.

(** C7, as the code has it.  In the grid walk of [detectMeasures], a strong
    beat that is accepted moves the next expected downbeat to its own time
    plus [averageMeasureDuration]: the grid resynchronizes to every accepted
    beat.  So after any part of the walk the expected position is the grid
    start while nothing is accepted, and afterwards the start time of the
    last accepted measure plus [averageMeasureDuration]. *)
Theorem walk_resynchronizes (averageMeasureDuration bpm : Q)
        (strongBeats : list BeatMarker.t) (n : nat) :
  let st := walk averageMeasureDuration bpm (gridStart strongBeats, [])
                 (firstn n strongBeats) in
  fst st = match lastMeasure (snd st) with
           | None => gridStart strongBeats
           | Some m => MeasureInfo.startTime m + averageMeasureDuration
           end.
Proof.
  apply walk_invariant. reflexivity.
Qed.

(** C7, as stated, fails on [driftBeats]: the tempo analysis finds a measure
    of 2s on a grid starting at 1s; the first two strong beats (1s and 2.9s)
    are accepted, after which the code expects the next downbeat at
    2.9 + 2 = 4.9s, not at 1 + 2 * 2 = 5s, and the beat at 5s is accepted
    with confidence 0.95 instead of 1. *)
Lemma walk_leaves_fixed_grid :
  exists avg bpm,
    measureGrid driftBeats = Some (driftBeats, avg, bpm) /\
    avg == 2 /\
    let st := walk avg bpm (gridStart driftBeats, []) (firstn 2 driftBeats) in
    List.length (snd st) = 2%nat /\
    fst st == 49#10 /\
    ~ fst st == fixedGrid (gridStart driftBeats) avg (List.length (snd st)) /\
    map (fun m => Qred (MeasureInfo.confidence m))
        (firstn 3 (detectMeasures driftBeats)) = [1; 19#20; 19#20].
Proof.
  eexists. eexists. split; [vm_compute; reflexivity|].
  split; [reflexivity|].
  cbv zeta. split; [reflexivity|].
  split; [reflexivity|].
  split; [|vm_compute; reflexivity].
  vm_compute. discriminate.
Qed.

(** ** The selection loops *)

Section EngineFacts.

Variable uuid : nat -> string.

Lemma newCut_time (i : nat) (t : Q) : CutMarker.time (newCut uuid i t) = t.
Proof. reflexivity. Qed.

Lemma fold_left_pick {A : Type} (f : A -> A -> A) :
  (forall a b, f a b = a \/ f a b = b) ->
  forall l x, In (fold_left f l x) (x :: l).
Proof.
  intros Hf l. induction l as [|y ys IH]; intro x; cbn [fold_left].
  - left. reflexivity.
  - destruct (IH (f x y)) as [E|Hin].
    + rewrite <- E.
      destruct (Hf x y) as [E'|E']; rewrite E'.
      * left. reflexivity.
      * right. left. reflexivity.
    + right. right. exact Hin.
Qed.

(** A turn of the backfill loop that does not throw places its cut ahead of
    an available beat that is not too close to a cut selected before; the
    branch of the synthetic cut at [idealTime] is never taken. *)
Lemma backfillStep_ok startTime activeDuration cutsNeeded minCutInterval
      availableBeats selectedCuts selectedCuts' :
  backfillStep uuid startTime activeDuration cutsNeeded minCutInterval
               availableBeats selectedCuts = Ok selectedCuts' ->
  exists beat,
    In beat availableBeats /\
    tooCloseTo minCutInterval selectedCuts (BeatMarker.time beat) = false /\
    selectedCuts' =
      selectedCuts ++
        [newCut uuid (List.length selectedCuts)
                (leadTime startTime (BeatMarker.time beat) (1#50))].
Proof.
  unfold backfillStep, reduce1.
  destruct (filter _ availableBeats) as [|b bs] eqn:Ef; [discriminate|].
  cbn [bind truthy]. intro H. injection H as <-.
  match goal with |- context [fold_left ?f bs b] =>
    pose proof (fold_left_pick f) as Hpick;
    set (nearest := fold_left f bs b) in *
  end.
  assert (Hin : In nearest (b :: bs)).
  { apply Hpick. intros x y. cbv zeta.
    destruct (Num.ltb _ _); [right | left]; reflexivity. }
  rewrite <- Ef in Hin. apply filter_In in Hin. destruct Hin as [Hin Hfar].
  exists nearest. split; [exact Hin|]. split; [|reflexivity].
  apply negb_true_iff in Hfar. exact Hfar.
Qed.

Lemma backfillStep_throws startTime activeDuration cutsNeeded minCutInterval
      availableBeats selectedCuts :
  filter (fun beat =>
            negb (tooCloseTo minCutInterval selectedCuts (BeatMarker.time beat)))
         availableBeats = [] ->
  backfillStep uuid startTime activeDuration cutsNeeded minCutInterval
               availableBeats selectedCuts
  = Throw TypeError_reduceOfEmptyArray.
Proof. intro E. unfold backfillStep. rewrite E. reflexivity. Qed.

(** What holds of the cuts selected so far and is kept by every turn that
    does not throw holds when the backfill loop returns. *)
Lemma backfill_invariant (P : list CutMarker.t -> Prop)
      startTime activeDuration cutsNeeded minCutInterval availableBeats :
  (forall selectedCuts beat,
      P selectedCuts ->
      In beat availableBeats ->
      tooCloseTo minCutInterval selectedCuts (BeatMarker.time beat) = false ->
      P (selectedCuts ++
           [newCut uuid (List.length selectedCuts)
                   (leadTime startTime (BeatMarker.time beat) (1#50))])) ->
  forall missing selectedCuts selectedCuts',
    P selectedCuts ->
    backfill uuid missing startTime activeDuration cutsNeeded minCutInterval
             availableBeats selectedCuts = Ok selectedCuts' ->
    P selectedCuts'.
Proof.
  intros Hstep missing.
  induction missing as [|n IH]; intros sel sel' HP H; cbn [backfill] in H.
  - injection H as <-. exact HP.
  - destruct (backfillStep uuid startTime activeDuration cutsNeeded
                           minCutInterval availableBeats sel) as [sel1|e] eqn:E;
      cbn [bind] in H; [|discriminate].
    apply backfillStep_ok in E. destruct E as [beat [Hin [Hfar ->]]].
    eapply IH; [|exact H]. apply Hstep; assumption.
Qed.

Lemma backfill_length startTime activeDuration cutsNeeded minCutInterval
      availableBeats :
  forall missing selectedCuts selectedCuts',
    backfill uuid missing startTime activeDuration cutsNeeded minCutInterval
             availableBeats selectedCuts = Ok selectedCuts' ->
    List.length selectedCuts' = (List.length selectedCuts + missing)%nat.
Proof.
  induction missing as [|n IH]; intros sel sel' H; cbn [backfill] in H.
  - injection H as <-. lia.
  - destruct (backfillStep uuid startTime activeDuration cutsNeeded
                           minCutInterval availableBeats sel) as [sel1|e] eqn:E;
      cbn [bind] in H; [|discriminate].
    apply backfillStep_ok in E. destruct E as [beat [_ [_ ->]]].
    apply IH in H. rewrite H, length_app. cbn [List.length]. lia.
Qed.

Lemma addForced_invariant (P : list CutMarker.t -> Prop) cutsNeeded :
  forall forcedCuts selectedCuts,
    (forall selectedCuts forced,
        P selectedCuts ->
        In forced forcedCuts ->
        short selectedCuts cutsNeeded = true ->
        P (selectedCuts ++
             [newCut uuid (List.length selectedCuts) (Candidate.time forced)])) ->
    P selectedCuts ->
    P (addForced uuid cutsNeeded forcedCuts selectedCuts).
Proof.
  unfold addForced.
  induction forcedCuts as [|c cs IH]; intros sel Hstep HP; cbn [fold_left].
  - exact HP.
  - apply IH.
    + intros s f Hs Hf. apply Hstep; [exact Hs | right; exact Hf].
    + destruct (short sel cutsNeeded) eqn:E; [|exact HP].
      apply Hstep; [exact HP | left; reflexivity | exact E].
Qed.

Lemma addByPriority_invariant (P : list CutMarker.t -> Prop)
      cutsNeeded minCutInterval :
  forall candidates selectedCuts,
    (forall selectedCuts candidate,
        P selectedCuts ->
        In candidate candidates ->
        short selectedCuts cutsNeeded = true ->
        isDropReason (Candidate.reason candidate) = false ->
        tooCloseTo minCutInterval selectedCuts (Candidate.time candidate)
        = false ->
        P (selectedCuts ++
             [newCut uuid (List.length selectedCuts)
                     (Candidate.time candidate)])) ->
    P selectedCuts ->
    P (addByPriority uuid cutsNeeded minCutInterval candidates selectedCuts).
Proof.
  induction candidates as [|c cs IH]; intros sel Hstep HP;
    cbn [addByPriority].
  - exact HP.
  - assert (Hstep' : forall s f, P s -> In f cs ->
              short s cutsNeeded = true ->
              isDropReason (Candidate.reason f) = false ->
              tooCloseTo minCutInterval s (Candidate.time f) = false ->
              P (s ++ [newCut uuid (List.length s) (Candidate.time f)])).
    { intros s f Hs Hf. apply Hstep; [exact Hs | right; exact Hf]. }
    destruct (short sel cutsNeeded) eqn:Es; cbn [negb]; [|exact HP].
    destruct (isDropReason (Candidate.reason c)) eqn:Ed; [apply IH; assumption|].
    destruct (tooCloseTo minCutInterval sel (Candidate.time c)) eqn:Et;
      cbn [negb]; [apply IH; assumption|].
    apply IH; [exact Hstep'|].
    apply Hstep; [exact HP | left; reflexivity | assumption..].
Qed.

End EngineFacts.

(** ** The paths through generateRandomCuts *)

Section Paths.

Variable uuid : nat -> string.

(** The ways a call returns: it declines, it falls back on equidistant
    cuts, or the backfill loop returns and its cuts are sorted and
    rebalanced. *)
Lemma generateRandomCuts_ok_inv (o : RandomCutOptions) (cuts : list CutMarker.t) :
  generateRandomCuts uuid o = Ok cuts ->
  (declines o /\ cuts = []) \/
  ((2 <= planCount o)%Z /\
   inject_Z (planCount o - 1) * minCutInterval o <= endTime o - startTime o /\
   ((availableBeatsOf o = [] /\
     cuts = generateEquidistantCuts uuid (startTime o) (endTime o)
                                    (planCount o - 1)) \/
    (availableBeatsOf o <> [] /\
     exists selectedCuts,
       backfill uuid
                (Z.to_nat (planCount o - 1
                           - Z.of_nat (List.length (selectCuts uuid o))))
                (startTime o) (endTime o - startTime o) (planCount o - 1)
                (minCutInterval o) (availableBeatsOf o) (selectCuts uuid o)
       = Ok selectedCuts /\
       cuts = rebalance (endTime o) (arraySort byTime selectedCuts)))).
Proof.
  unfold generateRandomCuts.
  destruct (planCount o <? 2)%Z eqn:Ep.
  { intro H. injection H as <-. left. split; [|reflexivity].
    left. apply Z.ltb_lt, Ep. }
  apply Z.ltb_ge in Ep.
  destruct (Num.ltb (endTime o - startTime o) _) eqn:Ed.
  { intro H. injection H as <-. left. split; [|reflexivity].
    right. split; [exact Ep|]. apply ltb_lt, Ed. }
  apply ltb_ge in Ed.
  intro H. right. split; [exact Ep|]. split; [exact Ed|].
  destruct (availableBeatsOf o) as [|b bs] eqn:Ea.
  { cbn in H. injection H as <-. left. split; reflexivity. }
  cbn [List.length Nat.eqb] in H. right. split; [discriminate|].
  match type of H with
  | bind ?r _ = _ => destruct r as [sel|e] eqn:Eb
  end; cbn [bind] in H; [|discriminate].
  injection H as <-. exists sel. split; [reflexivity|].
  rewrite optimizeCutDurations_rebalance.
  rewrite sortByTime_fixed by apply sortByTime_ascending. reflexivity.
Qed.

Lemma generateEquidistantCuts_length startTime endTime count :
  List.length (generateEquidistantCuts uuid startTime endTime count)
  = Z.to_nat count.
Proof. unfold generateEquidistantCuts. now rewrite length_map, length_seq. Qed.

(** No loop selects more than [cutsNeeded] cuts. *)
Lemma selectCuts_length (o : RandomCutOptions) :
  (2 <= planCount o)%Z ->
  (Z.of_nat (List.length (selectCuts uuid o)) <= planCount o - 1)%Z.
Proof.
  intro Hp. unfold selectCuts.
  apply addByPriority_invariant.
  - intros sel c Hle _ Hs _ _. unfold short in Hs. apply Z.ltb_lt in Hs.
    rewrite length_app. cbn [List.length]. lia.
  - apply addForced_invariant.
    + intros sel c Hle _ Hs. unfold short in Hs. apply Z.ltb_lt in Hs.
      rewrite length_app. cbn [List.length]. lia.
    + cbn. lia.
Qed.

(** A call that returns without declining returns [planCount - 1] cuts. *)
Lemma generateRandomCuts_returns_count (o : RandomCutOptions)
      (cuts : list CutMarker.t) :
  generateRandomCuts uuid o = Ok cuts ->
  ~ declines o ->
  Z.of_nat (List.length cuts) = (planCount o - 1)%Z.
Proof.
  intros H Hnd.
  apply generateRandomCuts_ok_inv in H.
  destruct H as [[Hd _]|[Hp [_ [[_ ->]|[_ [sel [Hb ->]]]]]]]; [contradiction| |].
  - rewrite generateEquidistantCuts_length. lia.
  - rewrite rebalance_length, arraySort_length.
    apply backfill_length in Hb. rewrite Hb.
    pose proof (selectCuts_length o Hp). lia.
Qed.

(** The two engines differ at the duration guard only: where the guard
    decided on doubles and the guard decided on the rationals agree, so do
    the calls. *)
Lemma onDoubles_agrees (o : RandomCutOptions) :
  tooShortOnDoubles o
  = Num.ltb (endTime o - startTime o)
            (inject_Z (planCount o - 1) * minCutInterval o) ->
  generateRandomCutsOnDoubles uuid o = generateRandomCuts uuid o.
Proof.
  intro H. unfold generateRandomCutsOnDoubles, generateRandomCuts.
  rewrite H. reflexivity.
Qed.

(** On doubles, the two guards return the empty list. *)
Lemma onDoubles_declines (o : RandomCutOptions) :
  declinesOnDoubles o -> generateRandomCutsOnDoubles uuid o = Ok [].
Proof.
  unfold generateRandomCutsOnDoubles. intros [Hlt|[Hge Hshort]].
  - apply Z.ltb_lt in Hlt. rewrite Hlt. reflexivity.
  - destruct (planCount o <? 2)%Z; [reflexivity|].
    rewrite Hshort. reflexivity.
Qed.

(** On doubles, a call that gets past both guards and returns, returns
    [planCount - 1] cuts, one at least. *)
Lemma onDoubles_count (o : RandomCutOptions) (cuts : list CutMarker.t) :
  generateRandomCutsOnDoubles uuid o = Ok cuts ->
  ~ declinesOnDoubles o ->
  (2 <= planCount o)%Z /\
  Z.of_nat (List.length cuts) = (planCount o - 1)%Z.
Proof.
  unfold generateRandomCutsOnDoubles, declinesOnDoubles. intros H Hnd.
  destruct (Z.ltb_spec (planCount o) 2) as [Hlt|Hp];
    [exfalso; apply Hnd; left; exact Hlt|].
  split; [exact Hp|].
  destruct (tooShortOnDoubles o) eqn:Ed;
    [exfalso; apply Hnd; right; split; [exact Hp | reflexivity]|].
  destruct (availableBeatsOf o) as [|b bs] eqn:Ea.
  { cbn in H. injection H as <-. rewrite generateEquidistantCuts_length. lia. }
  cbn [List.length Nat.eqb] in H.
  match type of H with
  | bind ?r _ = _ => destruct r as [sel|e] eqn:Eb
  end; cbn [bind] in H; [|discriminate].
  injection H as <-.
  rewrite optimizeCutDurations_rebalance, rebalance_length, !arraySort_length.
  apply backfill_length in Eb. rewrite Eb.
  pose proof (selectCuts_length o Hp). lia.
Qed.

(** C8, as the code has it.  [generateRandomCuts] returns the empty list
    at its two guards and in no other case: when [planCount < 2], and when
    [planCount >= 2] and the guard [activeDuration < cutsNeeded *
    minCutInterval] holds as the code evaluates it, on doubles, the
    difference and the product each rounded to nearest.  Both are signaled
    by the returned value, not by an exception. *)
Theorem generateRandomCuts_empty_on_doubles (o : RandomCutOptions) :
  generateRandomCutsOnDoubles uuid o = Ok [] <-> declinesOnDoubles o.
Proof.
  split.
  - intro H.
    destruct (Z.ltb_spec (planCount o) 2) as [Hlt|Hge]; [left; exact Hlt|].
    destruct (tooShortOnDoubles o) eqn:Ed;
      [right; split; [exact Hge | exact Ed]|].
    exfalso.
    assert (Hnd : ~ declinesOnDoubles o).
    { intros [Hd|[_ Hd]]; [lia | congruence]. }
    destruct (onDoubles_count o [] H Hnd) as [_ Hlen].
    cbn in Hlen. lia.
  - apply onDoubles_declines.
Qed.

End Paths.

Lemma driftBeats_ascending : ascendingBeats driftBeats.
Proof.
  unfold ascendingBeats, driftBeats.
  repeat (constructor; [|repeat constructor; cbn; lra]). constructor.
Qed.

(** C1, on [loneBeat]: start 0 before end 10, a single weak beat at 5s, three
    plans.  The first backfill turn places a cut at 4.98s ahead of that
    beat; on the second turn the only beat lies 20ms from that cut, the
    filtered array is empty and [reduce] throws: the call raises a
    [TypeError] where the branch of the synthetic cut at [idealTime] was
    meant to take over. *)
Theorem generateRandomCuts_throws_on_loneBeat :
  startTime loneBeat < endTime loneBeat /\
  ascendingBeats (beatMarkers loneBeat) /\
  forall uuid,
    generateRandomCuts uuid loneBeat = Throw TypeError_reduceOfEmptyArray.
Proof.
  split; [reflexivity|]. split.
  - repeat constructor.
  - intro uuid. vm_compute. reflexivity.
Qed.

(** C2, on [twoStrong]: six plans over ten seconds, so that five cuts are
    due and the duration 10 is at least 5 * 0.8; the drop at 5s and the
    strong beat at 1s give two cuts, the backfill loop finds every beat too
    close to them and throws: no list of five cuts is returned. *)
Theorem generateRandomCuts_no_count_on_twoStrong :
  (2 <= planCount twoStrong)%Z /\
  inject_Z (planCount twoStrong - 1) * minCutInterval twoStrong
  <= endTime twoStrong - startTime twoStrong /\
  ascendingBeats (beatMarkers twoStrong) /\
  forall uuid,
    generateRandomCuts uuid twoStrong = Throw TypeError_reduceOfEmptyArray /\
    ~ exists cuts,
        generateRandomCuts uuid twoStrong = Ok cuts /\
        Z.of_nat (List.length cuts) = (planCount twoStrong - 1)%Z.
Proof.
  split; [cbn; lia|]. split; [vm_compute; discriminate|]. split.
  - repeat (constructor; [|repeat constructor; cbn; lra]). constructor.
  - intro uuid.
    assert (E : generateRandomCuts uuid twoStrong
                = Throw TypeError_reduceOfEmptyArray)
      by (vm_compute; reflexivity).
    split; [exact E|]. intros [cuts [H _]]. congruence.
Qed.

(** ** Relations holding between every two entries of a list *)

Section Pairwise.

Context {A : Type}.

Lemma pairwise_app (R : A -> A -> Prop) (l1 l2 : list A) :
  StronglySorted R l1 -> StronglySorted R l2 ->
  (forall a b, In a l1 -> In b l2 -> R a b) ->
  StronglySorted R (l1 ++ l2).
Proof.
  intros H1 H2 H12. induction H1 as [|x xs Hs IH Hall]; [exact H2|].
  cbn [app]. constructor.
  - apply IH. intros a b Ha. apply H12. right. exact Ha.
  - apply Forall_app. split; [exact Hall|].
    apply Forall_forall. intros b Hb. apply H12; [left; reflexivity | exact Hb].
Qed.

Lemma pairwise_snoc (R : A -> A -> Prop) (l : list A) (x : A) :
  StronglySorted R l -> Forall (fun a => R a x) l ->
  StronglySorted R (l ++ [x]).
Proof.
  intros Hl Hx. apply pairwise_app; [exact Hl | repeat constructor |].
  intros a b Ha [<-|[]]. rewrite Forall_forall in Hx. apply Hx, Ha.
Qed.

Lemma pairwise_impl_in (R R' : A -> A -> Prop) (l : list A) :
  (forall a b, In a l -> In b l -> R a b -> R' a b) ->
  StronglySorted R l -> StronglySorted R' l.
Proof.
  intros Himp H. induction H as [|x xs Hs IH Hall]; constructor.
  - apply IH. intros a b Ha Hb. apply Himp; right; assumption.
  - rewrite Forall_forall in *. intros b Hb.
    apply Himp; [left; reflexivity | right; exact Hb | apply Hall, Hb].
Qed.

Lemma pairwise_impl (R R' : A -> A -> Prop) (l : list A) :
  (forall a b, R a b -> R' a b) ->
  StronglySorted R l -> StronglySorted R' l.
Proof. intro H. apply pairwise_impl_in. intros a b _ _. apply H. Qed.

Lemma pairwise_and (R R' : A -> A -> Prop) (l : list A) :
  StronglySorted R l -> StronglySorted R' l ->
  StronglySorted (fun a b => R a b /\ R' a b) l.
Proof.
  intros H H'. induction H as [|x xs Hs IH Hall]; constructor;
    inversion H' as [|? ? Hs' Hall']; subst.
  - apply IH, Hs'.
  - rewrite Forall_forall in *. intros b Hb. split; [apply Hall | apply Hall']; exact Hb.
Qed.

Lemma pairwise_firstn (R : A -> A -> Prop) (n : nat) (l : list A) :
  StronglySorted R l -> StronglySorted R (firstn n l).
Proof.
  intro H. revert n. induction H as [|x xs Hs IH Hall]; intros [|n];
    cbn [firstn]; try constructor.
  - apply IH.
  - rewrite Forall_forall in *. intros b Hb. apply Hall.
    rewrite <- (firstn_skipn n xs). apply in_or_app. left. exact Hb.
Qed.

Lemma pairwise_filter (R : A -> A -> Prop) (p : A -> bool) (l : list A) :
  StronglySorted R l -> StronglySorted R (filter p l).
Proof.
  induction 1 as [|x xs Hs IH Hall]; cbn [filter]; [constructor|].
  destruct (p x); [|exact IH]. constructor; [exact IH|].
  rewrite Forall_forall in *. intros b Hb. apply filter_In in Hb.
  apply Hall, Hb.
Qed.

Lemma pairwise_perm (R : A -> A -> Prop) (l l' : list A) :
  (forall a b, R a b -> R b a) ->
  Permutation l l' -> StronglySorted R l -> StronglySorted R l'.
Proof.
  intros Hsym Hp. induction Hp as [|x l l' Hp IH|x y l|l l' l'' _ IH1 _ IH2];
    intro H.
  - exact H.
  - inversion H as [|? ? Hs Hall]; subst. constructor; [apply IH, Hs|].
    eapply Permutation_Forall; eassumption.
  - inversion H as [|? ? Hs Hall]; subst.
    inversion Hs as [|? ? Hs' Hall']; subst.
    inversion Hall as [|? ? Hyx Hyl]; subst.
    constructor; [constructor; assumption|].
    constructor; [apply Hsym, Hyx | exact Hall'].
  - apply IH2, IH1, H.
Qed.

Lemma pairwise_map {B : Type} (R : A -> A -> Prop) (f : B -> A) (l : list B) :
  StronglySorted R (map f l) <->
  StronglySorted (fun a b => R (f a) (f b)) l.
Proof.
  induction l as [|x xs IH]; cbn [map].
  - split; constructor.
  - split; intro H; inversion H as [|? ? Hs Hall]; subst;
      (constructor; [apply IH, Hs|]).
    + rewrite Forall_forall in *. intros b Hb. apply Hall, in_map, Hb.
    + rewrite Forall_forall in *. intros b Hb. apply in_map_iff in Hb.
      destruct Hb as [c [<- Hc]]. apply Hall, Hc.
Qed.

Lemma pairwise_map_seq (R : A -> A -> Prop) (f : nat -> A) (n : nat) :
  (forall i j, (i < j < n)%nat -> R (f i) (f j)) ->
  StronglySorted R (map f (seq 0 n)).
Proof.
  intro H. apply pairwise_map.
  assert (G : forall a k, (a + k <= n)%nat ->
              StronglySorted (fun i j => R (f i) (f j)) (seq a k)).
  { intros a k. revert a. induction k as [|k IH]; intros a Hle; cbn [seq];
      constructor.
    - apply IH. lia.
    - apply Forall_forall. intros j Hj. apply in_seq in Hj. apply H. lia. }
  apply G. lia.
Qed.

Lemma filter_keeps_all (p : A -> bool) (l : list A) :
  Forall (fun x => p x = true) l -> filter p l = l.
Proof.
  induction 1 as [|x xs Hx _ IH]; cbn [filter]; [reflexivity|].
  now rewrite Hx, IH.
Qed.

Lemma filter_keeps_none (p : A -> bool) (l : list A) :
  Forall (fun x => p x = false) l -> filter p l = [].
Proof.
  induction 1 as [|x xs Hx _ IH]; cbn [filter]; [reflexivity|].
  now rewrite Hx, IH.
Qed.

Lemma filter_perm (p : A -> bool) (l l' : list A) :
  Permutation l l' -> Permutation (filter p l) (filter p l').
Proof.
  induction 1 as [|x l l' _ IH|x y l|l l' l'' _ IH1 _ IH2]; cbn [filter].
  - constructor.
  - destruct (p x); [apply perm_skip|]; exact IH.
  - destruct (p x), (p y); try apply Permutation_refl. apply perm_swap.
  - eapply perm_trans; eassumption.
Qed.

(** A loop that, at each turn, leaves the array alone or pushes one entry
    satisfying [P]. *)
Lemma fold_pushes {X : Type} (P : A -> Prop)
      (step : list A -> X -> list A) (xs : list X) :
  (forall acc x, In x xs ->
                 step acc x = acc \/ exists c, P c /\ step acc x = acc ++ [c]) ->
  forall acc, exists extra,
      fold_left step xs acc = acc ++ extra /\ Forall P extra.
Proof.
  induction xs as [|x xs IH]; intros Hstep acc; cbn [fold_left].
  - exists []. rewrite app_nil_r. split; [reflexivity | constructor].
  - assert (Hstep' : forall acc y, In y xs ->
              step acc y = acc \/ exists c, P c /\ step acc y = acc ++ [c]).
    { intros a y Hy. apply Hstep. right. exact Hy. }
    destruct (Hstep acc x (or_introl eq_refl)) as [E|[c [Hc E]]]; rewrite E.
    + apply IH, Hstep'.
    + destruct (IH Hstep' (acc ++ [c])) as [extra [E' Hall]].
      exists (c :: extra). rewrite E', <- app_assoc. split; [reflexivity|].
      constructor; assumption.
Qed.

End Pairwise.

(** ** Distances *)

Lemma apart_sym (gap a b : Q) : apart gap a b -> apart gap b a.
Proof.
  unfold apart, Num.abs. intro H.
  revert H. apply Qabs_case; intros; apply Qabs_case; intros; lra.
Qed.

Lemma apart_weaken (gap gap' a b : Q) :
  gap' <= gap -> apart gap a b -> apart gap' a b.
Proof. unfold apart. intros. lra. Qed.

Lemma apart_separate (gap a b : Q) : 0 < gap -> apart gap a b -> separate a b.
Proof.
  unfold apart, separate, Num.abs. intros Hg H E.
  revert H. apply Qabs_case; intros; lra.
Qed.

Lemma separate_sym (a b : Q) : separate a b -> separate b a.
Proof. unfold separate. intros H E. apply H. symmetry. exact E. Qed.

Lemma apart_ordered (gap a b : Q) : a <= b -> apart gap a b -> a + gap <= b.
Proof.
  unfold apart, Num.abs. intros Hle H.
  revert H. apply Qabs_case; intros; lra.
Qed.

Lemma tooCloseTo_false (minCutInterval : Q) (selectedCuts : list CutMarker.t)
      (t : Q) :
  tooCloseTo minCutInterval selectedCuts t = false ->
  Forall (fun cut => apart minCutInterval (CutMarker.time cut) t) selectedCuts.
Proof.
  unfold tooCloseTo. intro H. apply Forall_forall. intros cut Hin.
  destruct (Num.ltb (Num.abs (CutMarker.time cut - t)) minCutInterval) eqn:E.
  - exfalso. assert (Hex : existsb
        (fun cut => Num.ltb (Num.abs (CutMarker.time cut - t)) minCutInterval)
        selectedCuts = true).
    { apply existsb_exists. exists cut. split; assumption. }
    congruence.
  - apply ltb_ge in E. exact E.
Qed.

(** The lead time of a cut keeps it within the region of the beat. *)
Lemma leadTime_within (startTime endTime beatTime lead : Q) :
  startTime + (1#20) < endTime -> beatTime < endTime -> 0 <= lead ->
  startTime + (1#20) <= leadTime startTime beatTime lead /\
  leadTime startTime beatTime lead < endTime.
Proof.
  intros Hr Hb Hl. unfold leadTime.
  destruct (max_cases (startTime + (1#20)) (beatTime - lead)) as [[H ->]|[H ->]];
    lra.
Qed.

(** ** The beats of the active region *)

Lemma inside_iff (startTime endTime t : Q) :
  inside startTime endTime t = true <-> startTime < t /\ t < endTime.
Proof. unfold inside. now rewrite andb_true_iff, !ltb_lt. Qed.

Lemma availableBeats_inside (o : RandomCutOptions) (beat : BeatMarker.t) :
  In beat (availableBeatsOf o) ->
  startTime o < BeatMarker.time beat /\ BeatMarker.time beat < endTime o.
Proof.
  unfold availableBeatsOf. intro H. apply filter_In in H.
  destruct H as [_ H]. apply (inside_iff (startTime o) (endTime o)), H.
Qed.

Lemma availableBeats_ascending (o : RandomCutOptions) :
  ascendingBeats (beatMarkers o) -> ascendingBeats (availableBeatsOf o).
Proof. apply pairwise_filter. Qed.

(** ** detectDrops *)

Lemma dropsFrom_beat (previousBeat : BeatMarker.t) (rest : list BeatMarker.t)
      (d : DropMarker.t) :
  In d (dropsFrom previousBeat rest) ->
  exists beat, In beat rest /\ DropMarker.time d = BeatMarker.time beat.
Proof.
  revert previousBeat. induction rest as [|cur rest IH]; intros prev H;
    cbn [dropsFrom] in H; [contradiction|].
  cbv zeta in H.
  destruct (_ && _) in H.
  - destruct H as [<-|H].
    + exists cur. split; [left; reflexivity | reflexivity].
    + destruct (IH _ H) as [b [Hb E]]. exists b. split; [right|]; assumption.
  - destruct (IH _ H) as [b [Hb E]]. exists b. split; [right|]; assumption.
Qed.

(** Every drop is one of the beats it is detected among. *)
Lemma detectDrops_beat (beats : list BeatMarker.t) (d : DropMarker.t) :
  In d (detectDrops beats) ->
  exists beat, In beat beats /\ DropMarker.time d = BeatMarker.time beat.
Proof.
  unfold detectDrops.
  destruct (filter _ beats) as [|first rest] eqn:E; [contradiction|].
  intro H. apply dropsFrom_beat in H. destruct H as [b [Hb Ed]].
  exists b. split; [|exact Ed].
  assert (Hin : In b (first :: rest)) by (right; exact Hb).
  rewrite <- E in Hin. apply filter_In in Hin. apply Hin.
Qed.

Lemma dropsFrom_spaced (previousBeat : BeatMarker.t) (rest : list BeatMarker.t) :
  ascendingBeats (previousBeat :: rest) ->
  Forall (fun d => BeatMarker.time previousBeat + (6#5) <= DropMarker.time d)
         (dropsFrom previousBeat rest) /\
  StronglySorted (fun a b => DropMarker.time a + (6#5) <= DropMarker.time b)
                 (dropsFrom previousBeat rest).
Proof.
  revert previousBeat. induction rest as [|cur rest IH]; intros prev Hasc;
    cbn [dropsFrom].
  - split; constructor.
  - inversion Hasc as [|? ? Hs Hall]; subst.
    inversion Hall as [|? ? Hpc _]; subst.
    destruct (IH cur Hs) as [Hfar Hsp].
    assert (Hfar' : Forall (fun d => BeatMarker.time prev + (6#5)
                                     <= DropMarker.time d)
                           (dropsFrom cur rest)).
    { eapply Forall_impl; [|exact Hfar]. cbv beta. intros d Hd. lra. }
    cbv zeta.
    destruct (Num.geb _ _ && _) eqn:E.
    + apply andb_true_iff in E. destruct E as [E _]. apply geb_ge in E.
      split; constructor; cbn [DropMarker.time]; try assumption. lra.
    + split; assumption.
Qed.

(** Among beats in ascending order, any two drops are at least 1.2s apart. *)
Lemma detectDrops_spaced (beats : list BeatMarker.t) :
  ascendingBeats beats ->
  StronglySorted (fun a b => DropMarker.time a + (6#5) <= DropMarker.time b)
                 (detectDrops beats).
Proof.
  intro Hasc. unfold detectDrops.
  pose proof (pairwise_filter _ (fun beat => isStrong (BeatMarker.type beat))
                              beats Hasc) as Hs.
  destruct (filter _ beats) as [|first rest]; [constructor|].
  apply dropsFrom_spaced, Hs.
Qed.

(** Among beats in ascending order that all come after [startTime], every
    drop comes at least 1.2s after [startTime]: it follows a strong beat of
    the list by that much. *)
Lemma detectDrops_late (beats : list BeatMarker.t) (startTime : Q) :
  ascendingBeats beats ->
  Forall (fun beat => startTime < BeatMarker.time beat) beats ->
  Forall (fun d => startTime + (6#5) <= DropMarker.time d) (detectDrops beats).
Proof.
  intros Hasc Hafter. unfold detectDrops.
  pose proof (pairwise_filter _ (fun beat => isStrong (BeatMarker.type beat))
                              beats Hasc) as Hs.
  destruct (filter _ beats) as [|first rest] eqn:E; [constructor|].
  assert (Hfirst : startTime < BeatMarker.time first).
  { rewrite Forall_forall in Hafter. apply Hafter.
    assert (Hin : In first (first :: rest)) by (left; reflexivity).
    rewrite <- E in Hin. apply filter_In in Hin. apply Hin. }
  eapply Forall_impl; [|apply (proj1 (dropsFrom_spaced first rest Hs))].
  cbv beta. intros d Hd. lra.
Qed.

(** ** The candidates *)

Lemma addDrops_eq (startTime endTime : Q) (drops : list DropMarker.t) :
  forall candidates,
    addDrops startTime endTime drops candidates
    = candidates ++
        map (dropCandidate startTime)
            (filter (fun d => inside startTime endTime (DropMarker.time d)) drops).
Proof.
  unfold addDrops.
  induction drops as [|d ds IH]; intro cands; cbn [fold_left filter map].
  - now rewrite app_nil_r.
  - rewrite IH. unfold inside at 2.
    destruct (Num.ltb startTime (DropMarker.time d)
              && Num.ltb (DropMarker.time d) endTime);
      [|reflexivity].
    cbn [map]. now rewrite <- app_assoc.
Qed.

Lemma addMeasureStarts_pushes (startTime : Q) (availableBeats : list BeatMarker.t)
      (measures : list MeasureInfo.t) (candidates : list Candidate.t) :
  exists extra,
    addMeasureStarts startTime availableBeats measures candidates
    = candidates ++ extra /\
    Forall (fromBeat startTime availableBeats) extra.
Proof.
  unfold addMeasureStarts. apply fold_pushes.
  intros acc m _.
  destruct (find _ availableBeats) as [nearestBeat|] eqn:Ef; [|left; reflexivity].
  destruct (negb (covered acc (BeatMarker.time nearestBeat)));
    [right | left; reflexivity].
  eexists. split; [|reflexivity].
  split; [reflexivity|]. exists nearestBeat, (3#100).
  apply find_some in Ef. split; [apply Ef|]. split; [lra | reflexivity].
Qed.

Lemma addMeasureMids_pushes (startTime activeDuration : Q)
      (availableBeats : list BeatMarker.t)
      (measures : list MeasureInfo.t) (candidates : list Candidate.t) :
  exists extra,
    addMeasureMids startTime activeDuration availableBeats measures candidates
    = candidates ++ extra /\
    Forall (fromBeat startTime availableBeats) extra.
Proof.
  unfold addMeasureMids.
  destruct (0 <? List.length measures)%nat.
  - apply fold_pushes.
    intros acc m _. cbv zeta.
    destruct (find _ availableBeats) as [nearestBeat|] eqn:Ef;
      [|left; reflexivity].
    destruct (negb (covered acc (BeatMarker.time nearestBeat)));
      [right | left; reflexivity].
    eexists. split; [|reflexivity].
    split; [reflexivity|]. exists nearestBeat, (3#100).
    apply find_some in Ef. split; [apply Ef|]. split; [lra | reflexivity].
  - exists []. rewrite app_nil_r. split; [reflexivity | constructor].
Qed.

Lemma addStrongBeats_pushes (startTime : Q) (availableBeats : list BeatMarker.t)
      (candidates : list Candidate.t) :
  exists extra,
    addStrongBeats startTime availableBeats candidates = candidates ++ extra /\
    Forall (fromBeat startTime availableBeats) extra.
Proof.
  unfold addStrongBeats. apply fold_pushes.
  intros acc beat Hin.
  destruct (negb (covered acc (BeatMarker.time beat)));
    [right | left; reflexivity].
  eexists. split; [|reflexivity].
  split; [reflexivity|]. exists beat, (1#50).
  apply filter_In in Hin. split; [apply Hin|]. split; [lra | reflexivity].
Qed.

(** The candidates are, in some order, one candidate per drop of the region
    and candidates of other kinds placed ahead of available beats. *)
Lemma buildCandidates_perm (startTime endTime : Q)
      (availableBeats : list BeatMarker.t)
      (measures : list MeasureInfo.t) (drops : list DropMarker.t) :
  exists extra,
    Permutation
      (buildCandidates startTime endTime availableBeats measures drops)
      (map (dropCandidate startTime)
           (filter (fun d => inside startTime endTime (DropMarker.time d)) drops)
       ++ extra) /\
    Forall (fromBeat startTime availableBeats) extra.
Proof.
  unfold buildCandidates. cbv zeta.
  rewrite addDrops_eq. cbn [app].
  set (dc := map (dropCandidate startTime) _).
  destruct (addMeasureStarts_pushes startTime availableBeats measures dc)
    as [e1 [-> H1]].
  destruct (addMeasureMids_pushes startTime (endTime - startTime) availableBeats
                                  measures (dc ++ e1)) as [e2 [-> H2]].
  destruct (addStrongBeats_pushes startTime availableBeats ((dc ++ e1) ++ e2))
    as [e3 [-> H3]].
  exists (e1 ++ e2 ++ e3). split.
  - eapply perm_trans; [apply Permutation_sym, arraySort_perm|].
    rewrite <- !app_assoc. apply Permutation_refl.
  - repeat (apply Forall_app; split); assumption.
Qed.

(** The forced cuts are the candidates of the drops. *)
Lemma forcedCuts_perm (startTime endTime : Q)
      (availableBeats : list BeatMarker.t)
      (measures : list MeasureInfo.t) (drops : list DropMarker.t) :
  Permutation
    (filter (fun c => isDropReason (Candidate.reason c))
            (buildCandidates startTime endTime availableBeats measures drops))
    (map (dropCandidate startTime)
         (filter (fun d => inside startTime endTime (DropMarker.time d)) drops)).
Proof.
  destruct (buildCandidates_perm startTime endTime availableBeats measures drops)
    as [extra [Hp Hex]].
  eapply perm_trans; [apply filter_perm, Hp|].
  rewrite filter_app.
  rewrite (filter_keeps_none _ extra).
  - rewrite app_nil_r, filter_keeps_all; [apply Permutation_refl|].
    apply Forall_forall. intros c Hc. apply in_map_iff in Hc.
    destruct Hc as [d [<- _]]. reflexivity.
  - eapply Forall_impl; [|exact Hex]. intros c [Hc _]. exact Hc.
Qed.

(** Every candidate lies within the region, at least 50ms after its start,
    as soon as the region is longer than 50ms. *)
Lemma buildCandidates_within (o : RandomCutOptions)
      (measures : list MeasureInfo.t) (drops : list DropMarker.t)
      (c : Candidate.t) :
  startTime o + (1#20) < endTime o ->
  In c (buildCandidates (startTime o) (endTime o) (availableBeatsOf o)
                        measures drops) ->
  withinRegion o (Candidate.time c).
Proof.
  intros Hr Hin.
  destruct (buildCandidates_perm (startTime o) (endTime o) (availableBeatsOf o)
                                 measures drops) as [extra [Hp Hex]].
  eapply Permutation_in in Hin; [|exact Hp].
  apply in_app_or in Hin. destruct Hin as [Hin|Hin].
  - apply in_map_iff in Hin. destruct Hin as [d [<- Hd]].
    apply filter_In in Hd. destruct Hd as [_ Hd]. apply inside_iff in Hd.
    apply leadTime_within; lra.
  - rewrite Forall_forall in Hex. destruct (Hex c Hin) as [_ [b [lead [Hb [Hl ->]]]]].
    apply availableBeats_inside in Hb. apply leadTime_within; lra.
Qed.

(** ** Arithmetic of the region *)

Lemma cutsNeeded_positive (planCount : Z) :
  (2 <= planCount)%Z -> 1 <= inject_Z (planCount - 1).
Proof.
  intro H. change 1 with (inject_Z 1). rewrite <- Zle_Qle. lia.
Qed.

(** A region accepted for at least one cut is at least [minCutInterval]
    long. *)
Lemma region_long (o : RandomCutOptions) :
  (2 <= planCount o)%Z ->
  inject_Z (planCount o - 1) * minCutInterval o <= endTime o - startTime o ->
  0 <= minCutInterval o ->
  startTime o + minCutInterval o <= endTime o.
Proof.
  intros Hp Hd Hm. apply cutsNeeded_positive in Hp.
  set (k := inject_Z (planCount o - 1)) in *.
  assert (0 <= (k - 1) * minCutInterval o) by (apply Qmult_le_0_compat; lra).
  lra.
Qed.

Lemma interval_times (duration k : Q) :
  0 < k + 1 -> duration / (k + 1) * (k + 1) == duration.
Proof. intro H. field. lra. Qed.

Lemma ofNat_index (i : nat) (count : Z) :
  (i < Z.to_nat count)%nat ->
  1 <= Num.ofNat i + 1 /\ Num.ofNat i + 1 <= inject_Z count.
Proof.
  intro H. unfold Num.ofNat.
  assert (H0 : inject_Z 0 <= inject_Z (Z.of_nat i)) by (rewrite <- Zle_Qle; lia).
  assert (H1 : inject_Z (Z.of_nat i + 1) <= inject_Z count)
    by (rewrite <- Zle_Qle; lia).
  rewrite inject_Z_plus in H1. change (inject_Z 0) with 0 in H0.
  change (inject_Z 1) with 1 in H1. lra.
Qed.

Lemma ofNat_lt (i j : nat) : (i < j)%nat -> Num.ofNat i + 1 <= Num.ofNat j.
Proof.
  intro H. unfold Num.ofNat.
  assert (H1 : inject_Z (Z.of_nat i + 1) <= inject_Z (Z.of_nat j))
    by (rewrite <- Zle_Qle; lia).
  rewrite inject_Z_plus in H1. change (inject_Z 1) with 1 in H1. lra.
Qed.

(** ** Bounds of the cuts *)

Section Bounds.

Variable uuid : nat -> string.

Lemma generateEquidistantCuts_within (o : RandomCutOptions) :
  (2 <= planCount o)%Z ->
  inject_Z (planCount o - 1) * minCutInterval o <= endTime o - startTime o ->
  (1#10) <= minCutInterval o ->
  Forall (fun cut => withinRegion o (CutMarker.time cut))
         (generateEquidistantCuts uuid (startTime o) (endTime o)
                                  (planCount o - 1)).
Proof.
  intros Hp Hd Hm. unfold generateEquidistantCuts. cbv zeta.
  apply Forall_forall. intros cut Hin. apply in_map_iff in Hin.
  destruct Hin as [i [<- Hi]]. apply in_seq in Hi.
  cbn [CutMarker.time]. unfold withinRegion.
  destruct (ofNat_index i (planCount o - 1)) as [Hx1 Hx2]; [lia|].
  apply cutsNeeded_positive in Hp.
  set (k := inject_Z (planCount o - 1)) in *.
  set (x := Num.ofNat i + 1) in *.
  set (d := endTime o - startTime o) in *.
  pose proof (interval_times d k ltac:(lra)) as Hi'.
  set (iv := d / (k + 1)) in *.
  assert (Hkm : k * (1#10) <= k * minCutInterval o)
    by (apply Qmult_le_l; lra).
  assert (Hiv : (1#20) <= iv).
  { destruct (Qlt_le_dec iv (1#20)) as [Hlt|Hle]; [|exact Hle].
    exfalso.
    assert (iv * (k + 1) < (1#20) * (k + 1)) by (apply Qmult_lt_r; lra).
    lra. }
  assert (Hlo : iv * 1 <= iv * x) by (apply Qmult_le_l; lra).
  assert (Hhi : iv * x <= iv * k) by (apply Qmult_le_l; lra).
  unfold d in *. split; lra.
Qed.

Lemma selectCuts_within (o : RandomCutOptions) :
  startTime o + (1#20) < endTime o ->
  Forall (fun cut => withinRegion o (CutMarker.time cut)) (selectCuts uuid o).
Proof.
  intro Hr. unfold selectCuts. cbv zeta.
  apply addByPriority_invariant.
  - intros sel c Hsel Hc _ _ _. apply Forall_app. split; [exact Hsel|].
    constructor; [|constructor]. rewrite newCut_time.
    eapply buildCandidates_within; eassumption.
  - apply addForced_invariant; [|constructor].
    intros sel c Hsel Hc _. apply Forall_app. split; [exact Hsel|].
    constructor; [|constructor]. rewrite newCut_time.
    apply filter_In in Hc. destruct Hc as [Hc _].
    eapply buildCandidates_within; eassumption.
Qed.

(** The times of the returned cuts are those of the cuts selected. *)
Lemma rebalance_sort_time (endTime : Q) (selectedCuts : list CutMarker.t)
      (cut : CutMarker.t) :
  In cut (rebalance endTime (arraySort byTime selectedCuts)) ->
  exists cut', In cut' selectedCuts /\ CutMarker.time cut = CutMarker.time cut'.
Proof.
  intro H. apply (in_map CutMarker.time) in H.
  rewrite rebalance_times in H. apply in_map_iff in H.
  destruct H as [cut' [E H']]. apply arraySort_In in H'.
  exists cut'. split; [exact H' | symmetry; exact E].
Qed.


(** C4, as the code has it.  When [minCutInterval] is at least 0.1s (the
    default is 0.8s), every cut of a returned list lies at or after
    [startTime + 0.05] and before [endTime]: the cuts placed ahead of a
    beat by their clamped lead time, and those of the equidistant
    fallback. *)
Theorem cuts_within_region (o : RandomCutOptions) (cuts : list CutMarker.t) :
  generateRandomCuts uuid o = Ok cuts ->
  (1#10) <= minCutInterval o ->
  Forall (fun cut => withinRegion o (CutMarker.time cut)) cuts.
Proof.
  intros H Hm. apply generateRandomCuts_ok_inv in H.
  destruct H as [[_ ->]|[Hp [Hd [[_ ->]|[_ [sel [Hb ->]]]]]]].
  - constructor.
  - apply generateEquidistantCuts_within; assumption.
  - pose proof (region_long o Hp Hd ltac:(lra)) as Hr.
    assert (Hr' : startTime o + (1#20) < endTime o) by lra.
    assert (Hsel : Forall (fun cut => withinRegion o (CutMarker.time cut)) sel).
    { eapply backfill_invariant; [|apply (selectCuts_within o Hr')|exact Hb].
      intros s beat Hs Hin _. apply Forall_app. split; [exact Hs|].
      constructor; [|constructor]. rewrite newCut_time.
      apply availableBeats_inside in Hin. apply leadTime_within; lra. }
    apply Forall_forall. intros cut Hin.
    apply rebalance_sort_time in Hin. destruct Hin as [cut' [Hin' ->]].
    rewrite Forall_forall in Hsel. apply Hsel, Hin'.
Qed.

End Bounds.

(** C4, as stated, fails on [tinyRegion]: a region of 80ms with no beat, two
    plans and a minimum interval of 10ms; the equidistant fallback returns
    one cut at 40ms, earlier than [startTime + 0.05]. *)
Lemma equidistant_cut_before_lead :
  0 < endTime tinyRegion - startTime tinyRegion /\
  exists cut,
    generateRandomCuts sampleUuid tinyRegion = Ok [cut] /\
    CutMarker.time cut == 1#25 /\
    ~ withinRegion tinyRegion (CutMarker.time cut).
Proof.
  split; [reflexivity|].
  eexists. split; [vm_compute; reflexivity|].
  split; [reflexivity|].
  unfold withinRegion. intros [H _]. vm_compute in H. apply H. reflexivity.
Qed.

(** ** The forced cuts *)

Section Forced.

Variable uuid : nat -> string.

Lemma addForced_times (cutsNeeded : Z) (forcedCuts : list Candidate.t) :
  forall selectedCuts,
    map CutMarker.time (addForced uuid cutsNeeded forcedCuts selectedCuts)
    = map CutMarker.time selectedCuts ++
        firstn (Z.to_nat cutsNeeded - List.length selectedCuts)
               (map Candidate.time forcedCuts).
Proof.
  unfold addForced.
  induction forcedCuts as [|c cs IH]; intro sel; cbn [fold_left map].
  - now rewrite firstn_nil, app_nil_r.
  - rewrite IH. unfold short.
    destruct (Z.ltb_spec (Z.of_nat (List.length sel)) cutsNeeded) as [Hlt|Hge].
    + rewrite map_app, length_app. cbn [map List.length newCut CutMarker.time].
      replace (Z.to_nat cutsNeeded - List.length sel)%nat
        with (S (Z.to_nat cutsNeeded - (List.length sel + 1)))%nat by lia.
      cbn [firstn]. now rewrite <- app_assoc.
    + replace (Z.to_nat cutsNeeded - List.length sel)%nat with 0%nat by lia.
      reflexivity.
Qed.

Lemma detectDrops_inside (o : RandomCutOptions) :
  Forall (fun d => inside (startTime o) (endTime o) (DropMarker.time d) = true)
         (detectDrops (availableBeatsOf o)).
Proof.
  apply Forall_forall. intros d Hd. apply detectDrops_beat in Hd.
  destruct Hd as [b [Hb ->]]. apply inside_iff, availableBeats_inside, Hb.
Qed.

(** The forced cuts stand, in some order, at the lead times of the drops. *)
Lemma forcedCuts_times (o : RandomCutOptions) (measures : list MeasureInfo.t) :
  Permutation
    (map Candidate.time
         (filter (fun c => isDropReason (Candidate.reason c))
                 (buildCandidates (startTime o) (endTime o) (availableBeatsOf o)
                                  measures (detectDrops (availableBeatsOf o)))))
    (map (dropCutTime o) (detectDrops (availableBeatsOf o))).
Proof.
  eapply perm_trans; [apply Permutation_map, forcedCuts_perm|].
  rewrite filter_keeps_all by apply detectDrops_inside.
  rewrite map_map. apply Permutation_refl.
Qed.

(** The cuts of two drops 1.2s apart that come 1.2s or more after
    [startTime] are not clamped, and so 1.2s apart as well. *)
Lemma drop_leads_apart (startTime ta tb : Q) :
  startTime + (6#5) <= ta -> ta + (6#5) <= tb ->
  apart (6#5) (leadTime startTime ta (1#20)) (leadTime startTime tb (1#20)).
Proof.
  intros Hs Hab. unfold apart, leadTime, Num.abs.
  destruct (max_cases (startTime + (1#20)) (ta - (1#20))) as [[H1 ->]|[H1 ->]];
    destruct (max_cases (startTime + (1#20)) (tb - (1#20))) as [[H2 ->]|[H2 ->]];
    apply Qabs_case; intros; lra.
Qed.

(** Among beats in ascending order, the cuts of any two drops are at least
    1.2s apart. *)
Lemma dropCuts_apart (o : RandomCutOptions) :
  ascendingBeats (beatMarkers o) ->
  pairwiseApart (6#5)
                (map (dropCutTime o) (detectDrops (availableBeatsOf o))).
Proof.
  intro Hasc. unfold pairwiseApart. apply pairwise_map.
  pose proof (detectDrops_spaced _ (availableBeats_ascending o Hasc)) as Hsp.
  eapply pairwise_impl_in; [|exact Hsp].
  intros a b Ha _ Hab. cbv beta in Hab.
  assert (Hlate : Forall (fun d => startTime o + (6#5) <= DropMarker.time d)
                         (detectDrops (availableBeatsOf o))).
  { apply detectDrops_late; [apply availableBeats_ascending, Hasc|].
    apply Forall_forall. intros beat Hb.
    apply (availableBeats_inside o beat Hb). }
  rewrite Forall_forall in Hlate.
  apply drop_leads_apart; [apply Hlate, Ha | exact Hab].
Qed.

(** Any two cuts selected before the backfill loop are at least [gap]
    apart, for a [gap] no longer than [minCutInterval] and 1.2s. *)
Lemma selectCuts_apart (o : RandomCutOptions) (gap : Q) :
  ascendingBeats (beatMarkers o) ->
  gap <= 6#5 -> gap <= minCutInterval o ->
  pairwiseApart gap (map CutMarker.time (selectCuts uuid o)).
Proof.
  intros Hasc Hg Hm. unfold selectCuts. cbv zeta.
  apply addByPriority_invariant.
  - intros sel c Hsel _ _ _ Hfar. rewrite map_app. cbn [map newCut CutMarker.time].
    apply pairwise_snoc; [exact Hsel|].
    apply tooCloseTo_false in Hfar.
    apply Forall_forall. intros t Ht. apply in_map_iff in Ht.
    destruct Ht as [cut [<- Hcut]]. rewrite Forall_forall in Hfar.
    eapply apart_weaken; [exact Hm | apply Hfar, Hcut].
  - rewrite addForced_times. cbn [map app List.length].
    apply pairwise_firstn.
    eapply pairwise_perm;
      [apply apart_sym | apply Permutation_sym, forcedCuts_times |].
    eapply pairwise_impl; [|apply dropCuts_apart, Hasc].
    intros a b. apply apart_weaken, Hg.
Qed.



(** C3, as the code has it.  When the beats are in ascending order,
    [minCutInterval] is at most 1.2s, the region has beats and the drops
    and the selections in priority order fill all [planCount - 1] places
    (no backfill turn runs), every later cut of the returned list lies at
    least [minCutInterval] after every earlier one. *)
Theorem selections_are_spaced (o : RandomCutOptions) (cuts : list CutMarker.t) :
  generateRandomCuts uuid o = Ok cuts ->
  ascendingBeats (beatMarkers o) ->
  minCutInterval o <= 6#5 ->
  availableBeatsOf o <> [] ->
  Z.of_nat (List.length (selectCuts uuid o)) = (planCount o - 1)%Z ->
  spacedBy (minCutInterval o) cuts.
Proof.
  intros H Hasc Hm Hbeats Hfull. apply generateRandomCuts_ok_inv in H.
  destruct H as [[_ ->]|[Hp [_ [[Ea _]|[_ [sel [Hb ->]]]]]]].
  - constructor.
  - contradiction.
  - replace (Z.to_nat _) with 0%nat in Hb by lia.
    cbn [backfill] in Hb. injection Hb as <-.
    pose proof (selectCuts_apart o (minCutInterval o) Hasc Hm (Qle_refl _))
      as Hap.
    unfold spacedBy.
    apply (sorted_by_times (fun a b => a + minCutInterval o <= b)
                           (arraySort byTime (selectCuts uuid o)));
      [symmetry; apply rebalance_times|].
    assert (Hsorted :
              StronglySorted
                (fun a b => apart (minCutInterval o)
                                  (CutMarker.time a) (CutMarker.time b))
                (arraySort byTime (selectCuts uuid o))).
    { apply (proj1 (pairwise_map (apart (minCutInterval o)) CutMarker.time _)).
      eapply pairwise_perm;
        [apply apart_sym
        |apply Permutation_map, (arraySort_perm byTime)
        |exact Hap]. }
    pose proof (pairwise_and _ _ _ (sortByTime_ascending (selectCuts uuid o))
                             Hsorted) as Hboth.
    eapply pairwise_impl; [|exact Hboth].
    cbv beta. intros a b [Hle Hab]. apply apart_ordered; assumption.
Qed.

End Forced.


(** C8, as stated, fails at the boundary of the duration guard, where the
    rounded product decides.  On [boundaryRegion] the region of 2.4s is
    three times the interval 0.8, so that neither declining case holds, but
    the product of 3 and the double 0.8 rounds to 2.4000000000000004 and
    the empty list is returned.  On [roundedRegion] the region of 4s is
    shorter than five times the interval, a double slightly above 4/5, but
    the product rounds to 4 and five cuts are returned. *)
Lemma guard_decided_on_doubles :
  (~ declines boundaryRegion /\
   generateRandomCutsOnDoubles sampleUuid boundaryRegion = Ok []) /\
  (declines roundedRegion /\
   exists cuts,
     generateRandomCutsOnDoubles sampleUuid roundedRegion = Ok cuts /\
     List.length cuts = 5%nat).
Proof.
  split; split.
  - intros [H|[_ H]]; vm_compute in H; discriminate.
  - vm_compute. reflexivity.
  - right. split; [vm_compute; discriminate | vm_compute; reflexivity].
  - eexists. split; [vm_compute; reflexivity | reflexivity].
Qed.

(** C3, as stated, fails on [tightRegion]: no beat, three plans and a region
    of 1.6s, which the guard on the duration accepts for two cuts 0.8s
    apart; the equidistant fallback returns cuts at 0.533s and 1.067s, only
    0.533s apart. *)
Lemma equidistant_cuts_too_close :
  startTime tightRegion < endTime tightRegion /\
  exists c1 c2,
    generateRandomCuts sampleUuid tightRegion = Ok [c1; c2] /\
    CutMarker.time c2 - CutMarker.time c1 == 8#15 /\
    ~ spacedBy (minCutInterval tightRegion) [c1; c2].
Proof.
  split; [reflexivity|].
  eexists. eexists. split; [vm_compute; reflexivity|].
  split; [reflexivity|].
  unfold spacedBy. intro H. inversion H as [|? ? _ Hall]; subst.
  inversion Hall as [|? ? Hgap _]; subst.
  vm_compute in Hgap. apply Hgap. reflexivity.
Qed.

(** The drop cuts are placed whatever [minCutInterval] is: on
    [wideInterval] the drops at 3s and 4.5s give cuts 1.5s apart under a
    minimum interval of 2s. *)
Lemma drop_cuts_ignore_interval :
  exists c1 c2,
    generateRandomCuts sampleUuid wideInterval = Ok [c1; c2] /\
    CutMarker.time c2 - CutMarker.time c1 == 3#2 /\
    ~ spacedBy (minCutInterval wideInterval) [c1; c2].
Proof.
  eexists. eexists. split; [vm_compute; reflexivity|].
  split; [reflexivity|].
  unfold spacedBy. intro H. inversion H as [|? ? _ Hall]; subst.
  inversion Hall as [|? ? Hgap _]; subst.
  vm_compute in Hgap. apply Hgap. reflexivity.
Qed.

(** The bound of 1.2s on [minCutInterval] cannot be raised: on [tightDrops]
    the drops at 3s and 4.2s are 1.2s apart, and so are their cuts, under a
    minimum interval of 1.21s. *)
Lemma drop_cuts_at_the_bound :
  ascendingBeats (beatMarkers tightDrops) /\
  availableBeatsOf tightDrops <> [] /\
  Z.of_nat (List.length (selectCuts sampleUuid tightDrops))
  = (planCount tightDrops - 1)%Z /\
  exists c1 c2,
    generateRandomCuts sampleUuid tightDrops = Ok [c1; c2] /\
    CutMarker.time c2 - CutMarker.time c1 == 6#5 /\
    ~ spacedBy (minCutInterval tightDrops) [c1; c2].
Proof.
  split.
  { unfold ascendingBeats, tightDrops. cbn [beatMarkers].
    repeat (constructor; [|repeat constructor; vm_compute; discriminate]).
    constructor. }
  split; [vm_compute; discriminate|].
  split; [vm_compute; reflexivity|].
  eexists. eexists. split; [vm_compute; reflexivity|].
  split; [reflexivity|].
  unfold spacedBy. intro H. inversion H as [|? ? _ Hall]; subst.
  inversion Hall as [|? ? Hgap _]; subst.
  vm_compute in Hgap. apply Hgap. reflexivity.
Qed.

(** The backfill loop measures the distance to a beat, and places the cut
    20ms ahead of it: on [nearBeats] the beat at 4.18s lies 0.81s from the
    cut at 3.37s, and its own cut at 4.16s only 0.79s. *)
Lemma backfill_cuts_within_interval :
  exists c1 c2,
    generateRandomCuts sampleUuid nearBeats = Ok [c1; c2] /\
    CutMarker.time c2 - CutMarker.time c1 == 79#100 /\
    ~ spacedBy (minCutInterval nearBeats) [c1; c2].
Proof.
  eexists. eexists. split; [vm_compute; reflexivity|].
  split; [reflexivity|].
  unfold spacedBy. intro H. inversion H as [|? ? _ Hall]; subst.
  inversion Hall as [|? ? Hgap _]; subst.
  vm_compute in Hgap. apply Hgap. reflexivity.
Qed.

(** ** The order of the returned cuts *)

Section Order.

Variable uuid : nat -> string.

Lemma generateEquidistantCuts_strict (startTime endTime : Q) (planCount : Z) :
  (2 <= planCount)%Z -> startTime < endTime ->
  strictlyAscending
    (generateEquidistantCuts uuid startTime endTime (planCount - 1)).
Proof.
  intros Hp Hr. unfold strictlyAscending, generateEquidistantCuts. cbv zeta.
  apply (pairwise_map_seq
           (fun a b : CutMarker.t => CutMarker.time a < CutMarker.time b)).
  intros i j Hij. cbn [CutMarker.time].
  apply cutsNeeded_positive in Hp.
  set (k := inject_Z (planCount - 1)) in *.
  set (d := endTime - startTime) in *.
  pose proof (interval_times d k ltac:(lra)) as Hi.
  set (iv := d / (k + 1)) in *.
  assert (Hiv : 0 < iv).
  { destruct (Qlt_le_dec 0 iv) as [Hlt|Hle]; [exact Hlt|].
    exfalso.
    assert (iv * (k + 1) <= 0 * (k + 1)) by (apply Qmult_le_compat_r; lra).
    unfold d in *. lra. }
  pose proof (ofNat_lt i j ltac:(lia)) as Hij'.
  assert (iv * (Num.ofNat i + 1) < iv * (Num.ofNat j + 1))
    by (apply Qmult_lt_l; lra).
  lra.
Qed.

(** A cut placed 20ms ahead of a beat differs from every cut that lies at
    least 50ms from that beat. *)
Lemma lead_separate (startTime minCutInterval tc tb : Q) :
  startTime < tb -> (1#20) <= minCutInterval ->
  apart minCutInterval tc tb ->
  separate tc (leadTime startTime tb (1#50)).
Proof.
  unfold apart, separate, leadTime, Num.abs. intros Hs Hm Hap E.
  revert Hap.
  destruct (max_cases (startTime + (1#20)) (tb - (1#50))) as [[H R]|[H R]];
    rewrite R in E; apply Qabs_case; intros; lra.
Qed.

Lemma backfill_separate (o : RandomCutOptions) (missing : nat)
      (selectedCuts selectedCuts' : list CutMarker.t) :
  (1#20) <= minCutInterval o ->
  StronglySorted separate (map CutMarker.time selectedCuts) ->
  backfill uuid missing (startTime o) (endTime o - startTime o)
           (planCount o - 1) (minCutInterval o) (availableBeatsOf o)
           selectedCuts = Ok selectedCuts' ->
  StronglySorted separate (map CutMarker.time selectedCuts').
Proof.
  intros Hm Hsel Hb.
  eapply (backfill_invariant uuid
            (fun s => StronglySorted separate (map CutMarker.time s)));
    [|exact Hsel|exact Hb].
  intros s beat Hs Hin Hfar. rewrite map_app. cbn [map newCut CutMarker.time].
  apply pairwise_snoc; [exact Hs|].
  apply tooCloseTo_false in Hfar. apply availableBeats_inside in Hin.
  apply Forall_forall. intros t Ht. apply in_map_iff in Ht.
  destruct Ht as [cut [<- Hcut]]. rewrite Forall_forall in Hfar.
  eapply lead_separate; [apply Hin | exact Hm | apply Hfar, Hcut].
Qed.

Lemma ascending_separate_strict (l : list CutMarker.t) :
  ascending l -> StronglySorted separate (map CutMarker.time l) ->
  strictlyAscending l.
Proof.
  intros Hasc Hsep.
  apply (proj1 (pairwise_map separate CutMarker.time l)) in Hsep.
  pose proof (pairwise_and _ _ _ Hasc Hsep) as Hboth.
  eapply pairwise_impl; [|exact Hboth].
  cbv beta. unfold separate. intros a b [Hle Hne].
  destruct (Qlt_le_dec (CutMarker.time a) (CutMarker.time b)) as [Hlt|Hge];
    [exact Hlt|].
  exfalso. apply Hne. lra.
Qed.

(** C6, as the code has it.  For a region with [startTime < endTime], a
    returned list is in ascending order of time, two cuts possibly at the
    same time; the order is strict when the beats are in ascending order
    and [minCutInterval] is at least 0.05s (the default is 0.8s). *)
Theorem cuts_ascending (o : RandomCutOptions) (cuts : list CutMarker.t) :
  generateRandomCuts uuid o = Ok cuts ->
  startTime o < endTime o ->
  ascending cuts /\
  (ascendingBeats (beatMarkers o) -> (1#20) <= minCutInterval o ->
   strictlyAscending cuts).
Proof.
  intros H Hr. apply generateRandomCuts_ok_inv in H.
  destruct H as [[_ ->]|[Hp [_ [[_ ->]|[_ [sel [Hb ->]]]]]]].
  - split; [constructor | intros; constructor].
  - pose proof (generateEquidistantCuts_strict (startTime o) (endTime o)
                                               (planCount o) Hp Hr) as Hs.
    split; [|intros; exact Hs].
    eapply pairwise_impl; [|exact Hs]. cbv beta. intros a b Hab. lra.
  - assert (Hasc : ascending (rebalance (endTime o) (arraySort byTime sel)))
      by apply rebalance_ascending, sortByTime_ascending.
    split; [exact Hasc|]. intros Hbeats Hm.
    apply ascending_separate_strict; [exact Hasc|].
    rewrite rebalance_times.
    eapply pairwise_perm;
      [apply separate_sym | apply Permutation_map, (arraySort_perm byTime) |].
    eapply backfill_separate; [exact Hm| |exact Hb].
    eapply pairwise_impl;
      [|apply (selectCuts_apart uuid o (1#20) Hbeats); [lra | exact Hm]].
    intros a b. apply apart_separate. lra.
Qed.

End Order.

(** C6, as stated, fails on [looseInterval]: one weak beat at 5s, three plans
    and a minimum interval of 10ms; both backfill turns pick that beat, which
    lies 20ms from the first cut, and the two cuts returned stand at the same
    time 4.98s. *)
Lemma equal_times_on_looseInterval :
  startTime looseInterval < endTime looseInterval /\
  ascendingBeats (beatMarkers looseInterval) /\
  exists c1 c2,
    generateRandomCuts sampleUuid looseInterval = Ok [c1; c2] /\
    CutMarker.time c1 == 249#50 /\
    CutMarker.time c2 == 249#50 /\
    ~ strictlyAscending [c1; c2].
Proof.
  split; [reflexivity|]. split; [repeat constructor|].
  eexists. eexists. split; [vm_compute; reflexivity|].
  split; [reflexivity|]. split; [reflexivity|].
  unfold strictlyAscending. intro H. inversion H as [|? ? _ Hall]; subst.
  inversion Hall as [|? ? Hlt _]; subst.
  vm_compute in Hlt. discriminate.
Qed.

(** ** Instances on the sample track *)

Lemma driftTrack_ascending (planCount : Z) :
  ascendingBeats (beatMarkers (driftTrack planCount)).
Proof. apply driftBeats_ascending. Qed.

Lemma selections_are_spaced_witness :
  minCutInterval (driftTrack 9) <= 6#5 /\
  availableBeatsOf (driftTrack 9) <> [] /\
  spacedBy (minCutInterval (driftTrack 9))
           (returned (generateRandomCuts sampleUuid (driftTrack 9))).
Proof.
  split; [vm_compute; discriminate|]. split; [vm_compute; discriminate|].
  apply (selections_are_spaced sampleUuid (driftTrack 9)).
  - vm_compute. reflexivity.
  - apply driftTrack_ascending.
  - vm_compute. discriminate.
  - vm_compute. discriminate.
  - vm_compute. reflexivity.
Defined.

Lemma cuts_within_region_witness :
  (1#10) <= minCutInterval (driftTrack 6) /\
  Forall (fun cut => withinRegion (driftTrack 6) (CutMarker.time cut))
         (returned (generateRandomCuts sampleUuid (driftTrack 6))).
Proof.
  split; [vm_compute; discriminate|].
  apply (cuts_within_region sampleUuid (driftTrack 6)).
  - vm_compute. reflexivity.
  - vm_compute. discriminate.
Defined.


Lemma cuts_ascending_witness :
  startTime (driftTrack 6) < endTime (driftTrack 6) /\
  ascending (returned (generateRandomCuts sampleUuid (driftTrack 6))) /\
  strictlyAscending (returned (generateRandomCuts sampleUuid (driftTrack 6))).
Proof.
  assert (Hr : startTime (driftTrack 6) < endTime (driftTrack 6))
    by reflexivity.
  split; [exact Hr|].
  destruct (cuts_ascending sampleUuid (driftTrack 6)
              (returned (generateRandomCuts sampleUuid (driftTrack 6))))
    as [Hasc Hstrict].
  - vm_compute. reflexivity.
  - exact Hr.
  - split; [exact Hasc|]. apply Hstrict.
    + apply driftTrack_ascending.
    + vm_compute. discriminate.
Defined.


(** * Further properties of the code *)

(** * Further properties of the engine *)

(** ** Outcomes of generateRandomCuts *)

Section Outcomes.

Variable uuid : nat -> string.

Lemma declinesOnDoubles_dec (o : RandomCutOptions) :
  declinesOnDoubles o \/ ~ declinesOnDoubles o.
Proof.
  unfold declinesOnDoubles.
  destruct (Z.ltb_spec (planCount o) 2) as [Hlt|Hge]; [left; left; exact Hlt|].
  destruct (tooShortOnDoubles o) eqn:Ed.
  - left. right. split; [exact Hge | reflexivity].
  - right. intros [H|[_ H]]; [lia | discriminate].
Qed.

(** X1. A call of [generateRandomCuts], its guards decided as the code
    decides them, on doubles, has one of three outcomes: it throws the
    [TypeError] of [reduce], it declines with the empty list, or it returns
    exactly [planCount - 1] cuts; a shorter list is never returned. *)
Theorem generateRandomCuts_outcomes (o : RandomCutOptions) :
  generateRandomCutsOnDoubles uuid o = Throw TypeError_reduceOfEmptyArray \/
  (declinesOnDoubles o /\ generateRandomCutsOnDoubles uuid o = Ok []) \/
  (~ declinesOnDoubles o /\
   exists cuts,
     generateRandomCutsOnDoubles uuid o = Ok cuts /\
     Z.of_nat (List.length cuts) = (planCount o - 1)%Z).
Proof.
  destruct (generateRandomCutsOnDoubles uuid o) as [cuts|[]] eqn:E;
    [|left; reflexivity].
  right. destruct (declinesOnDoubles_dec o) as [Hd|Hnd].
  - left. split; [exact Hd|]. rewrite <- E. apply onDoubles_declines, Hd.
  - right. split; [exact Hnd|]. exists cuts. split; [reflexivity|].
    apply (onDoubles_count uuid o cuts E Hnd).
Qed.

Lemma filter_nothing_selected (minCutInterval : Q) (beats : list BeatMarker.t) :
  filter (fun beat => negb (tooCloseTo minCutInterval [] (BeatMarker.time beat)))
         beats = beats.
Proof. apply filter_keeps_all, Forall_forall. intros b _. reflexivity. Qed.

(** The first turn of the backfill loop, with no cut selected yet, finds a
    beat as soon as the region has one. *)
Lemma backfillStep_first startTime activeDuration cutsNeeded minCutInterval
      (availableBeats : list BeatMarker.t) :
  availableBeats <> [] ->
  exists selectedCuts,
    backfillStep uuid startTime activeDuration cutsNeeded minCutInterval
                 availableBeats [] = Ok selectedCuts.
Proof.
  intro Hne. unfold backfillStep. rewrite filter_nothing_selected.
  destruct availableBeats as [|b bs]; [contradiction|].
  cbn [reduce1 bind truthy]. eexists. reflexivity.
Qed.

(** X2. With at most two plans, that is at most one cut to place,
    [generateRandomCuts] never throws. *)
Theorem generateRandomCuts_two_plans (o : RandomCutOptions) :
  (planCount o <= 2)%Z ->
  exists cuts, generateRandomCuts uuid o = Ok cuts.
Proof.
  intro Hp. unfold generateRandomCuts.
  destruct (planCount o <? 2)%Z eqn:Ep; [eexists; reflexivity|].
  apply Z.ltb_ge in Ep.
  destruct (Num.ltb _ _); [eexists; reflexivity|].
  destruct (availableBeatsOf o) as [|b bs] eqn:Ea; [eexists; reflexivity|].
  cbn [List.length Nat.eqb].
  pose proof (selectCuts_length uuid o Ep) as Hlen.
  destruct (selectCuts uuid o) as [|c cs] eqn:Es.
  - replace (Z.to_nat _) with 1%nat by (cbn [List.length]; lia).
    cbn [backfill].
    destruct (backfillStep_first (startTime o) (endTime o - startTime o)
                                 (planCount o - 1) (minCutInterval o) (b :: bs))
      as [sel Hsel]; [discriminate|].
    rewrite Hsel. cbn [bind]. eexists. reflexivity.
  - replace (Z.to_nat _) with 0%nat by (cbn [List.length] in *; lia).
    cbn [backfill bind]. eexists. reflexivity.
Qed.

End Outcomes.

(** ** Where the cuts are placed *)

Section Placement.

Variable uuid : nat -> string.

(** A candidate placed 50, 30 or 20ms ahead of a beat of the region. *)
Lemma addMeasureStarts_ahead (o : RandomCutOptions)
      (measures : list MeasureInfo.t) (candidates : list Candidate.t) :
  exists extra,
    addMeasureStarts (startTime o) (availableBeatsOf o) measures candidates
    = candidates ++ extra /\
    Forall (fun c => aheadOfBeat o (Candidate.time c)) extra.
Proof.
  unfold addMeasureStarts. apply fold_pushes.
  intros acc m _.
  destruct (find _ (availableBeatsOf o)) as [nearestBeat|] eqn:Ef;
    [|left; reflexivity].
  destruct (negb (covered acc (BeatMarker.time nearestBeat)));
    [right | left; reflexivity].
  eexists. split; [|reflexivity].
  exists nearestBeat, (3#100). apply find_some in Ef.
  split; [apply Ef|]. split; [right; left; reflexivity | reflexivity].
Qed.

Lemma addMeasureMids_ahead (o : RandomCutOptions) (activeDuration : Q)
      (measures : list MeasureInfo.t) (candidates : list Candidate.t) :
  exists extra,
    addMeasureMids (startTime o) activeDuration (availableBeatsOf o) measures
                   candidates
    = candidates ++ extra /\
    Forall (fun c => aheadOfBeat o (Candidate.time c)) extra.
Proof.
  unfold addMeasureMids.
  destruct (0 <? List.length measures)%nat.
  - apply fold_pushes.
    intros acc m _. cbv zeta.
    destruct (find _ (availableBeatsOf o)) as [nearestBeat|] eqn:Ef;
      [|left; reflexivity].
    destruct (negb (covered acc (BeatMarker.time nearestBeat)));
      [right | left; reflexivity].
    eexists. split; [|reflexivity].
    exists nearestBeat, (3#100). apply find_some in Ef.
    split; [apply Ef|]. split; [right; left; reflexivity | reflexivity].
  - exists []. rewrite app_nil_r. split; [reflexivity | constructor].
Qed.

Lemma addStrongBeats_ahead (o : RandomCutOptions)
      (candidates : list Candidate.t) :
  exists extra,
    addStrongBeats (startTime o) (availableBeatsOf o) candidates
    = candidates ++ extra /\
    Forall (fun c => aheadOfBeat o (Candidate.time c)) extra.
Proof.
  unfold addStrongBeats. apply fold_pushes.
  intros acc beat Hin.
  destruct (negb (covered acc (BeatMarker.time beat)));
    [right | left; reflexivity].
  eexists. split; [|reflexivity].
  exists beat, (1#50). apply filter_In in Hin.
  split; [apply Hin|]. split; [right; right; reflexivity | reflexivity].
Qed.

Lemma buildCandidates_ahead (o : RandomCutOptions)
      (measures : list MeasureInfo.t) (c : Candidate.t) :
  In c (buildCandidates (startTime o) (endTime o) (availableBeatsOf o)
                        measures (detectDrops (availableBeatsOf o))) ->
  aheadOfBeat o (Candidate.time c).
Proof.
  unfold buildCandidates. cbv zeta. intro Hin.
  apply arraySort_In in Hin. revert Hin.
  rewrite addDrops_eq. cbn [app].
  set (dc := map (dropCandidate (startTime o)) _).
  destruct (addMeasureStarts_ahead o measures dc) as [e1 [-> H1]].
  destruct (addMeasureMids_ahead o (endTime o - startTime o) measures
                                 (dc ++ e1)) as [e2 [-> H2]].
  destruct (addStrongBeats_ahead o ((dc ++ e1) ++ e2)) as [e3 [-> H3]].
  intro Hin. rewrite Forall_forall in H1, H2, H3.
  apply in_app_or in Hin. destruct Hin as [Hin|Hin]; [|apply H3, Hin].
  apply in_app_or in Hin. destruct Hin as [Hin|Hin]; [|apply H2, Hin].
  apply in_app_or in Hin. destruct Hin as [Hin|Hin]; [|apply H1, Hin].
  unfold dc in Hin. apply in_map_iff in Hin. destruct Hin as [d [<- Hd]].
  apply filter_In in Hd. destruct Hd as [Hd _].
  apply detectDrops_beat in Hd. destruct Hd as [b [Hb E]].
  exists b, (1#20). split; [exact Hb|]. split; [left; reflexivity|].
  cbn [dropCandidate Candidate.time]. unfold leadTime. rewrite E. reflexivity.
Qed.

Lemma selectCuts_ahead (o : RandomCutOptions) :
  Forall (fun cut => aheadOfBeat o (CutMarker.time cut)) (selectCuts uuid o).
Proof.
  unfold selectCuts. cbv zeta.
  apply addByPriority_invariant.
  - intros sel c Hsel Hc _ _ _. apply Forall_app. split; [exact Hsel|].
    constructor; [|constructor]. rewrite newCut_time.
    eapply buildCandidates_ahead, Hc.
  - apply addForced_invariant; [|constructor].
    intros sel c Hsel Hc _. apply Forall_app. split; [exact Hsel|].
    constructor; [|constructor]. rewrite newCut_time.
    apply filter_In in Hc. eapply buildCandidates_ahead, Hc.
Qed.

(** X3. When the active region has beats, every cut of a returned list is
    placed 50, 30 or 20ms ahead of one of those beats (and not before
    [startTime + 0.05]); no cut is ever placed at a computed position. *)
Theorem cuts_ahead_of_beats (o : RandomCutOptions) (cuts : list CutMarker.t) :
  generateRandomCuts uuid o = Ok cuts ->
  availableBeatsOf o <> [] ->
  Forall (fun cut => aheadOfBeat o (CutMarker.time cut)) cuts.
Proof.
  intros H Hbeats. apply generateRandomCuts_ok_inv in H.
  destruct H as [[_ ->]|[_ [_ [[Ea _]|[_ [sel [Hb ->]]]]]]].
  - constructor.
  - contradiction.
  - assert (Hsel : Forall (fun cut => aheadOfBeat o (CutMarker.time cut)) sel).
    { eapply (backfill_invariant uuid
                (Forall (fun cut => aheadOfBeat o (CutMarker.time cut))));
        [|apply selectCuts_ahead|exact Hb].
      intros s beat Hs Hin _. apply Forall_app. split; [exact Hs|].
      constructor; [|constructor]. rewrite newCut_time.
      exists beat, (1#50). split; [exact Hin|].
      split; [right; right; reflexivity | reflexivity]. }
    apply Forall_forall. intros cut Hin.
    apply rebalance_sort_time in Hin. destruct Hin as [cut' [Hin' ->]].
    rewrite Forall_forall in Hsel. apply Hsel, Hin'.
Qed.

(** ** Identifiers, colors and durations *)

Lemma seq_snoc (n : nat) : seq 0 (S n) = seq 0 n ++ [n].
Proof. rewrite seq_S. reflexivity. Qed.

Lemma pushed_idAndColor (selectedCuts : list CutMarker.t) (t : Q) :
  map idAndColor selectedCuts
  = map (fun i => (uuid i, colorAt i)) (seq 0 (List.length selectedCuts)) ->
  map idAndColor (selectedCuts ++ [newCut uuid (List.length selectedCuts) t])
  = map (fun i => (uuid i, colorAt i))
        (seq 0 (List.length
                  (selectedCuts ++ [newCut uuid (List.length selectedCuts) t]))).
Proof.
  intro H. rewrite length_app. cbn [List.length].
  replace (List.length selectedCuts + 1)%nat with (S (List.length selectedCuts))
    by lia.
  rewrite seq_snoc, !map_app, H. reflexivity.
Qed.

Lemma selectCuts_idAndColor (o : RandomCutOptions) :
  map idAndColor (selectCuts uuid o)
  = map (fun i => (uuid i, colorAt i))
        (seq 0 (List.length (selectCuts uuid o))).
Proof.
  unfold selectCuts. cbv zeta.
  apply (addByPriority_invariant uuid
           (fun s => map idAndColor s
                     = map (fun i => (uuid i, colorAt i))
                           (seq 0 (List.length s)))).
  - intros sel c Hsel _ _ _ _. apply pushed_idAndColor, Hsel.
  - apply (addForced_invariant uuid
             (fun s => map idAndColor s
                       = map (fun i => (uuid i, colorAt i))
                             (seq 0 (List.length s)))).
    + intros sel c Hsel _ _. apply pushed_idAndColor, Hsel.
    + reflexivity.
Qed.

Lemma rebalance_idAndColor (endTime : Q) (l : list CutMarker.t) :
  map idAndColor (rebalance endTime l) = map idAndColor l.
Proof. induction l as [|x xs IH]; cbn; [reflexivity | now rewrite IH]. Qed.

(** X4. The cuts of a returned list carry, in some order, the first
    identifiers drawn and the palette colors in turn: the cut selected at
    rank [i] has the [i]-th identifier and the color [COLORS[i mod 6]]. *)
Theorem cuts_ids_and_colors (o : RandomCutOptions) (cuts : list CutMarker.t) :
  generateRandomCuts uuid o = Ok cuts ->
  Permutation (map idAndColor cuts)
              (map (fun i => (uuid i, colorAt i)) (seq 0 (List.length cuts))).
Proof.
  intro H. apply generateRandomCuts_ok_inv in H.
  destruct H as [[_ ->]|[_ [_ [[_ ->]|[_ [sel [Hb ->]]]]]]].
  - constructor.
  - rewrite generateEquidistantCuts_length.
    unfold generateEquidistantCuts. cbv zeta. rewrite map_map.
    apply Permutation_refl.
  - rewrite rebalance_idAndColor, rebalance_length, arraySort_length.
    eapply perm_trans;
      [apply Permutation_map, Permutation_sym, (arraySort_perm byTime)|].
    assert (E : map idAndColor sel
                = map (fun i => (uuid i, colorAt i)) (seq 0 (List.length sel))).
    { eapply (backfill_invariant uuid
                (fun s => map idAndColor s
                          = map (fun i => (uuid i, colorAt i))
                                (seq 0 (List.length s))));
        [|apply selectCuts_idAndColor|exact Hb].
      intros s beat Hs _ _. apply pushed_idAndColor, Hs. }
    rewrite E. apply Permutation_refl.
Qed.

Lemma selectCuts_durations (o : RandomCutOptions) :
  Forall (fun cut => CutMarker.duration cut = 1) (selectCuts uuid o).
Proof.
  unfold selectCuts. cbv zeta.
  apply addByPriority_invariant.
  - intros sel c Hsel _ _ _ _. apply Forall_app. split; [exact Hsel|].
    repeat constructor.
  - apply addForced_invariant; [|constructor].
    intros sel c Hsel _ _. apply Forall_app. split; [exact Hsel|].
    repeat constructor.
Qed.

Lemma min_max_bounds (d x : Q) :
  Num.min d (Num.max (3#10) x) <= d /\
  (3#10 <= d -> 3#10 <= Num.min d (Num.max (3#10) x)) /\
  Num.min d (Num.max (3#10) x) <= Num.max (3#10) x.
Proof.
  unfold Num.min, Num.max.
  pose proof (Q.le_min_l d (Qmax (3#10) x)).
  pose proof (Q.le_min_r d (Qmax (3#10) x)).
  pose proof (Q.le_max_l (3#10) x).
  split; [assumption|]. split; [|assumption].
  intro Hd. apply Q.min_glb; assumption.
Qed.

Lemma rebalance_durations (endTime : Q) (l : list CutMarker.t) :
  Forall (fun cut => CutMarker.duration cut = 1) l ->
  Forall (fun cut => 3#10 <= CutMarker.duration cut <= 1)
         (rebalance endTime l).
Proof.
  induction 1 as [|x xs Hx _ IH]; cbn [rebalance]; constructor; [|exact IH].
  cbn [withDuration CutMarker.duration]. rewrite Hx.
  match goal with |- context [Num.min 1 (Num.max (3#10) ?g)] =>
    destruct (min_max_bounds 1 g) as [H1 [H2 _]]
  end.
  split; [apply H2; lra | exact H1].
Qed.

(** X5. When the active region has beats, every cut of a returned list has
    a duration between 0.3s and 1s. *)
Theorem cuts_durations (o : RandomCutOptions) (cuts : list CutMarker.t) :
  generateRandomCuts uuid o = Ok cuts ->
  availableBeatsOf o <> [] ->
  Forall (fun cut => 3#10 <= CutMarker.duration cut <= 1) cuts.
Proof.
  intros H Hbeats. apply generateRandomCuts_ok_inv in H.
  destruct H as [[_ ->]|[_ [_ [[Ea _]|[_ [sel [Hb ->]]]]]]].
  - constructor.
  - contradiction.
  - apply rebalance_durations.
    assert (Hsel : Forall (fun cut => CutMarker.duration cut = 1) sel).
    { eapply (backfill_invariant uuid
                (Forall (fun cut => CutMarker.duration cut = 1)));
        [|apply selectCuts_durations|exact Hb].
      intros s beat Hs _ _. apply Forall_app. split; [exact Hs|].
      repeat constructor. }
    eapply Permutation_Forall; [apply (arraySort_perm byTime)|exact Hsel].
Qed.

End Placement.

(** ** The beat a backfill turn picks *)

Section Nearest.

Variable uuid : nat -> string.

(** [reduce] with the comparison of distances keeps an entry that no other
    entry is nearer than. *)
Lemma fold_left_nearest (dist : BeatMarker.t -> Q) (l : list BeatMarker.t) :
  forall init,
    let nearest :=
      fold_left (fun nearest current =>
                   if Num.ltb (dist current) (dist nearest)
                   then current else nearest) l init in
    Forall (fun other => dist nearest <= dist other) (init :: l).
Proof.
  induction l as [|x xs IH]; intro init; cbn [fold_left].
  - constructor; [apply Qle_refl | constructor].
  - specialize (IH (if Num.ltb (dist x) (dist init) then x else init)).
    cbv zeta in IH. inversion IH as [|? ? Hhd Htl]; subst.
    destruct (Num.ltb (dist x) (dist init)) eqn:E.
    + apply ltb_lt in E. constructor; [lra|]. constructor; assumption.
    + apply ltb_ge in E. constructor; [exact Hhd|]. constructor; [lra|exact Htl].
Qed.

(** X6. A backfill turn that does not throw places its cut 20ms ahead of a
    beat of the region that is not within [minCutInterval] of a cut
    selected before, and no other such beat is nearer to the ideal position
    [startTime + (k + 1) * activeDuration / planCount] of the turn. *)
Theorem backfillStep_nearest (o : RandomCutOptions)
        (selectedCuts selectedCuts' : list CutMarker.t) :
  backfillStep uuid (startTime o) (endTime o - startTime o) (planCount o - 1)
               (minCutInterval o) (availableBeatsOf o) selectedCuts
  = Ok selectedCuts' ->
  exists beat,
    In beat (availableBeatsOf o) /\
    tooCloseTo (minCutInterval o) selectedCuts (BeatMarker.time beat) = false /\
    selectedCuts' =
      selectedCuts ++
        [newCut uuid (List.length selectedCuts)
                (Num.max (startTime o + (1#20)) (BeatMarker.time beat - (1#50)))]
    /\
    forall other,
      In other (availableBeatsOf o) ->
      tooCloseTo (minCutInterval o) selectedCuts (BeatMarker.time other) = false ->
      Num.abs (BeatMarker.time beat
               - idealTimeAt o (List.length selectedCuts))
      <= Num.abs (BeatMarker.time other
                  - idealTimeAt o (List.length selectedCuts)).
Proof.
  unfold backfillStep, reduce1.
  destruct (filter _ (availableBeatsOf o)) as [|b bs] eqn:Ef; [discriminate|].
  cbn [bind truthy]. cbv zeta. intro H. injection H as <-.
  pose proof (fold_left_nearest
                (fun beat => Num.abs (BeatMarker.time beat
                                      - idealTimeAt o (List.length selectedCuts)))
                bs b) as Hn.
  cbv zeta beta in Hn. unfold idealTimeAt in Hn at 1 2.
  set (nearest := fold_left _ bs b) in *.
  assert (Hin : In nearest (b :: bs)).
  { apply fold_left_pick. intros x y.
    destruct (Num.ltb _ _); [right | left]; reflexivity. }
  rewrite <- Ef in Hin, Hn. apply filter_In in Hin. destruct Hin as [Hin Hfar].
  exists nearest. split; [exact Hin|].
  split; [apply negb_true_iff in Hfar; exact Hfar|].
  split; [reflexivity|].
  intros other Ho Hofar. rewrite Forall_forall in Hn. apply Hn.
  apply filter_In. split; [exact Ho|]. rewrite Hofar. reflexivity.
Qed.

End Nearest.

(** ** The equidistant fallback *)

Section Equidistant.

Variable uuid : nat -> string.

Lemma nth_error_map_seq {A : Type} (f : nat -> A) (n i : nat) :
  nth_error (map f (seq 0 n)) i = if (i <? n)%nat then Some (f i) else None.
Proof.
  destruct (Nat.ltb_spec i n) as [Hlt|Hge].
  - rewrite nth_error_map, nth_error_seq.
    destruct (Nat.ltb_spec i n); [reflexivity | lia].
  - apply nth_error_None. rewrite length_map, length_seq. exact Hge.
Qed.

Lemma equidistant_time (startTime endTime : Q) (count : Z) (i : nat) :
  nth_error (map CutMarker.time
                 (generateEquidistantCuts uuid startTime endTime count)) i
  = if (i <? Z.to_nat count)%nat
    then Some (startTime
               + (endTime - startTime) / (inject_Z count + 1)
                 * (Num.ofNat i + 1))
    else None.
Proof.
  unfold generateEquidistantCuts. cbv zeta. rewrite map_map.
  rewrite nth_error_map_seq. reflexivity.
Qed.

Lemma ofNat_succ (i : nat) : Num.ofNat (S i) == Num.ofNat i + 1.
Proof.
  unfold Num.ofNat. rewrite Nat2Z.inj_succ, <- Z.add_1_r, inject_Z_plus.
  reflexivity.
Qed.

Lemma ofNat_to_nat (count : Z) :
  (0 <= count)%Z -> Num.ofNat (Z.to_nat count) == inject_Z count.
Proof. intro H. unfold Num.ofNat. rewrite Z2Nat.id by exact H. reflexivity. Qed.

(** X7. The equidistant fallback returns [count] cuts that divide the region
    evenly: from [startTime] to the first cut, from each cut to the next and
    from the last cut to [endTime] the distance is
    [(endTime - startTime) / (count + 1)]. *)
Theorem generateEquidistantCuts_even (startTime endTime : Q) (count : Z) :
  (0 <= count)%Z ->
  let cuts := generateEquidistantCuts uuid startTime endTime count in
  List.length cuts = Z.to_nat count /\
  evenlySpaced ((endTime - startTime) / (inject_Z count + 1))
               (startTime :: map CutMarker.time cuts ++ [endTime]).
Proof.
  intros Hc cuts. split; [apply generateEquidistantCuts_length|].
  assert (Hk : 0 < inject_Z count + 1).
  { assert (inject_Z 0 <= inject_Z count) by (rewrite <- Zle_Qle; exact Hc).
    change (inject_Z 0) with 0 in *. lra. }
  pose proof (interval_times (endTime - startTime) (inject_Z count) Hk) as Hiv.
  set (iv := (endTime - startTime) / (inject_Z count + 1)) in *.
  assert (Hiv' : iv = (endTime - startTime) / (inject_Z count + 1))
    by reflexivity.
  clearbody iv.
  assert (Hlen : List.length (map CutMarker.time cuts) = Z.to_nat count).
  { rewrite length_map. apply generateEquidistantCuts_length. }
  assert (Hat : forall j,
             nth_error (map CutMarker.time cuts ++ [endTime]) j
             = if (j <? Z.to_nat count)%nat
               then Some (startTime + iv * (Num.ofNat j + 1))
               else if (j =? Z.to_nat count)%nat then Some endTime else None).
  { intro j. destruct (Nat.ltb_spec j (Z.to_nat count)) as [Hlt|Hge].
    - rewrite nth_error_app1 by lia. unfold cuts. rewrite equidistant_time.
      rewrite <- Hiv'.
      destruct (Nat.ltb_spec j (Z.to_nat count)); [reflexivity | lia].
    - rewrite nth_error_app2 by lia. rewrite Hlen.
      destruct (Nat.eqb_spec j (Z.to_nat count)) as [->|Hne].
      + rewrite Nat.sub_diag. reflexivity.
      + apply nth_error_None. cbn [List.length]. lia. }
  assert (Hend : forall j, j = Z.to_nat count ->
                           startTime + iv * (Num.ofNat j) == endTime - iv).
  { intros j ->. rewrite ofNat_to_nat by exact Hc. lra. }
  set (ts := map CutMarker.time cuts ++ [endTime]) in *. clearbody ts.
  intros i a b Ha Hb. destruct i as [|i].
  - cbn [nth_error] in Ha. injection Ha as <-.
    change (nth_error ts 0 = Some b) in Hb. rewrite Hat in Hb.
    destruct (Nat.ltb_spec 0 (Z.to_nat count)).
    + injection Hb as <-.
      setoid_replace (Num.ofNat 0) with 0 by reflexivity. lra.
    + destruct (Nat.eqb_spec 0 (Z.to_nat count)) as [E|]; [|discriminate].
      injection Hb as <-. pose proof (Hend 0%nat E) as H0.
      setoid_replace (Num.ofNat 0) with 0 in H0 by reflexivity. lra.
  - change (nth_error ts i = Some a) in Ha.
    change (nth_error ts (S i) = Some b) in Hb. rewrite Hat in Ha, Hb.
    destruct (Nat.ltb_spec i (Z.to_nat count)) as [Hi|Hi].
    + injection Ha as <-.
      destruct (Nat.ltb_spec (S i) (Z.to_nat count)) as [Hsi|Hsi].
      * injection Hb as <-. pose proof (ofNat_succ i) as Hs.
        rewrite Hs. ring.
      * destruct (Nat.eqb_spec (S i) (Z.to_nat count)) as [E|]; [|discriminate].
        injection Hb as <-. pose proof (Hend (S i) E) as H0.
        pose proof (ofNat_succ i) as Hs. rewrite Hs in H0. lra.
    + destruct (Nat.eqb_spec i (Z.to_nat count)) as [E|]; [|discriminate].
      destruct (Nat.ltb_spec (S i) (Z.to_nat count)); [lia|].
      destruct (Nat.eqb_spec (S i) (Z.to_nat count)); [lia | discriminate].
Qed.

End Equidistant.

(** ** optimizeCutDurations and addTimeVariation *)

Lemma rebalance_no_overlap (endTime : Q) (l : list CutMarker.t) :
  forall i cut next,
    nth_error (rebalance endTime l) i = Some cut ->
    nth_error (rebalance endTime l) (S i) = Some next ->
    2#5 <= CutMarker.time next - CutMarker.time cut ->
    CutMarker.time cut + CutMarker.duration cut
    <= CutMarker.time next - (1#10).
Proof.
  induction l as [|x xs IH]; intros i cut next Hc Hn Hgap.
  - destruct i; discriminate.
  - destruct i as [|i].
    + cbn [rebalance nth_error] in Hc, Hn. injection Hc as <-.
      destruct xs as [|y ys]; [discriminate|].
      cbn [rebalance nth_error] in Hn. injection Hn as <-.
      cbn [withDuration CutMarker.time CutMarker.duration] in *.
      match goal with |- context [Num.min ?d (Num.max (3#10) ?g)] =>
        destruct (min_max_bounds d g) as [_ [_ H3]];
        destruct (max_cases (3#10) g) as [[H4 E]|[H4 E]];
        rewrite E in H3 |- *
      end; lra.
    + cbn [rebalance nth_error] in Hc, Hn. eapply IH; eassumption.
Qed.

Lemma rebalance_shortens (endTime : Q) (l : list CutMarker.t) :
  Forall2 (fun before after =>
             sameButDuration before after /\
             CutMarker.duration after <= CutMarker.duration before)
          l (rebalance endTime l).
Proof.
  induction l as [|x xs IH]; cbn [rebalance]; constructor; [|exact IH].
  split; [repeat split|].
  cbn [withDuration CutMarker.duration]. apply min_max_bounds.
Qed.

(** X8. [optimizeCutDurations] never lengthens a cut, and in its result a
    cut followed at least 0.4s later by the next one ends at least 0.1s
    before that one starts. *)
Theorem optimizeCutDurations_no_overlap (cuts : list CutMarker.t) (endTime : Q) :
  let out := optimizeCutDurations cuts endTime in
  Forall2 (fun before after =>
             sameButDuration before after /\
             CutMarker.duration after <= CutMarker.duration before)
          (arraySort byTime cuts) out /\
  forall i cut next,
    nth_error out i = Some cut -> nth_error out (S i) = Some next ->
    2#5 <= CutMarker.time next - CutMarker.time cut ->
    CutMarker.time cut + CutMarker.duration cut <= CutMarker.time next - (1#10).
Proof.
  cbv zeta. rewrite optimizeCutDurations_rebalance. split.
  - apply rebalance_shortens.
  - apply rebalance_no_overlap.
Qed.

Lemma mapiFrom_Forall2 {A B : Type} (R : A -> B -> Prop) (f : A -> nat -> B)
      (l : list A) :
  forall k, (forall x i, R x (f x i)) -> Forall2 R l (mapiFrom k f l).
Proof.
  induction l as [|x xs IH]; intros k H; cbn [mapiFrom]; constructor.
  - apply H.
  - apply IH, H.
Qed.

(** X9. [addTimeVariation] moves every cut by at most half of
    [maxVariation], earlier or later, and changes nothing else: the cuts
    keep their number, their order in the array, their ids, colors and
    durations. *)
Theorem addTimeVariation_bounded (random : nat -> Q) (cuts : list CutMarker.t)
        (maxVariation : Q) :
  (forall i, 0 <= random i < 1) ->
  0 <= maxVariation ->
  Forall2 (fun before after =>
             CutMarker.id after = CutMarker.id before /\
             CutMarker.color after = CutMarker.color before /\
             CutMarker.duration after = CutMarker.duration before /\
             CutMarker.trimSettings after = CutMarker.trimSettings before /\
             - (maxVariation / 2)
             <= CutMarker.time after - CutMarker.time before
             <= maxVariation / 2)
          cuts (addTimeVariation random cuts maxVariation).
Proof.
  intros Hr Hm. unfold addTimeVariation, mapi. apply mapiFrom_Forall2.
  intros cut i. cbn [withTime CutMarker.id CutMarker.color CutMarker.duration
                     CutMarker.trimSettings CutMarker.time].
  repeat (split; [reflexivity|]).
  specialize (Hr i).
  assert (H1 : (random i - (1#2)) * maxVariation <= (1#2) * maxVariation)
    by (apply Qmult_le_compat_r; lra).
  assert (H2 : (- (1#2)) * maxVariation <= (random i - (1#2)) * maxVariation)
    by (apply Qmult_le_compat_r; lra).
  set (p := (random i - (1#2)) * maxVariation) in *. clearbody p.
  assert (Hhalf : maxVariation / 2 == (1#2) * maxVariation) by field.
  set (h := maxVariation / 2) in *. clearbody h.
  split; lra.
Qed.

(** ** detectDrops, further *)



(** The silence test at its boundary.  The difference of the doubles 3.3
    and 2.1 rounds to 1.1999999999999997, below the double 1.2, and no drop
    is reported where the exact difference is 1.2; the difference of the
    doubles 1.7 and 0.5 rounds to the double 1.2 and a drop is reported. *)
Lemma drops_at_the_boundary :
  detectDropsOnDoubles beatsAt21 = [] /\
  List.length (detectDrops beatsAt21) = 1%nat /\
  List.length (detectDropsOnDoubles beatsAt05) = 1%nat.
Proof. repeat split; vm_compute; reflexivity. Qed.

Lemma dropsFrom_length (previousBeat : BeatMarker.t) (rest : list BeatMarker.t) :
  (List.length (dropsFrom previousBeat rest) <= List.length rest)%nat.
Proof.
  revert previousBeat. induction rest as [|cur rest IH]; intro prev;
    cbn [dropsFrom List.length]; [lia|].
  cbv zeta. specialize (IH cur).
  destruct (Num.geb _ _ && _); cbn [List.length]; lia.
Qed.

(** X11. Among beats in ascending order of time any two drops are at least
    1.2s apart, and there is always at least one strong beat more than
    there are drops (none without strong beats). *)
Theorem detectDrops_sparse (beatMarkers : list BeatMarker.t) :
  (List.length (detectDrops beatMarkers)
   <= List.length (strongBeatsOf beatMarkers) - 1)%nat /\
  (ascendingBeats beatMarkers ->
   StronglySorted (fun a b => DropMarker.time a + (6#5) <= DropMarker.time b)
                  (detectDrops beatMarkers)).
Proof.
  split; [|apply detectDrops_spaced].
  unfold detectDrops, strongBeatsOf.
  destruct (filter _ beatMarkers) as [|first rest]; [cbn; lia|].
  pose proof (dropsFrom_length first rest). cbn [List.length]. lia.
Qed.

(** ** detectMeasures, further *)

Lemma intervalsFrom_within (lo hi : Q) (previous : BeatMarker.t)
      (rest : list BeatMarker.t) :
  Forall (fun x => lo < x < hi) (intervalsFrom lo hi previous rest).
Proof.
  revert previous. induction rest as [|cur rest IH]; intro prev;
    cbn [intervalsFrom]; [constructor|].
  cbv zeta. destruct (Num.ltb lo _ && _) eqn:E; [|apply IH].
  apply andb_true_iff in E. destruct E as [E1 E2].
  apply ltb_lt in E1. apply ltb_lt in E2.
  constructor; [split; assumption | apply IH].
Qed.

Lemma intervalsWithin_within (lo hi : Q) (beats : list BeatMarker.t) :
  Forall (fun x => lo < x < hi) (intervalsWithin lo hi beats).
Proof.
  unfold intervalsWithin. destruct beats; [constructor|].
  apply intervalsFrom_within.
Qed.

Lemma clusterLoop_members (P : Q -> Prop) (rest : list Q) :
  forall previous clusters currentCluster,
    Forall P rest -> Forall (Forall P) clusters -> Forall P currentCluster ->
    Forall (Forall P) (fst (clusterLoop previous rest clusters currentCluster))
    /\ Forall P (snd (clusterLoop previous rest clusters currentCluster)).
Proof.
  induction rest as [|x rest IH]; intros prev clusters cur Hrest Hcl Hcur;
    cbn [clusterLoop]; [split; assumption|].
  cbv zeta. inversion Hrest as [|? ? Hx Hrest']; subst.
  destruct (Num.ltb _ _).
  - apply IH; [assumption..|]. apply Forall_app. split; [exact Hcur|].
    constructor; [exact Hx | constructor].
  - apply IH; [assumption| |constructor; [exact Hx | constructor]].
    destruct (1 <=? List.length cur)%nat; [|exact Hcl].
    apply Forall_app. split; [exact Hcl|]. constructor; [exact Hcur|constructor].
Qed.

Lemma clustersOf_members (P : Q -> Prop) (l : list Q) :
  Forall P l -> Forall (Forall P) (clustersOf l).
Proof.
  intro H. unfold clustersOf. destruct l as [|first rest]; [constructor|].
  inversion H as [|? ? Hf Hr]; subst.
  destruct (clusterLoop_members P rest first [] [first] Hr (Forall_nil _)
                                (Forall_cons _ Hf (Forall_nil _))) as [H1 H2].
  destruct (clusterLoop first rest [] [first]) as [clusters cur].
  cbn [fst snd] in H1, H2.
  destruct (1 <=? List.length cur)%nat; [|exact H1].
  apply Forall_app. split; [exact H1|]. constructor; [exact H2|constructor].
Qed.

Lemma dominant_member (clusters : list (list Q)) :
  forall init,
    let dominant :=
      fold_left (fun largest current =>
                   if (List.length largest <? List.length current)%nat
                   then current else largest)
                clusters init in
    dominant = init \/ In dominant clusters.
Proof.
  induction clusters as [|c cs IH]; intro init; cbn [fold_left].
  - left. reflexivity.
  - cbv zeta. destruct (IH (if (List.length init <? List.length c)%nat
                            then c else init)) as [E|Hin].
    + rewrite E. destruct (_ <? _)%nat; [right; left | left]; reflexivity.
    + right. right. exact Hin.
Qed.

Lemma sum_bounds (lo hi : Q) (l : list Q) :
  Forall (fun x => lo < x < hi) l ->
  forall acc,
    acc + Num.ofNat (List.length l) * lo
    <= fold_left (fun sum val => sum + val) l acc
    <= acc + Num.ofNat (List.length l) * hi.
Proof.
  induction 1 as [|x xs Hx _ IH]; intro acc; cbn [fold_left List.length].
  - setoid_replace (Num.ofNat 0) with 0 by reflexivity. lra.
  - specialize (IH (acc + x)). rewrite ofNat_succ. lra.
Qed.

Lemma mean_bounds (lo hi : Q) (l : list Q) :
  Forall (fun x => lo < x < hi) l -> (2 <= List.length l)%nat ->
  lo < fold_left (fun sum val => sum + val) l 0 / Num.ofNat (List.length l) < hi.
Proof.
  intros H Hlen. destruct l as [|x xs]; [cbn in Hlen; lia|].
  inversion H as [|? ? Hx Hxs]; subst.
  pose proof (sum_bounds lo hi xs Hxs (0 + x)) as Hs.
  cbn [fold_left List.length].
  set (s := fold_left _ xs (0 + x)) in *. clearbody s.
  assert (Hn : 0 <= Num.ofNat (List.length xs)).
  { unfold Num.ofNat. change 0 with (inject_Z 0). rewrite <- Zle_Qle. lia. }
  pose proof (ofNat_succ (List.length xs)) as Hsucc.
  set (n := Num.ofNat (List.length xs)) in *.
  set (n1 := Num.ofNat (S (List.length xs))) in *. clearbody n n1.
  assert (Hpos : 0 < n1) by lra.
  split.
  - apply Qlt_shift_div_l; [exact Hpos|]. rewrite Hsucc. lra.
  - apply Qlt_shift_div_r; [exact Hpos|]. rewrite Hsucc. lra.
Qed.

(** What the tempo analysis hands to the grid walk. *)
Lemma measureGrid_some (beatMarkers strongBeats : list BeatMarker.t)
      (averageMeasureDuration bpm : Q) :
  measureGrid beatMarkers = Some (strongBeats, averageMeasureDuration, bpm) ->
  strongBeats = strongBeatsOf beatMarkers /\
  (8 <= List.length beatMarkers)%nat /\
  (3 <= List.length strongBeats)%nat /\
  4#5 < averageMeasureDuration < 6 /\
  bpm = 60 / (averageMeasureDuration / 4).
Proof.
  unfold measureGrid.
  destruct (Nat.ltb_spec (List.length beatMarkers) 8) as [|H8]; [discriminate|].
  fold (strongBeatsOf beatMarkers).
  destruct (Nat.ltb_spec (List.length (strongBeatsOf beatMarkers)) 3) as [|H3];
    [discriminate|].
  cbv zeta.
  destruct (_ <? 2)%nat; [discriminate|].
  set (sorted := arraySort _ _).
  set (dominant := fold_left _ (clustersOf sorted) []).
  destruct (Nat.ltb_spec (List.length dominant) 2) as [|H2]; [discriminate|].
  intro H. injection H as <- <- <-.
  repeat (split; [first [reflexivity | assumption]|]).
  split; [|reflexivity].
  apply mean_bounds; [|exact H2].
  assert (Hsorted : Forall (fun x => 4#5 < x < 6) sorted).
  { eapply Permutation_Forall; [apply arraySort_perm|].
    apply intervalsWithin_within. }
  destruct (dominant_member (clustersOf sorted) []) as [E|Hin].
  - fold dominant in E. rewrite E in H2. cbn in H2. lia.
  - fold dominant in Hin.
    pose proof (clustersOf_members _ sorted Hsorted) as Hall.
    rewrite Forall_forall in Hall. apply Hall, Hin.
Qed.

(** ** The measures of the grid walk *)

Section Walk.

Variables (avg bpm : Q).
Hypothesis avg_positive : 0 < avg.

Lemma accepted_confidence (timeDiff : Q) :
  0 <= timeDiff -> timeDiff < avg * (3#10) ->
  7#10 < Num.max (1#10) (1 - (timeDiff / avg)) <= 1.
Proof.
  intros H0 H1.
  assert (Hq1 : timeDiff / avg < 3#10) by (apply Qlt_shift_div_r; lra).
  assert (Hq0 : 0 <= timeDiff / avg) by (apply Qle_shift_div_l; lra).
  destruct (max_cases (1#10) (1 - (timeDiff / avg))) as [[H ->]|[H ->]]; lra.
Qed.

Lemma lastMeasure_in (ms : list MeasureInfo.t) (m : MeasureInfo.t) :
  lastMeasure ms = Some m -> In m ms.
Proof.
  unfold lastMeasure. destruct (rev ms) as [|x xs] eqn:E; [discriminate|].
  intro H. injection H as ->. apply in_rev. rewrite E. left. reflexivity.
Qed.

Lemma lastMeasure_cons (m : MeasureInfo.t) (ms : list MeasureInfo.t) :
  ms <> [] -> lastMeasure (m :: ms) = lastMeasure ms.
Proof.
  intro Hne. unfold lastMeasure. cbn [rev].
  destruct (rev ms) as [|x xs] eqn:E; [|reflexivity].
  apply (f_equal (@rev _)) in E. rewrite rev_involutive in E. contradiction.
Qed.

Lemma sorted_snoc (R : MeasureInfo.t -> MeasureInfo.t -> Prop)
      (ms : list MeasureInfo.t) (x : MeasureInfo.t) :
  Sorted R ms -> (forall m, lastMeasure ms = Some m -> R m x) ->
  Sorted R (ms ++ [x]).
Proof.
  induction 1 as [|m ms Hs IH Hhd]; intro Hlast; cbn [app].
  - repeat constructor.
  - destruct ms as [|m' ms'].
    + cbn [app]. constructor; [repeat constructor|].
      constructor. apply Hlast. reflexivity.
    + constructor.
      * apply IH. intros m0 H0. apply Hlast.
        rewrite lastMeasure_cons by discriminate. exact H0.
      * cbn [app]. constructor. inversion Hhd; assumption.
Qed.

Lemma walkStep_kept (whole : list BeatMarker.t) (st : Q * list MeasureInfo.t)
      (beat : BeatMarker.t) :
  In beat whole -> kept avg bpm whole st -> kept avg bpm whole (walkStep avg bpm st beat).
Proof.
  intros Hin [Hall [Hsorted Hlast]]. destruct st as [e ms].
  cbn [fst snd] in *. unfold walkStep.
  destruct (Num.ltb _ _) eqn:E; [|repeat split; assumption].
  apply ltb_lt in E.
  assert (H0 : 0 <= Num.abs (BeatMarker.time beat - e)) by apply Qabs_nonneg.
  unfold kept. cbn [fst snd]. split; [|split].
  - apply Forall_app. split; [exact Hall|]. constructor; [|constructor].
    unfold pushed. split; [reflexivity|]. split; [apply accepted_confidence; assumption|].
    exists beat. split; [exact Hin | reflexivity].
  - apply sorted_snoc; [exact Hsorted|].
    intros m Hm. unfold inStep. cbn [MeasureInfo.startTime].
    rewrite (Hlast m Hm) in E. unfold Num.abs in E.
    apply Qabs_Qlt_condition in E. lra.
  - intros m Hm. rewrite lastMeasure_snoc in Hm. injection Hm as <-.
    reflexivity.
Qed.

Lemma walk_kept (whole beats : list BeatMarker.t) :
  forall st, incl beats whole -> kept avg bpm whole st ->
             kept avg bpm whole (walk avg bpm st beats).
Proof.
  unfold walk. induction beats as [|b bs IH]; intros st Hincl Hk;
    cbn [fold_left]; [exact Hk|].
  apply IH.
  - intros x Hx. apply Hincl. right. exact Hx.
  - apply walkStep_kept; [apply Hincl; left; reflexivity | exact Hk].
Qed.

Lemma walk_extends (beats : list BeatMarker.t) :
  forall st, exists extra, snd (walk avg bpm st beats) = snd st ++ extra.
Proof.
  unfold walk. induction beats as [|b bs IH]; intro st; cbn [fold_left].
  - exists []. now rewrite app_nil_r.
  - destruct (IH (walkStep avg bpm st b)) as [extra E]. rewrite E.
    destruct st as [e ms]. unfold walkStep.
    destruct (Num.ltb _ _); cbn [snd].
    + eexists. rewrite <- app_assoc. reflexivity.
    + exists extra. reflexivity.
Qed.

(** The first strong beat opens the grid. *)
Lemma walk_first (first : BeatMarker.t) (rest : list BeatMarker.t) :
  exists c extra,
    c == 1 /\
    snd (walk avg bpm (gridStart (first :: rest), []) (first :: rest))
    = MeasureInfo.mk (BeatMarker.time first) bpm c :: extra.
Proof.
  unfold walk. cbn [fold_left gridStart]. unfold walkStep at 2.
  assert (Hd : Num.abs (BeatMarker.time first - BeatMarker.time first) == 0).
  { unfold Num.abs.
    setoid_replace (BeatMarker.time first - BeatMarker.time first) with 0
      by ring.
    reflexivity. }
  assert (E : Num.ltb (Num.abs (BeatMarker.time first - BeatMarker.time first))
                      (avg * (3#10)) = true).
  { apply ltb_lt. rewrite Hd. lra. }
  rewrite E. cbn [app].
  destruct (walk_extends rest
              (BeatMarker.time first + avg,
               [MeasureInfo.mk (BeatMarker.time first) bpm
                  (Num.max (1#10)
                     (1 - (Num.abs (BeatMarker.time first
                                    - BeatMarker.time first) / avg)))]))
    as [extra Hex].
  unfold walk in Hex. cbn [snd app] in Hex.
  eexists. exists extra. split; [|exact Hex].
  assert (Hq : Num.abs (BeatMarker.time first - BeatMarker.time first) / avg
               == 0).
  { rewrite Hd. field. lra. }
  destruct (max_cases (1#10)
              (1 - (Num.abs (BeatMarker.time first - BeatMarker.time first)
                    / avg))) as [[H R]|[H R]]; rewrite R; lra.
Qed.

End Walk.

Lemma sorted_among {A : Type} (R R' : A -> A -> Prop) (P : A -> Prop)
      (l : list A) :
  Sorted R l -> Forall P l ->
  (forall a b, P a -> P b -> R a b -> R' a b) ->
  Sorted R' l.
Proof.
  intros Hs Hall Himp. induction Hs as [|x xs Hs IH Hhd]; [constructor|].
  inversion Hall as [|? ? Hx Hxs]; subst.
  constructor; [apply IH, Hxs|].
  destruct Hhd as [|y ys Hxy]; constructor.
  inversion Hxs; subst. apply Himp; assumption.
Qed.

(** The measures returned are those the walk pushed: the last filter keeps
    them all. *)
Lemma detectMeasures_walk (beatMarkers strongBeats : list BeatMarker.t)
      (avg bpm : Q) :
  measureGrid beatMarkers = Some (strongBeats, avg, bpm) ->
  detectMeasures beatMarkers
  = snd (walk avg bpm (gridStart strongBeats, []) strongBeats) /\
  Forall (fun m =>
            MeasureInfo.bpm m = bpm /\
            7#10 < MeasureInfo.confidence m <= 1 /\
            exists beat, In beat strongBeats /\
                         MeasureInfo.startTime m = BeatMarker.time beat)
         (detectMeasures beatMarkers) /\
  Sorted (fun m1 m2 =>
            (7#10) * avg < MeasureInfo.startTime m2 - MeasureInfo.startTime m1
            < (13#10) * avg)
         (detectMeasures beatMarkers).
Proof.
  intro Hg. unfold detectMeasures. rewrite Hg.
  destruct (measureGrid_some _ _ _ _ Hg) as [_ [_ [_ [[Havg _] _]]]].
  assert (Hpos : 0 < avg) by lra.
  destruct (walk_kept avg bpm Hpos strongBeats strongBeats
              (gridStart strongBeats, []) (incl_refl _))
    as [Hall [Hsorted _]]; unfold pushed, inStep in *.
  { repeat split; cbn [snd]; [constructor | constructor | discriminate]. }
  destruct (walk avg bpm (gridStart strongBeats, []) strongBeats)
    as [e measures].
  cbn [snd] in *.
  rewrite filter_keeps_all.
  - repeat split; assumption.
  - eapply Forall_impl; [|exact Hall]. cbv beta.
    intros m [_ [[Hc _] _]]. apply ltb_lt. lra.
Qed.

Lemma detectMeasures_none (beatMarkers : list BeatMarker.t) :
  measureGrid beatMarkers = None -> detectMeasures beatMarkers = [].
Proof. intro H. unfold detectMeasures. rewrite H. reflexivity. Qed.

(** X12. [detectMeasures] returns no measure for fewer than 8 beats or fewer
    than 3 strong beats; and when it returns measures, the first one starts
    at the first strong beat, with confidence 1. *)
Theorem detectMeasures_first (beatMarkers : list BeatMarker.t) :
  detectMeasures beatMarkers = [] \/
  exists first rest m ms,
    strongBeatsOf beatMarkers = first :: rest /\
    detectMeasures beatMarkers = m :: ms /\
    MeasureInfo.startTime m = BeatMarker.time first /\
    MeasureInfo.confidence m == 1 /\
    (8 <= List.length beatMarkers)%nat /\
    (3 <= List.length (strongBeatsOf beatMarkers))%nat.
Proof.
  destruct (measureGrid beatMarkers) as [[[sb avg] bpm]|] eqn:Hg;
    [|left; apply detectMeasures_none, Hg].
  right.
  destruct (measureGrid_some _ _ _ _ Hg) as [Hsb [H8 [H3 [[Havg _] _]]]].
  destruct (detectMeasures_walk _ _ _ _ Hg) as [E _].
  destruct sb as [|first rest]; [cbn in H3; lia|].
  destruct (walk_first avg bpm ltac:(lra) first rest) as [c [extra [Hc Hw]]].
  exists first, rest, (MeasureInfo.mk (BeatMarker.time first) bpm c), extra.
  rewrite <- Hsb. repeat split; try assumption.
  rewrite E, Hw. reflexivity.
Qed.

(** X13. Every measure [detectMeasures] returns starts at the time of a
    strong beat, has a confidence above 0.7 and at most 1, and a tempo
    strictly between 40 and 300 beats per minute. *)
Theorem detectMeasures_confident (beatMarkers : list BeatMarker.t) :
  Forall (fun m =>
            7#10 < MeasureInfo.confidence m <= 1 /\
            40 < MeasureInfo.bpm m < 300 /\
            exists beat,
              In beat (strongBeatsOf beatMarkers) /\
              MeasureInfo.startTime m = BeatMarker.time beat)
         (detectMeasures beatMarkers).
Proof.
  destruct (measureGrid beatMarkers) as [[[sb avg] bpm]|] eqn:Hg;
    [|rewrite (detectMeasures_none _ Hg); constructor].
  destruct (measureGrid_some _ _ _ _ Hg) as [Hsb [_ [_ [[Hlo Hhi] Hbpm]]]].
  destruct (detectMeasures_walk _ _ _ _ Hg) as [_ [Hall _]].
  eapply Forall_impl; [|exact Hall]. cbv beta.
  intros m [Hb [Hc Hbeat]]. split; [exact Hc|]. split; [|rewrite <- Hsb; exact Hbeat].
  rewrite Hb, Hbpm.
  assert (Hq : avg / 4 == (1#4) * avg) by field.
  set (q := avg / 4) in *. clearbody q.
  split.
  - apply Qlt_shift_div_l; lra.
  - apply Qlt_shift_div_r; lra.
Qed.

(** X14. The measures [detectMeasures] returns all have the same tempo, and
    each starts between 0.7 and 1.3 measure durations after the one before
    it, a measure lasting [240 / bpm] seconds (four beats). *)
Theorem detectMeasures_grid (beatMarkers : list BeatMarker.t) :
  Sorted (fun m1 m2 =>
            MeasureInfo.bpm m2 = MeasureInfo.bpm m1 /\
            (7#10) * (240 / MeasureInfo.bpm m1)
            < MeasureInfo.startTime m2 - MeasureInfo.startTime m1
            < (13#10) * (240 / MeasureInfo.bpm m1))
         (detectMeasures beatMarkers).
Proof.
  destruct (measureGrid beatMarkers) as [[[sb avg] bpm]|] eqn:Hg;
    [|rewrite (detectMeasures_none _ Hg); constructor].
  destruct (measureGrid_some _ _ _ _ Hg) as [_ [_ [_ [[Hlo Hhi] Hbpm]]]].
  destruct (detectMeasures_walk _ _ _ _ Hg) as [_ [Hall Hsorted]].
  assert (Havg : 240 / bpm == avg).
  { rewrite Hbpm. field. lra. }
  eapply sorted_among; [exact Hsorted | exact Hall |].
  cbv beta. intros m1 m2 [H1 _] [H2 _] Hstep.
  split; [congruence|]. rewrite H1, Havg. exact Hstep.
Qed.

(** * Beat detection *)

Lemma nth_error_last_snoc {A : Type} (l : list A) (x : A) :
  nth_error (l ++ [x]) (List.length (l ++ [x]) - 1) = Some x.
Proof.
  rewrite length_app. cbn [List.length].
  replace (List.length l + 1 - 1)%nat with (List.length l) by lia.
  rewrite nth_error_app2 by lia. rewrite Nat.sub_diag. reflexivity.
Qed.

Lemma nth_error_last_cons {A : Type} (x : A) (l : list A) :
  l <> [] ->
  nth_error (x :: l) (List.length (x :: l) - 1)
  = nth_error l (List.length l - 1).
Proof.
  intro Hne. destruct l as [|y ys]; [contradiction|].
  cbn [List.length]. rewrite !Nat.sub_succ, !Nat.sub_0_r. reflexivity.
Qed.

(** Pushing onto an array whose neighbours are related keeps them so, when
    the last entry is related to the new one. *)
Lemma sorted_push {A : Type} (R : A -> A -> Prop) (l : list A) (x : A) :
  Sorted R l ->
  (forall y, nth_error l (List.length l - 1) = Some y -> R y x) ->
  Sorted R (l ++ [x]).
Proof.
  induction 1 as [|y ys Hs IH Hhd]; intro Hlast; cbn [app].
  - repeat constructor.
  - destruct ys as [|y' ys'].
    + cbn [app]. constructor; [repeat constructor|].
      constructor. apply Hlast. reflexivity.
    + constructor.
      * apply IH. intros z Hz. apply Hlast.
        rewrite nth_error_last_cons by discriminate. exact Hz.
      * cbn [app]. constructor. inversion Hhd; assumption.
Qed.

(** What a pushed beat looks like. *)
Lemma beatStep_cases (smoothed : list Q) (samples : nat) (duration : Q)
      (beats : list BeatMarker.t) (i : nat) :
  beatStep smoothed samples duration beats i = beats \/
  exists amplitude,
    2#25 < amplitude /\
    amplitude = nth i smoothed 0 /\
    (forall lastBeat,
        nth_error beats (List.length beats - 1) = Some lastBeat ->
        BeatMarker.time lastBeat + (3#20)
        < (Num.ofNat i / Num.ofNat samples) * duration) /\
    beatStep smoothed samples duration beats i
    = beats ++ [BeatMarker.mk ((Num.ofNat i / Num.ofNat samples) * duration)
                              amplitude (classify amplitude)].
Proof.
  unfold beatStep. cbv zeta.
  destruct (Num.ltb (2#25) (nth i smoothed 0)) eqn:Et; cbn [andb];
    [|left; reflexivity].
  destruct (_ && _); [|left; reflexivity].
  apply ltb_lt in Et.
  destruct (nth_error beats (List.length beats - 1)) as [lastBeat|] eqn:El.
  - destruct (Num.ltb (3#20) _) eqn:Eg; [|left; reflexivity].
    right. apply ltb_lt in Eg. exists (nth i smoothed 0).
    split; [exact Et|]. split; [reflexivity|]. split; [|reflexivity].
    intros lb Hlb. injection Hlb as <-. lra.
  - right. exists (nth i smoothed 0).
    split; [exact Et|]. split; [reflexivity|]. split; [|reflexivity].
    intros lb Hlb. discriminate.
Qed.

Lemma detectBeats_invariant (P : list BeatMarker.t -> Prop)
      (filteredData : list Q) (duration : Q) :
  P [] ->
  (forall beats i amplitude,
      P beats ->
      (3 <= i < List.length filteredData - 3)%nat ->
      2#25 < amplitude ->
      (forall lastBeat,
          nth_error beats (List.length beats - 1) = Some lastBeat ->
          BeatMarker.time lastBeat + (3#20)
          < (Num.ofNat i / Num.ofNat (List.length filteredData)) * duration) ->
      P (beats ++
           [BeatMarker.mk
              ((Num.ofNat i / Num.ofNat (List.length filteredData)) * duration)
              amplitude (classify amplitude)])) ->
  P (detectBeats filteredData duration).
Proof.
  intros Hnil Hpush. unfold detectBeats. cbv zeta.
  assert (G : forall indices beats,
             (forall i, In i indices ->
                        (3 <= i < List.length filteredData - 3)%nat) ->
             P beats ->
             P (fold_left (beatStep (smoothedOf filteredData)
                                    (List.length filteredData) duration)
                          indices beats)).
  { induction indices as [|i rest IH]; intros beats Hin HP; cbn [fold_left];
      [exact HP|].
    apply IH; [intros j Hj; apply Hin; right; exact Hj|].
    destruct (beatStep_cases (smoothedOf filteredData)
                             (List.length filteredData) duration beats i)
      as [E|[a [Ha [_ [Hl E]]]]]; rewrite E; [exact HP|].
    apply Hpush; [exact HP | apply Hin; left; reflexivity | exact Ha | exact Hl]. }
  apply G; [|exact Hnil].
  intros i Hi. apply in_seq in Hi. lia.
Qed.

Lemma beatsSpaced_ascending (gap : Q) (beats : list BeatMarker.t) :
  0 <= gap -> beatsSpaced gap beats -> ascendingBeats beats.
Proof.
  intros Hg Hs. unfold ascendingBeats.
  apply Sorted_StronglySorted in Hs.
  - eapply pairwise_impl; [|exact Hs]. cbv beta. intros a b H. lra.
  - intros a b c Hab Hbc. lra.
Qed.

(** X15. The beats the detector hands over are in ascending order of time,
    each more than 0.15s after the one before it; this is the order
    [generateRandomCuts] is specified for. *)
Theorem detectBeats_spaced (filteredData : list Q) (duration : Q) :
  beatsSpaced (3#20) (detectBeats filteredData duration) /\
  ascendingBeats (detectBeats filteredData duration).
Proof.
  assert (H : beatsSpaced (3#20) (detectBeats filteredData duration)).
  { apply (detectBeats_invariant (beatsSpaced (3#20))); [constructor|].
    intros beats i a Hs _ _ Hl. apply sorted_push; [exact Hs|].
    intros y Hy. cbn [BeatMarker.time]. apply Hl, Hy. }
  split; [exact H|]. eapply beatsSpaced_ascending; [|exact H]. lra.
Qed.

Lemma classify_bands (amplitude : Q) :
  (classify amplitude = strong <-> 1#4 < amplitude) /\
  (classify amplitude = medium <-> 3#20 < amplitude <= 1#4) /\
  (classify amplitude = weak <-> amplitude <= 3#20).
Proof.
  unfold classify.
  destruct (Num.ltb (1#4) amplitude) eqn:E1;
    [apply ltb_lt in E1
    |apply ltb_ge in E1;
     destruct (Num.ltb (3#20) amplitude) eqn:E2;
     [apply ltb_lt in E2 | apply ltb_ge in E2]];
    (split; [|split]); (split; intro H);
    try discriminate; try reflexivity; try lra; try (destruct H; lra).
Qed.

Lemma index_fraction (i samples : nat) :
  (3 <= i < samples - 3)%nat ->
  0 < Num.ofNat i / Num.ofNat samples < 1.
Proof.
  intro H. unfold Num.ofNat.
  assert (Hi : inject_Z 0 < inject_Z (Z.of_nat i)) by (rewrite <- Zlt_Qlt; lia).
  assert (Hs : inject_Z (Z.of_nat i) < inject_Z (Z.of_nat samples))
    by (rewrite <- Zlt_Qlt; lia).
  change (inject_Z 0) with 0 in Hi.
  split.
  - apply Qlt_shift_div_l; lra.
  - apply Qlt_shift_div_r; lra.
Qed.

(** X16. Every beat of the detector has an intensity above the threshold
    0.08 and the class of its intensity: strong above 0.25, medium above
    0.15, weak otherwise; for a file of positive duration it lies strictly
    inside the file. *)
Theorem detectBeats_classified (filteredData : list Q) (duration : Q) :
  Forall (fun beat =>
            2#25 < BeatMarker.intensity beat /\
            (BeatMarker.type beat = strong <-> 1#4 < BeatMarker.intensity beat) /\
            (BeatMarker.type beat = medium <->
             3#20 < BeatMarker.intensity beat <= 1#4) /\
            (BeatMarker.type beat = weak <-> BeatMarker.intensity beat <= 3#20) /\
            (0 < duration -> 0 < BeatMarker.time beat < duration))
         (detectBeats filteredData duration).
Proof.
  apply (detectBeats_invariant (Forall _)); [constructor|].
  intros beats i a Hall Hi Ha _. apply Forall_app. split; [exact Hall|].
  constructor; [|constructor].
  cbn [BeatMarker.intensity BeatMarker.type BeatMarker.time].
  split; [exact Ha|].
  destruct (classify_bands a) as [H1 [H2 H3]].
  split; [exact H1|]. split; [exact H2|]. split; [exact H3|].
  intro Hd. destruct (index_fraction i (List.length filteredData) Hi) as [F0 F1].
  set (f := Num.ofNat i / Num.ofNat (List.length filteredData)) in *.
  clearbody f.
  assert (0 < f * duration) by (apply Qmult_lt_0_compat; assumption).
  assert (f * duration < 1 * duration) by (apply Qmult_lt_r; assumption).
  lra.
Qed.

Lemma generateRandomCuts_two_plans_witness :
  (planCount singleCut <= 2)%Z /\
  exists cuts, generateRandomCuts sampleUuid singleCut = Ok cuts.
Proof.
  split; [vm_compute; discriminate|].
  apply (generateRandomCuts_two_plans sampleUuid singleCut).
  vm_compute. discriminate.
Defined.

Lemma cuts_ahead_of_beats_witness :
  availableBeatsOf (driftTrack 9) <> [] /\
  Forall (fun cut => aheadOfBeat (driftTrack 9) (CutMarker.time cut))
         (returned (generateRandomCuts sampleUuid (driftTrack 9))).
Proof.
  split; [vm_compute; discriminate|].
  apply (cuts_ahead_of_beats sampleUuid (driftTrack 9)).
  - vm_compute. reflexivity.
  - vm_compute. discriminate.
Defined.

Lemma cuts_ids_and_colors_witness :
  Permutation
    (map idAndColor (returned (generateRandomCuts sampleUuid (driftTrack 6))))
    (map (fun i => (sampleUuid i, colorAt i))
         (seq 0 (List.length
                   (returned (generateRandomCuts sampleUuid (driftTrack 6)))))).
Proof.
  apply (cuts_ids_and_colors sampleUuid (driftTrack 6)).
  vm_compute. reflexivity.
Defined.

Lemma cuts_durations_witness :
  availableBeatsOf (driftTrack 6) <> [] /\
  Forall (fun cut => 3#10 <= CutMarker.duration cut <= 1)
         (returned (generateRandomCuts sampleUuid (driftTrack 6))).
Proof.
  split; [vm_compute; discriminate|].
  apply (cuts_durations sampleUuid (driftTrack 6)).
  - vm_compute. reflexivity.
  - vm_compute. discriminate.
Defined.

Lemma backfillStep_nearest_witness :
  exists beat,
    In beat (availableBeatsOf loneBeat) /\
    tooCloseTo (minCutInterval loneBeat) [] (BeatMarker.time beat) = false /\
    [newCut sampleUuid 0 (249#50)] =
      [] ++ [newCut sampleUuid (List.length (@nil CutMarker.t))
               (Num.max (startTime loneBeat + (1#20))
                        (BeatMarker.time beat - (1#50)))]
    /\
    forall other,
      In other (availableBeatsOf loneBeat) ->
      tooCloseTo (minCutInterval loneBeat) [] (BeatMarker.time other) = false ->
      Num.abs (BeatMarker.time beat
               - idealTimeAt loneBeat (List.length (@nil CutMarker.t)))
      <= Num.abs (BeatMarker.time other
                  - idealTimeAt loneBeat (List.length (@nil CutMarker.t))).
Proof.
  apply (backfillStep_nearest sampleUuid loneBeat [] [newCut sampleUuid 0 (249#50)]).
  vm_compute. reflexivity.
Defined.

Lemma generateEquidistantCuts_even_witness :
  List.length (generateEquidistantCuts sampleUuid 0 8 3) = Z.to_nat 3 /\
  evenlySpaced ((8 - 0) / (inject_Z 3 + 1))
               (0 :: map CutMarker.time
                         (generateEquidistantCuts sampleUuid 0 8 3) ++ [8]).
Proof.
  apply (generateEquidistantCuts_even sampleUuid 0 8 3).
  vm_compute. discriminate.
Defined.

Lemma sampleRandom_unit (i : nat) : 0 <= sampleRandom i < 1.
Proof.
  unfold sampleRandom. destruct (Nat.even i); split;
    solve [vm_compute; discriminate | vm_compute; reflexivity].
Qed.

Lemma addTimeVariation_bounded_witness :
  0 <= 1#5 /\
  Forall2 (fun before after =>
             CutMarker.id after = CutMarker.id before /\
             CutMarker.color after = CutMarker.color before /\
             CutMarker.duration after = CutMarker.duration before /\
             CutMarker.trimSettings after = CutMarker.trimSettings before /\
             - ((1#5) / 2)
             <= CutMarker.time after - CutMarker.time before
             <= (1#5) / 2)
          sampleCuts (addTimeVariation sampleRandom sampleCuts (1#5)).
Proof.
  split; [vm_compute; discriminate|].
  apply (addTimeVariation_bounded sampleRandom sampleCuts (1#5)).
  - exact sampleRandom_unit.
  - vm_compute. discriminate.
Defined.

(** * The WAV encoder *)

Lemma skipn_repeat {A : Type} (x : A) (n m : nat) :
  skipn n (repeat x m) = repeat x (m - n).
Proof.
  revert m. induction n as [|n IH]; intros [|m]; cbn; try reflexivity.
  apply IH.
Qed.

Lemma length_littleEndian (width : nat) (v : Z) :
  List.length (littleEndian width v) = width.
Proof. unfold littleEndian. rewrite length_map, length_seq. reflexivity. Qed.

(** A write at the end of the bytes written so far, into a view that is
    blank from there on, succeeds and extends them. *)
Lemma store_blank (done bytes : list Z) (m offset : nat) :
  offset = List.length done ->
  (List.length bytes <= m)%nat ->
  store (done ++ repeat 0%Z m) offset bytes
  = Some ((done ++ bytes) ++ repeat 0%Z (m - List.length bytes)).
Proof.
  intros -> Hle. unfold store.
  rewrite length_app, repeat_length.
  destruct (Nat.leb_spec (List.length done + List.length bytes)
                         (List.length done + m)) as [_|H]; [|lia].
  f_equal.
  rewrite firstn_app, firstn_all, Nat.sub_diag, firstn_O, app_nil_r.
  rewrite skipn_app, skipn_all2 by lia.
  replace (List.length done + List.length bytes - List.length done)%nat
    with (List.length bytes) by lia.
  rewrite skipn_repeat. cbn [app]. rewrite <- app_assoc. reflexivity.
Qed.

Lemma truncate_ofNat (n : nat) : truncate (Num.ofNat n) = Z.of_nat n.
Proof.
  unfold truncate, Num.ofNat.
  destruct (Qle_bool 0 (inject_Z (Z.of_nat n))) eqn:E.
  - apply Qfloor_Z.
  - apply Qceiling_Z.
Qed.

Lemma charCode_byte (c : Ascii.ascii) :
  littleEndian 1 (truncate (charCode c)) = [Z.of_nat (Ascii.nat_of_ascii c)].
Proof.
  unfold charCode. rewrite truncate_ofNat. unfold littleEndian.
  cbn [seq map]. f_equal.
  change (2 ^ (8 * Z.of_nat 0))%Z with 1%Z. rewrite Z.div_1_r.
  pose proof (Ascii.nat_ascii_bounded c) as Hb.
  apply Z.mod_small. lia.
Qed.

Lemma writeString_blank (s : string) (done : list Z) (m offset : nat) :
  offset = List.length done ->
  (String.length s <= m)%nat ->
  writeString (done ++ repeat 0%Z m) offset s
  = Some ((done ++ map (fun c => Z.of_nat (Ascii.nat_of_ascii c))
                       (list_ascii_of_string s))
          ++ repeat 0%Z (m - String.length s)).
Proof.
  revert done m offset.
  induction s as [|c rest IH]; intros done m offset Hoff Hle.
  - cbn. rewrite app_nil_r, Nat.sub_0_r. reflexivity.
  - cbn [writeString String.length list_ascii_of_string map] in *.
    unfold setUint8. rewrite charCode_byte.
    rewrite store_blank by (cbn [List.length]; lia).
    cbn [bindOption List.length].
    rewrite IH.
    + rewrite <- !app_assoc. cbn [app].
      replace (m - 1 - String.length rest)%nat
        with (m - S (String.length rest))%nat by lia.
      reflexivity.
    + rewrite length_app. cbn [List.length]. lia.
    + lia.
Qed.

Lemma blank_state_eq (a b : list Z) (n1 n2 o1 o2 : nat) :
  a = b -> n1 = n2 -> o1 = o2 ->
  Some (a ++ repeat 0%Z n1, o1) = Some (b ++ repeat 0%Z n2, o2).
Proof. intros -> -> ->. reflexivity. Qed.

(** The inner loop over channels, from any state of that shape. *)
Lemma writeSamples_blank (buffer : AudioBuffer.t) (i : nat)
      (channels : list nat) (done : list Z) (m offset : nat) :
  offset = List.length done ->
  (2 * List.length channels <= m)%nat ->
  fold_left (writeSample buffer i) channels
            (Some (done ++ repeat 0%Z m, offset))
  = Some ((done
           ++ flat_map (fun channel =>
                          littleEndian 2
                            (truncate (intSampleOf (sampleAt buffer channel i))))
                       channels)
          ++ repeat 0%Z (m - 2 * List.length channels),
          (offset + 2 * List.length channels)%nat).
Proof.
  revert done m offset.
  induction channels as [|c cs IH]; intros done m offset Hoff Hle.
  - cbn. rewrite app_nil_r, Nat.sub_0_r, Nat.add_0_r. reflexivity.
  - cbn [fold_left flat_map List.length] in *.
    unfold writeSample at 2. cbn [bindOption]. unfold setInt16.
    rewrite store_blank by (rewrite ?length_littleEndian; lia).
    cbn [bindOption]. rewrite length_littleEndian.
    rewrite IH.
    + apply blank_state_eq; [rewrite <- ?app_assoc; reflexivity | lia | lia].
    + rewrite length_app, length_littleEndian. lia.
    + lia.
Qed.

Lemma length_frameBytes (buffer : AudioBuffer.t) (i : nat) :
  List.length (frameBytes buffer i)
  = (2 * AudioBuffer.numberOfChannels buffer)%nat.
Proof.
  unfold frameBytes.
  assert (H : forall channels : list nat,
             List.length
               (flat_map (fun channel =>
                            littleEndian 2
                              (truncate (intSampleOf (sampleAt buffer channel i))))
                         channels)
             = (2 * List.length channels)%nat).
  { induction channels as [|c cs IH]; [reflexivity|].
    cbn [flat_map List.length].
    rewrite length_app, length_littleEndian, IH. lia. }
  rewrite H, length_seq. reflexivity.
Qed.

(** The outer loop over frames. *)
Lemma writeFrames_blank (buffer : AudioBuffer.t) (frames : list nat)
      (done : list Z) (m offset : nat) :
  offset = List.length done ->
  (2 * AudioBuffer.numberOfChannels buffer * List.length frames <= m)%nat ->
  fold_left (writeFrame buffer (AudioBuffer.numberOfChannels buffer)) frames
            (Some (done ++ repeat 0%Z m, offset))
  = Some ((done ++ flat_map (frameBytes buffer) frames)
          ++ repeat 0%Z (m - 2 * AudioBuffer.numberOfChannels buffer
                                * List.length frames),
          (offset + 2 * AudioBuffer.numberOfChannels buffer
                    * List.length frames)%nat).
Proof.
  revert done m offset.
  induction frames as [|i frames IH]; intros done m offset Hoff Hle.
  - cbn. rewrite app_nil_r, Nat.mul_0_r, Nat.sub_0_r, Nat.add_0_r. reflexivity.
  - cbn [fold_left flat_map List.length] in *.
    unfold writeFrame at 2.
    rewrite writeSamples_blank by (rewrite ?length_seq; nia).
    rewrite length_seq.
    change (flat_map _ (seq 0 (AudioBuffer.numberOfChannels buffer)))
      with (frameBytes buffer i).
    rewrite IH.
    + apply blank_state_eq; [rewrite <- ?app_assoc; reflexivity | nia | nia].
    + rewrite length_app, length_frameBytes. lia.
    + nia.
Qed.

(** The bytes [audioBufferToWav] produces: the header, then the samples.
    No write falls outside the buffer. *)
Lemma audioBufferToWav_bytes (buffer : AudioBuffer.t) :
  audioBufferToWav buffer = Some (wavHeader buffer ++ wavData buffer).
Proof.
  unfold audioBufferToWav. cbv zeta.
  change (16 / 8)%nat with 2%nat.
  set (ch := AudioBuffer.numberOfChannels buffer).
  set (len := AudioBuffer.length buffer).
  set (d := (len * (ch * 2))%nat).
  change (repeat 0%Z (44 + d)) with ([] ++ repeat 0%Z (44 + d)).
  rewrite writeString_blank by (cbn; lia). cbn [bindOption].
  unfold setUint32 at 1.
  rewrite store_blank by (rewrite ?length_littleEndian; cbn; lia).
  cbn [bindOption].
  rewrite writeString_blank
    by (rewrite ?length_app, ?length_littleEndian; cbn; lia).
  cbn [bindOption].
  rewrite writeString_blank
    by (rewrite ?length_app, ?length_littleEndian; cbn; lia).
  cbn [bindOption].
  unfold setUint32 at 1.
  rewrite store_blank
    by (rewrite ?length_app, ?length_littleEndian; cbn; lia).
  cbn [bindOption].
  unfold setUint16 at 1.
  rewrite store_blank
    by (rewrite ?length_app, ?length_littleEndian; cbn; lia).
  cbn [bindOption].
  unfold setUint16 at 1.
  rewrite store_blank
    by (rewrite ?length_app, ?length_littleEndian; cbn; lia).
  cbn [bindOption].
  unfold setUint32 at 1.
  rewrite store_blank
    by (rewrite ?length_app, ?length_littleEndian; cbn; lia).
  cbn [bindOption].
  unfold setUint32 at 1.
  rewrite store_blank
    by (rewrite ?length_app, ?length_littleEndian; cbn; lia).
  cbn [bindOption].
  unfold setUint16 at 1.
  rewrite store_blank
    by (rewrite ?length_app, ?length_littleEndian; cbn; lia).
  cbn [bindOption].
  unfold setUint16 at 1.
  rewrite store_blank
    by (rewrite ?length_app, ?length_littleEndian; cbn; lia).
  cbn [bindOption].
  rewrite writeString_blank
    by (rewrite ?length_app, ?length_littleEndian; cbn; lia).
  cbn [bindOption].
  unfold setUint32 at 1.
  rewrite store_blank
    by (rewrite ?length_app, ?length_littleEndian; cbn; lia).
  cbn [bindOption].
  subst ch.
  rewrite writeFrames_blank.
  - cbn [bindOption fst].
    rewrite !length_littleEndian, length_seq.
    match goal with
    | |- Some (_ ++ repeat 0%Z ?n) = _ =>
        replace n with 0%nat by (cbn [String.length]; subst d len; nia)
    end.
    cbn [repeat]. rewrite app_nil_r, !truncate_ofNat.
    change (truncate 16) with 16%Z. change (truncate 1) with 1%Z.
    unfold wavHeader, wavData. cbv zeta. fold len. fold d.
    rewrite <- !app_assoc. reflexivity.
  - rewrite !length_app, !length_littleEndian, !length_map. reflexivity.
  - rewrite !length_littleEndian, length_seq. cbn [String.length].
    subst d len. nia.
Qed.

Lemma littleEndian_bytes (width : nat) (v : Z) :
  Forall (fun b => (0 <= b < 256)%Z) (littleEndian width v).
Proof.
  unfold littleEndian. apply Forall_map, Forall_forall. intros k _.
  apply Z.mod_pos_bound. lia.
Qed.

Lemma length_wavHeader (buffer : AudioBuffer.t) :
  List.length (wavHeader buffer) = 44%nat.
Proof.
  unfold wavHeader. cbv zeta.
  rewrite !length_app, !length_littleEndian. reflexivity.
Qed.

Lemma length_flat_map_blocks {A B : Type} (f : A -> list B) (k : nat)
      (l : list A) :
  (forall x, List.length (f x) = k) ->
  List.length (flat_map f l) = (k * List.length l)%nat.
Proof.
  intro Hk. induction l as [|x xs IH]; cbn [flat_map List.length]; [lia|].
  rewrite length_app, Hk, IH. lia.
Qed.

Lemma length_wavData (buffer : AudioBuffer.t) :
  List.length (wavData buffer)
  = (2 * AudioBuffer.numberOfChannels buffer * AudioBuffer.length buffer)%nat.
Proof.
  unfold wavData.
  rewrite (length_flat_map_blocks _ (2 * AudioBuffer.numberOfChannels buffer))
    by (intro; apply length_frameBytes).
  rewrite length_seq. reflexivity.
Qed.

(** X18. [audioBufferToWav] never writes outside its buffer (no
    [RangeError]): for every buffer it produces a file of
    [44 + 2 * numberOfChannels * length] bytes, each between 0 and 255. *)
Theorem audioBufferToWav_size (buffer : AudioBuffer.t) :
  exists bytes,
    audioBufferToWav buffer = Some bytes /\
    List.length bytes
    = (44 + 2 * AudioBuffer.numberOfChannels buffer
            * AudioBuffer.length buffer)%nat /\
    Forall (fun b => (0 <= b < 256)%Z) bytes.
Proof.
  exists (wavHeader buffer ++ wavData buffer).
  split; [apply audioBufferToWav_bytes|]. split.
  - rewrite length_app, length_wavHeader, length_wavData. reflexivity.
  - apply Forall_app. split.
    + unfold wavHeader. cbv zeta.
      repeat (apply Forall_app; split);
        try apply littleEndian_bytes;
        repeat (constructor; [lia|]); constructor.
    + unfold wavData. apply Forall_flat_map, Forall_forall. intros i _.
      unfold frameBytes. apply Forall_flat_map, Forall_forall. intros c _.
      apply littleEndian_bytes.
Qed.

(** ** Reading the file back *)

Lemma littleEndian_S (width : nat) (v : Z) :
  littleEndian (S width) v
  = (v mod 256)%Z :: littleEndian width (v / 256).
Proof.
  unfold littleEndian. cbn [seq map]. f_equal.
  - change (2 ^ (8 * Z.of_nat 0))%Z with 1%Z. rewrite Z.div_1_r. reflexivity.
  - rewrite <- seq_shift, map_map. apply map_ext. intro k.
    f_equal. rewrite Zdiv.Zdiv_Zdiv by lia. f_equal.
    replace (8 * Z.of_nat (S k))%Z with (8 + 8 * Z.of_nat k)%Z by lia.
    rewrite Z.pow_add_r by lia. reflexivity.
Qed.

Lemma nth_skipn_hd {A : Type} (l : list A) (n : nat) (d : A) :
  nth n l d = hd d (skipn n l).
Proof.
  revert l. induction n as [|n IH]; intros [|x xs]; cbn; try reflexivity.
  apply IH.
Qed.

Lemma skipn_S_tl {A : Type} (l : list A) (n : nat) :
  skipn (S n) l = tl (skipn n l).
Proof.
  revert l. induction n as [|n IH]; intros [|x xs]; try reflexivity.
  change (skipn (S n) xs = tl (skipn n xs)). apply IH.
Qed.

(** A field written by [littleEndian] reads back modulo its width. *)
Lemma readLittleEndian_field (bytes : list Z) (width offset : nat) (v : Z) :
  firstn width (skipn offset bytes) = littleEndian width v ->
  readLittleEndian bytes offset width = (v mod 2 ^ (8 * Z.of_nat width))%Z.
Proof.
  revert offset v.
  induction width as [|width IH]; intros offset v H.
  - cbn. rewrite Z.mod_1_r. reflexivity.
  - cbn [readLittleEndian]. rewrite littleEndian_S in H.
    rewrite nth_skipn_hd.
    destruct (skipn offset bytes) as [|b rest] eqn:E; [discriminate|].
    cbn [firstn hd] in *. injection H as Hb Hrest.
    rewrite (IH (S offset) (v / 256)%Z)
      by (rewrite skipn_S_tl, E; exact Hrest).
    subst b.
    replace (8 * Z.of_nat (S width))%Z with (8 + 8 * Z.of_nat width)%Z by lia.
    rewrite Z.pow_add_r by lia.
    change (2 ^ 8)%Z with 256%Z.
    rewrite Z.rem_mul_r by lia. reflexivity.
Qed.

Lemma truncate_comp (x y : Q) : x == y -> truncate x = truncate y.
Proof.
  intro H. unfold truncate.
  assert (E : Qle_bool 0 x = Qle_bool 0 y) by (rewrite H; reflexivity).
  rewrite E.
  destruct (Qle_bool 0 y).
  - apply Qfloor_comp, H.
  - apply Qceiling_comp, H.
Qed.

Lemma some_eq {A : Type} (a b : A) : Some a = Some b -> a = b.
Proof. intro H. injection H. trivial. Qed.

Lemma ofNat_mul (a b : nat) : Num.ofNat a * Num.ofNat b == Num.ofNat (a * b).
Proof.
  unfold Num.ofNat. rewrite Nat2Z.inj_mul, inject_Z_mult. reflexivity.
Qed.

(** X19. The header of the file reads back as a canonical 16-bit PCM header:
    for a buffer with an integer sample rate below [2 ^ 32], 1 to 32767
    channels and a file below 4GiB, the tags are RIFF, WAVE, fmt and data,
    the chunk sizes are the file size less 8 and less 44, and the format
    fields are 1 (PCM), the channel count, the sample rate, the block
    alignment [2 * numberOfChannels] and 16 bits per sample; the byte rate
    field holds [rate * blockAlign] modulo [2 ^ 32], as [setUint32] wraps
    it: the byte rate itself when that is below [2 ^ 32]. *)
Theorem audioBufferToWav_header (buffer : AudioBuffer.t) (rate : nat)
        (bytes : list Z) :
  audioBufferToWav buffer = Some bytes ->
  AudioBuffer.sampleRate buffer == Num.ofNat rate ->
  (Z.of_nat rate < 2 ^ 32)%Z ->
  (Z.of_nat (List.length bytes) < 2 ^ 32)%Z ->
  (0 < Z.of_nat (AudioBuffer.numberOfChannels buffer) < 32768)%Z ->
  firstn 4 bytes = charCodes "RIFF" /\
  readLittleEndian bytes 4 4 = Z.of_nat (List.length bytes - 8) /\
  firstn 8 (skipn 8 bytes) = charCodes "WAVEfmt " /\
  readLittleEndian bytes 16 4 = 16%Z /\
  readLittleEndian bytes 20 2 = 1%Z /\
  readLittleEndian bytes 22 2
  = Z.of_nat (AudioBuffer.numberOfChannels buffer) /\
  readLittleEndian bytes 24 4 = Z.of_nat rate /\
  readLittleEndian bytes 28 4
  = ((Z.of_nat rate * Z.of_nat (2 * AudioBuffer.numberOfChannels buffer))
     mod 2 ^ 32)%Z /\
  readLittleEndian bytes 32 2
  = Z.of_nat (2 * AudioBuffer.numberOfChannels buffer) /\
  readLittleEndian bytes 34 2 = 16%Z /\
  firstn 4 (skipn 36 bytes) = charCodes "data" /\
  readLittleEndian bytes 40 4 = Z.of_nat (List.length bytes - 44).
Proof.
  intros Hwav Hrate Hsmall Hsize Hch.
  rewrite audioBufferToWav_bytes in Hwav. apply some_eq in Hwav. subst bytes.
  rewrite length_app, length_wavHeader, length_wavData in *.
  set (ch := AudioBuffer.numberOfChannels buffer) in *.
  set (len := AudioBuffer.length buffer) in *.
  assert (Hr : truncate (AudioBuffer.sampleRate buffer) = Z.of_nat rate).
  { rewrite (truncate_comp _ _ Hrate). apply truncate_ofNat. }
  assert (Hb : truncate (AudioBuffer.sampleRate buffer * Num.ofNat (ch * 2))
               = (Z.of_nat rate * Z.of_nat (2 * ch))%Z).
  { rewrite (truncate_comp _ (Num.ofNat (rate * (ch * 2)))).
    - rewrite truncate_ofNat. lia.
    - rewrite Hrate. apply ofNat_mul. }
  assert (H32 : (2 ^ (8 * Z.of_nat 4) = 2 ^ 32)%Z) by reflexivity.
  assert (H16 : (2 ^ (8 * Z.of_nat 2) = 65536)%Z) by reflexivity.
  repeat apply conj.
  - reflexivity.
  - rewrite (readLittleEndian_field _ 4 4 (Z.of_nat (44 + len * (ch * 2) - 8)))
      by reflexivity.
    rewrite H32. rewrite Z.mod_small by lia. lia.
  - reflexivity.
  - rewrite (readLittleEndian_field _ 4 16 16) by reflexivity. reflexivity.
  - rewrite (readLittleEndian_field _ 2 20 1) by reflexivity. reflexivity.
  - rewrite (readLittleEndian_field _ 2 22 (Z.of_nat ch)) by reflexivity.
    rewrite H16. apply Z.mod_small. lia.
  - rewrite (readLittleEndian_field _ 4 24
               (truncate (AudioBuffer.sampleRate buffer))) by reflexivity.
    rewrite H32, Hr. apply Z.mod_small. lia.
  - rewrite (readLittleEndian_field _ 4 28
               (truncate (AudioBuffer.sampleRate buffer * Num.ofNat (ch * 2))))
      by reflexivity.
    rewrite H32, Hb. reflexivity.
  - rewrite (readLittleEndian_field _ 2 32 (Z.of_nat (ch * 2))) by reflexivity.
    rewrite H16. rewrite Z.mod_small by lia. lia.
  - rewrite (readLittleEndian_field _ 2 34 16) by reflexivity. reflexivity.
  - reflexivity.
  - rewrite (readLittleEndian_field _ 4 40 (Z.of_nat (len * (ch * 2))))
      by reflexivity.
    rewrite H32. rewrite Z.mod_small by lia. lia.
Qed.

(** In a concatenation of blocks of [k] entries, entry [r] of block [j]. *)
Lemma nth_flat_map_blocks {A B : Type} (f : A -> list B) (k : nat)
      (l : list A) (j r : nat) (x0 : A) (d : B) :
  (forall x, List.length (f x) = k) ->
  (j < List.length l)%nat -> (r < k)%nat ->
  nth (k * j + r) (flat_map f l) d = nth r (f (nth j l x0)) d.
Proof.
  intros Hk. revert j.
  induction l as [|x xs IH]; intros j Hj Hr; cbn [List.length] in Hj; [lia|].
  cbn [flat_map]. destruct j as [|j].
  - rewrite Nat.mul_0_r, Nat.add_0_l. cbn [nth].
    apply app_nth1. rewrite Hk. exact Hr.
  - rewrite app_nth2 by (rewrite Hk; nia). rewrite Hk.
    replace (k * S j + r - k)%nat with (k * j + r)%nat by nia.
    cbn [nth]. apply IH; lia.
Qed.

(** The byte [b] of the sample of frame [i] and channel [c]. *)
Lemma wav_sample_byte (buffer : AudioBuffer.t) (i c b : nat) :
  (i < AudioBuffer.length buffer)%nat ->
  (c < AudioBuffer.numberOfChannels buffer)%nat ->
  (b < 2)%nat ->
  nth (44 + 2 * (i * AudioBuffer.numberOfChannels buffer + c) + b)
      (wavHeader buffer ++ wavData buffer) 0%Z
  = nth b (littleEndian 2 (truncate (intSampleOf (sampleAt buffer c i)))) 0%Z.
Proof.
  intros Hi Hc Hb.
  rewrite app_nth2 by (rewrite length_wavHeader; lia).
  rewrite length_wavHeader.
  replace (44 + 2 * (i * AudioBuffer.numberOfChannels buffer + c) + b - 44)%nat
    with (2 * AudioBuffer.numberOfChannels buffer * i + (2 * c + b))%nat
    by nia.
  unfold wavData.
  rewrite (nth_flat_map_blocks _ (2 * AudioBuffer.numberOfChannels buffer)
             _ _ _ 0%nat)
    by (try (intro; apply length_frameBytes); rewrite ?length_seq; lia).
  rewrite seq_nth by lia. cbn [Nat.add].
  unfold frameBytes.
  rewrite (nth_flat_map_blocks _ 2 _ _ _ 0%nat)
    by (try (intro; apply length_littleEndian); rewrite ?length_seq; lia).
  rewrite seq_nth by lia. reflexivity.
Qed.

Lemma intSampleOf_range (x : Q) :
  (-32768 <= truncate (intSampleOf x) <= 32767)%Z.
Proof.
  unfold intSampleOf. cbv zeta.
  set (s := Num.max (-1) (Num.min 1 x)).
  assert (Hs : -1 <= s <= 1).
  { subst s. unfold Num.max, Num.min. split.
    - apply Q.le_max_l.
    - apply Q.max_lub; [vm_compute; discriminate | apply Q.le_min_l]. }
  destruct Hs as [Hlo Hhi].
  unfold truncate.
  destruct (Num.ltb s 0) eqn:E.
  - apply ltb_lt in E.
    assert (H1 : inject_Z (-32768) <= s * 32768)
      by (change (inject_Z (-32768)) with (-32768); lra).
    assert (H2 : s * 32768 <= inject_Z 0)
      by (change (inject_Z 0) with 0; lra).
    destruct (Qle_bool 0 (s * 32768)).
    + pose proof (Qfloor_resp_le _ _ H1) as F1.
      pose proof (Qfloor_resp_le _ _ H2) as F2.
      rewrite Qfloor_Z in F1, F2. lia.
    + pose proof (Qceiling_resp_le _ _ H1) as F1.
      pose proof (Qceiling_resp_le _ _ H2) as F2.
      rewrite Qceiling_Z in F1, F2. lia.
  - apply ltb_ge in E.
    assert (H1 : inject_Z 0 <= s * 32767)
      by (change (inject_Z 0) with 0; lra).
    assert (H2 : s * 32767 <= inject_Z 32767)
      by (change (inject_Z 32767) with 32767; lra).
    destruct (Qle_bool 0 (s * 32767)).
    + pose proof (Qfloor_resp_le _ _ H1) as F1.
      pose proof (Qfloor_resp_le _ _ H2) as F2.
      rewrite Qfloor_Z in F1, F2. lia.
    + pose proof (Qceiling_resp_le _ _ H1) as F1.
      pose proof (Qceiling_resp_le _ _ H2) as F2.
      rewrite Qceiling_Z in F1, F2. lia.
Qed.

Lemma readInt16_littleEndian (bytes : list Z) (offset : nat) (v : Z) :
  nth offset bytes 0%Z = nth 0 (littleEndian 2 v) 0%Z ->
  nth (S offset) bytes 0%Z = nth 1 (littleEndian 2 v) 0%Z ->
  (-32768 <= v <= 32767)%Z ->
  readInt16 bytes offset = v.
Proof.
  intros H0 H1 Hv. unfold readInt16. cbn [readLittleEndian].
  rewrite H0, H1. rewrite !littleEndian_S. cbn [nth].
  rewrite Z.mul_0_r, Z.add_0_r.
  rewrite <- (Z.rem_mul_r v 256 256) by lia.
  change (256 * 256)%Z with 65536%Z.
  destruct (Z.ltb_spec (v mod 65536) 32768) as [Hlt|Hge].
  - destruct (Z_lt_le_dec v 0) as [Hneg|Hpos].
    + replace (v mod 65536)%Z with (v + 65536)%Z in Hlt; [lia|].
      apply (Z.mod_unique _ _ (-1)); lia.
    + apply Z.mod_small. lia.
  - destruct (Z_lt_le_dec v 0) as [Hneg|Hpos].
    + replace (v mod 65536)%Z with (v + 65536)%Z; [lia|].
      apply (Z.mod_unique _ _ (-1)); lia.
    + rewrite Z.mod_small in Hge by lia. lia.
Qed.

(** X20. The samples are stored interleaved, frame after frame, and read
    back without wrap-around: the signed 16-bit number at byte
    [44 + 2 * (i * numberOfChannels + c)] is the sample of frame [i] and
    channel [c], clamped to [-1, 1], scaled by 32768 below zero and by
    32767 otherwise and truncated; it lies between -32768 and 32767. *)
Theorem audioBufferToWav_samples (buffer : AudioBuffer.t) (bytes : list Z)
        (i c : nat) :
  audioBufferToWav buffer = Some bytes ->
  (i < AudioBuffer.length buffer)%nat ->
  (c < AudioBuffer.numberOfChannels buffer)%nat ->
  readInt16 bytes (44 + 2 * (i * AudioBuffer.numberOfChannels buffer + c))
  = truncate (intSampleOf (sampleAt buffer c i)) /\
  (-32768 <= truncate (intSampleOf (sampleAt buffer c i)) <= 32767)%Z.
Proof.
  intros Hwav Hi Hc.
  rewrite audioBufferToWav_bytes in Hwav. apply some_eq in Hwav. subst bytes.
  split; [|apply intSampleOf_range].
  apply readInt16_littleEndian.
  - rewrite <- (wav_sample_byte buffer i c 0) by lia.
    f_equal. lia.
  - rewrite <- (wav_sample_byte buffer i c 1) by lia.
    f_equal. lia.
  - apply intSampleOf_range.
Qed.

(** * The trimmer *)

(** The three tests of the guard, when it lets the call through. *)
Lemma trimBuffer_done (audioBuffer : AudioBuffer.t) (startTime endTime : Q)
      (startSample endSample : Z) :
  sampleIndex startTime (AudioBuffer.sampleRate audioBuffer)
  = Some startSample ->
  sampleIndex endTime (AudioBuffer.sampleRate audioBuffer) = Some endSample ->
  (startSample < endSample)%Z ->
  (0 <= startSample)%Z ->
  (endSample <= Z.of_nat (AudioBuffer.length audioBuffer))%Z ->
  trimBuffer audioBuffer startTime endTime
  = Done (AudioBuffer.mk
            (AudioBuffer.numberOfChannels audioBuffer)
            (AudioBuffer.sampleRate audioBuffer)
            (Z.to_nat (endSample - startSample))
            (map (fun channel =>
                    map (fun i =>
                           sampleAt audioBuffer channel
                                    (Z.to_nat startSample + i))
                        (seq 0 (Z.to_nat (endSample - startSample))))
                 (seq 0 (AudioBuffer.numberOfChannels audioBuffer)))).
Proof.
  intros Hs He H1 H2 H3. unfold trimBuffer. cbv zeta. rewrite Hs, He.
  destruct (Z.leb_spec endSample startSample); [lia|].
  destruct (Z.ltb_spec startSample 0); [lia|].
  destruct (Z.ltb_spec (Z.of_nat (AudioBuffer.length audioBuffer)) endSample);
    [lia|].
  reflexivity.
Qed.

(** What a call that copies has checked. *)
Lemma trimBuffer_done_inv (audioBuffer trimmed : AudioBuffer.t)
      (startTime endTime : Q) :
  trimBuffer audioBuffer startTime endTime = Done trimmed ->
  exists startSample endSample,
    sampleIndex startTime (AudioBuffer.sampleRate audioBuffer)
    = Some startSample /\
    sampleIndex endTime (AudioBuffer.sampleRate audioBuffer)
    = Some endSample /\
    (0 <= startSample < endSample)%Z /\
    (endSample <= Z.of_nat (AudioBuffer.length audioBuffer))%Z.
Proof.
  unfold trimBuffer. cbv zeta.
  destruct (sampleIndex startTime _) as [a|]; [|discriminate].
  destruct (sampleIndex endTime _) as [b|]; [|discriminate].
  destruct (Z.leb_spec b a); [discriminate|].
  destruct (Z.ltb_spec a 0); [discriminate|].
  destruct (Z.ltb_spec (Z.of_nat (AudioBuffer.length audioBuffer)) b);
    [discriminate|].
  intros _. exists a, b. repeat split; (reflexivity || lia).
Qed.

(** The only failure of the check. *)
Lemma trimBuffer_message (audioBuffer : AudioBuffer.t) (startTime endTime : Q)
      (message : string) :
  trimBuffer audioBuffer startTime endTime = Failed message ->
  message = "Invalid trim parameters"%string.
Proof.
  unfold trimBuffer. cbv zeta.
  destruct (sampleIndex startTime _) as [a|];
    [|intro H; injection H as <-; reflexivity].
  destruct (sampleIndex endTime _) as [b|];
    [|intro H; injection H as <-; reflexivity].
  destruct (_ || _); [|discriminate].
  intro H. injection H as <-. reflexivity.
Qed.

Lemma nth_map_seq {B : Type} (f : nat -> B) (n j : nat) (d : B) :
  (j < n)%nat -> nth j (map f (seq 0 n)) d = f j.
Proof.
  intro Hj.
  rewrite (nth_indep _ d (f 0%nat)) by (rewrite length_map, length_seq; exact Hj).
  rewrite map_nth, seq_nth by exact Hj. reflexivity.
Qed.

(** A sample of the copy is the sample [start] places further in the
    original. *)
Lemma copied_sampleAt (audioBuffer : AudioBuffer.t) (start n : nat)
      (rate : Q) (channel i : nat) :
  (channel < AudioBuffer.numberOfChannels audioBuffer)%nat ->
  (i < n)%nat ->
  sampleAt (AudioBuffer.mk
              (AudioBuffer.numberOfChannels audioBuffer) rate n
              (map (fun channel =>
                      map (fun i => sampleAt audioBuffer channel (start + i))
                          (seq 0 n))
                   (seq 0 (AudioBuffer.numberOfChannels audioBuffer))))
           channel i
  = sampleAt audioBuffer channel (start + i).
Proof.
  intros Hc Hi. unfold sampleAt at 1. cbn [AudioBuffer.channels].
  rewrite nth_map_seq by exact Hc.
  rewrite (nth_map_seq (fun i => sampleAt audioBuffer channel (start + i)))
    by exact Hi.
  reflexivity.
Qed.

(** The products are rounded before the floor is taken: 0.009s at 48kHz
    is sample 431, the double product being 431.99999999999994, where the
    exact product is 432; and the double nearest to 1/48000 is sample 1. *)
Lemma sampleIndex_rounds :
  sampleIndex (9#1000) 48000 = Some 431%Z /\
  sampleIndex (1#48000) 48000 = Some 1%Z.
Proof. split; vm_compute; reflexivity. Qed.



(** The window is taken on the rounded products: on [ramp48k] a start of
    0.009s and an end of 0.00901s, whose exact products 432 and 432.48 fall
    on the same sample, pass the guard and copy the one sample 431. *)
Lemma trimBuffer_single_sample :
  trimBuffer ramp48k (9#1000) (901#100000)
  = Done (AudioBuffer.mk 1 48000 1 [[sampleAt ramp48k 0 431]]).
Proof. vm_compute. reflexivity. Qed.

Lemma flat_map_shift {B : Type} (f : nat -> list B) (start n : nat) :
  flat_map (fun i => f (start + i)%nat) (seq 0 n) = flat_map f (seq start n).
Proof.
  revert start. induction n as [|n IH]; intro start; [reflexivity|].
  cbn [seq flat_map]. rewrite Nat.add_0_r. f_equal.
  rewrite <- seq_shift, flat_map_concat_map, map_map, <- flat_map_concat_map.
  rewrite <- (IH (S start)).
  apply flat_map_ext. intro i. f_equal. lia.
Qed.

Lemma flat_map_ext_in {A B : Type} (f g : A -> list B) (l : list A) :
  (forall x, In x l -> f x = g x) -> flat_map f l = flat_map g l.
Proof.
  intro H. induction l as [|x xs IH]; [reflexivity|].
  cbn [flat_map]. rewrite (H x) by (left; reflexivity).
  rewrite IH by (intros y Hy; apply H; right; exact Hy). reflexivity.
Qed.

(** The data of the copy are the frames [start .. start + n - 1] of the
    original. *)
Lemma copied_wavData (audioBuffer : AudioBuffer.t) (start n : nat) (rate : Q) :
  wavData (AudioBuffer.mk
             (AudioBuffer.numberOfChannels audioBuffer) rate n
             (map (fun channel =>
                     map (fun i => sampleAt audioBuffer channel (start + i))
                         (seq 0 n))
                  (seq 0 (AudioBuffer.numberOfChannels audioBuffer))))
  = flat_map (frameBytes audioBuffer) (seq start n).
Proof.
  unfold wavData. cbn [AudioBuffer.length].
  rewrite <- (flat_map_shift (frameBytes audioBuffer) start n).
  apply flat_map_ext_in. intros i Hi.
  apply in_seq in Hi.
  unfold frameBytes. cbn [AudioBuffer.numberOfChannels].
  apply flat_map_ext_in. intros c Hc. apply in_seq in Hc.
  rewrite copied_sampleAt by lia. reflexivity.
Qed.

(** X23. [trimAudioFile] either fails with 'Invalid trim parameters' or
    returns a WAV file (never a [RangeError]) of
    [44 + blockAlign * (endSample - startSample)] bytes whose data are
    exactly the bytes that encoding the whole file would give for the
    frames from [startSample] on, [startSample] and [endSample] being the
    sample indices the code computes on doubles: trimming and encoding
    commute. *)
Theorem trimAudioFile_slice (audioBuffer : AudioBuffer.t) (startTime endTime : Q) :
  let blockAlign := (2 * AudioBuffer.numberOfChannels audioBuffer)%nat in
  trimAudioFile audioBuffer startTime endTime
  = Failed "Invalid trim parameters" \/
  exists startSample endSample bytes full,
    sampleIndex startTime (AudioBuffer.sampleRate audioBuffer)
    = Some startSample /\
    sampleIndex endTime (AudioBuffer.sampleRate audioBuffer)
    = Some endSample /\
    trimAudioFile audioBuffer startTime endTime = Done bytes /\
    audioBufferToWav audioBuffer = Some full /\
    List.length bytes
    = (44 + blockAlign * Z.to_nat (endSample - startSample))%nat /\
    skipn 44 bytes
    = firstn (blockAlign * Z.to_nat (endSample - startSample))
             (skipn (44 + blockAlign * Z.to_nat startSample) full).
Proof.
  cbv zeta.
  set (ch := AudioBuffer.numberOfChannels audioBuffer).
  unfold trimAudioFile.
  destruct (trimBuffer audioBuffer startTime endTime) as [trimmed|message]
    eqn:Et;
    [|left; rewrite (trimBuffer_message _ _ _ _ Et); reflexivity].
  right.
  destruct (trimBuffer_done_inv _ _ _ _ Et) as (a & b & Hs & He & Ha & Hb).
  rewrite (trimBuffer_done _ _ _ _ _ Hs He) in Et by lia.
  apply (f_equal (fun r => match r with
                           | Done x => Some x
                           | Failed _ => None
                           end)) in Et.
  apply some_eq in Et. subst trimmed. fold ch.
  rewrite audioBufferToWav_bytes.
  exists a, b. eexists. exists (wavHeader audioBuffer ++ wavData audioBuffer).
  split; [exact Hs|]. split; [exact He|].
  split; [reflexivity|]. split; [apply audioBufferToWav_bytes|].
  set (start := Z.to_nat a). set (n := Z.to_nat (b - a)).
  split.
  - rewrite length_app, length_wavHeader, length_wavData.
    cbn [AudioBuffer.numberOfChannels AudioBuffer.length]. reflexivity.
  - rewrite skipn_app, length_wavHeader.
    rewrite skipn_all2 by (rewrite length_wavHeader; lia).
    change (44 - 44)%nat with 0%nat. cbn [skipn app].
    subst ch. rewrite copied_wavData.
    rewrite skipn_app, length_wavHeader.
    rewrite skipn_all2 by (rewrite length_wavHeader; lia).
    cbn [app].
    replace (44 + 2 * AudioBuffer.numberOfChannels audioBuffer * start - 44)%nat
      with (2 * AudioBuffer.numberOfChannels audioBuffer * start)%nat by lia.
    unfold wavData.
    replace (AudioBuffer.length audioBuffer)
      with (start + (n + (AudioBuffer.length audioBuffer - start - n)))%nat
      by lia.
    rewrite seq_app, flat_map_app. cbn [Nat.add].
    rewrite skipn_app.
    rewrite skipn_all2
      by (rewrite (length_flat_map_blocks _
                     (2 * AudioBuffer.numberOfChannels audioBuffer))
            by (intro; apply length_frameBytes);
          rewrite length_seq; lia).
    rewrite (length_flat_map_blocks _
               (2 * AudioBuffer.numberOfChannels audioBuffer))
      by (intro; apply length_frameBytes).
    rewrite length_seq, Nat.sub_diag. cbn [skipn app].
    rewrite seq_app, flat_map_app.
    rewrite firstn_app.
    rewrite (length_flat_map_blocks _
               (2 * AudioBuffer.numberOfChannels audioBuffer))
      by (intro; apply length_frameBytes).
    rewrite length_seq, Nat.sub_diag. cbn [firstn].
    rewrite app_nil_r, firstn_all2; [reflexivity|].
    rewrite (length_flat_map_blocks _
               (2 * AudioBuffer.numberOfChannels audioBuffer))
      by (intro; apply length_frameBytes).
    rewrite length_seq. lia.
Qed.

(** * The cut handlers of the editor *)

(** Inserting a cut that is not later than any cut of a sorted array puts
    it in front. *)
Lemma insertSorted_front (x : CutMarker.t) (l : list CutMarker.t) :
  Forall (fun y => CutMarker.time x <= CutMarker.time y) l ->
  insertSorted byTime x l = x :: l.
Proof.
  intro H. destruct l as [|y ys]; [reflexivity|].
  cbn [insertSorted]. inversion H as [|? ? Hxy _]; subst.
  apply byTime_key, leb_le in Hxy. rewrite Hxy. reflexivity.
Qed.

(** Sorting a sorted array with one more cut pushed at its end inserts the
    cut and moves nothing else. *)
Lemma sort_pushed (l : list CutMarker.t) (x : CutMarker.t) :
  ascending l ->
  exists before after,
    l = before ++ after /\
    arraySort byTime (l ++ [x]) = before ++ x :: after.
Proof.
  induction 1 as [|a l Hs IH Hall].
  - exists [], []. split; reflexivity.
  - destruct IH as (before & after & Hl & Hsort).
    cbn [app arraySort]. rewrite Hsort.
    destruct before as [|y before'].
    + cbn [app] in *. subst after. cbn [insertSorted].
      destruct (Num.leb (byTime a x) 0) eqn:E.
      * exists [a], l. split; reflexivity.
      * rewrite insertSorted_front by exact Hall.
        exists [], (a :: l). split; reflexivity.
    + cbn [app] in *. cbn [insertSorted].
      assert (Hay : CutMarker.time a <= CutMarker.time y).
      { rewrite Hl in Hall. inversion Hall; assumption. }
      apply byTime_key, leb_le in Hay. rewrite Hay.
      exists (a :: y :: before'), after. split; [|reflexivity].
      rewrite Hl. reflexivity.
Qed.

(** In a sorted array [find] returns the earliest cut that passes. *)
Lemma find_earliest (p : CutMarker.t -> bool) (l : list CutMarker.t)
      (x : CutMarker.t) :
  ascending l -> find p l = Some x ->
  forall y, In y l -> p y = true -> CutMarker.time x <= CutMarker.time y.
Proof.
  induction 1 as [|a l Hs IH Hall]; cbn [find]; [discriminate|].
  intros Hf y Hy Hp. destruct (p a) eqn:Ea.
  - injection Hf as <-. destruct Hy as [<-|Hy]; [lra|].
    rewrite Forall_forall in Hall. apply Hall, Hy.
  - destruct Hy as [<-|Hy]; [congruence|].
    apply IH; assumption.
Qed.

(** X24. [handleAddCut] on cuts in ascending order inserts one cut and
    moves no other: the new list is in ascending order, and the new cut has
    the identifier drawn, the time clicked, the next palette color and a
    duration in (0, 1] that ends no later than any cut after it starts. *)
Theorem handleAddCut_inserts (id : string) (cutMarkers : list CutMarker.t)
        (time : Q) :
  ascending cutMarkers ->
  ascending (handleAddCut id cutMarkers time) /\
  exists newCut before after,
    cutMarkers = before ++ after /\
    handleAddCut id cutMarkers time = before ++ newCut :: after /\
    CutMarker.id newCut = id /\
    CutMarker.time newCut = time /\
    CutMarker.color newCut = colorAt (List.length cutMarkers) /\
    0 < CutMarker.duration newCut <= 1 /\
    forall cut,
      In cut cutMarkers -> time < CutMarker.time cut ->
      time + CutMarker.duration newCut <= CutMarker.time cut.
Proof.
  intro Hasc. split; [apply sortByTime_ascending|].
  unfold handleAddCut. cbv zeta.
  set (nextCut := find (fun cut => Num.ltb time (CutMarker.time cut)) cutMarkers).
  set (d := match nextCut with
            | Some nextCut => Num.min (CutMarker.time nextCut - time) 1
            | None => 1
            end).
  destruct (sort_pushed cutMarkers
              (CutMarker.mk id time (colorAt (List.length cutMarkers)) d None)
              Hasc) as (before & after & Hl & Hsort).
  eexists. exists before, after.
  split; [exact Hl|]. split; [exact Hsort|].
  cbn [CutMarker.id CutMarker.time CutMarker.color CutMarker.duration].
  split; [reflexivity|]. split; [reflexivity|]. split; [reflexivity|].
  subst d. destruct nextCut as [next|] eqn:E; subst nextCut.
  - pose proof (find_some _ _ E) as [_ Hnext]. apply ltb_lt in Hnext.
    unfold Num.min. split.
    + split.
      * apply Q.min_glb_lt; lra.
      * apply Q.le_min_r.
    + intros cut Hin Hlater.
      assert (Hle : CutMarker.time next <= CutMarker.time cut).
      { apply (find_earliest _ _ _ Hasc E cut Hin).
        apply ltb_lt. exact Hlater. }
      pose proof (Q.le_min_l (CutMarker.time next - time) 1). lra.
  - split; [split; [reflexivity | apply Qle_refl]|].
    intros cut Hin Hlater.
    pose proof (find_none _ _ E cut Hin) as Hn. cbv beta in Hn.
    apply ltb_ge in Hn. lra.
Qed.

Lemma filter_without (id : string) (l : list CutMarker.t) :
  Forall (fun cut => CutMarker.id cut <> id) l ->
  filter (fun cut => negb (String.eqb (CutMarker.id cut) id)) l = l.
Proof.
  induction 1 as [|x xs Hx _ IH]; [reflexivity|].
  cbn [filter]. apply String.eqb_neq in Hx. rewrite Hx. cbn [negb].
  rewrite IH. reflexivity.
Qed.

(** X25. Removing the cut just added gives back the cuts there were: for
    cuts in ascending order and an identifier no cut carries yet,
    [handleRemoveCut] after [handleAddCut] is the identity. *)
Theorem handleRemoveCut_undoes_add (id : string)
        (cutMarkers : list CutMarker.t) (time : Q) :
  ascending cutMarkers ->
  Forall (fun cut => CutMarker.id cut <> id) cutMarkers ->
  handleRemoveCut (handleAddCut id cutMarkers time) id = cutMarkers.
Proof.
  intros Hasc Hfresh. unfold handleAddCut. cbv zeta.
  match goal with
  | |- handleRemoveCut (arraySort byTime (_ ++ [?c])) _ = _ =>
      destruct (sort_pushed cutMarkers c Hasc) as (before & after & Hl & Hsort)
  end.
  rewrite Hsort. unfold handleRemoveCut.
  rewrite filter_app. cbn [filter CutMarker.id].
  rewrite String.eqb_refl. cbn [negb].
  rewrite Hl in Hfresh. apply Forall_app in Hfresh as [Hb Ha].
  rewrite !filter_without by assumption. symmetry. exact Hl.
Qed.

(** * Plans of the preview *)

Lemma planFrom_count (i : nat) (sortedCuts : list CutMarker.t)
      (currentTime : Q) :
  ascending sortedCuts ->
  planFrom i sortedCuts currentTime
  = match List.length
            (filter (fun cut => Num.leb (CutMarker.time cut) currentTime)
                    sortedCuts) with
    | O => 1%nat
    | S n => (i + 1 + S n)%nat
    end.
Proof.
  intro Hasc. revert i.
  induction Hasc as [|cut rest Hs IH Hall]; intro i; [reflexivity|].
  cbn [planFrom filter].
  unfold Num.geb, Num.leb in *.
  destruct (Qle_bool (CutMarker.time cut) currentTime) eqn:E.
  - cbn [andb List.length]. destruct rest as [|nextCut rest'].
    + cbn. lia.
    + destruct (Num.ltb currentTime (CutMarker.time nextCut)) eqn:En.
      * apply ltb_lt in En.
        rewrite (filter_keeps_none _ (nextCut :: rest')).
        -- cbn. lia.
        -- inversion Hs as [|? ? _ Hnext]; subst.
           constructor.
           ++ apply not_true_iff_false. intro H. apply Qle_bool_iff in H. lra.
           ++ eapply Forall_impl; [|exact Hnext]. cbv beta. intros c Hc.
              apply not_true_iff_false. intro H. apply Qle_bool_iff in H. lra.
      * rewrite IH. apply ltb_ge in En.
        cbn [filter]. apply Qle_bool_iff in En. rewrite En.
        cbn [List.length]. lia.
  - cbn [andb]. rewrite IH.
    rewrite (filter_keeps_none _ rest); [reflexivity|].
    eapply Forall_impl; [|exact Hall]. cbv beta. intros c Hc.
    apply not_true_iff_false. intro H. apply Qle_bool_iff in H.
    apply not_true_iff_false in E. apply E. apply Qle_bool_iff. lra.
Qed.

(** X26. The plan shown at [currentTime] is one more than the number of cuts
    at or before [currentTime], whatever the order the cuts are handed over
    in; so plan 1 runs up to the first cut and the plan number never
    decreases with time. *)
Theorem getCurrentPlanNumber_counts (cutMarkers : list CutMarker.t)
        (currentTime : Q) :
  getCurrentPlanNumber cutMarkers currentTime
  = (1 + List.length
           (filter (fun cut => Num.leb (CutMarker.time cut) currentTime)
                   cutMarkers))%nat.
Proof.
  unfold getCurrentPlanNumber. cbv zeta.
  rewrite planFrom_count by apply sortByTime_ascending.
  rewrite <- (Permutation_length
                (filter_perm _ _ _ (arraySort_perm byTime cutMarkers))).
  destruct (List.length _); lia.
Qed.

Lemma total_app (l l' : list Q) : total (l ++ l') == total l + total l'.
Proof.
  induction l as [|x xs IH]; cbn [app total fold_right].
  - unfold total. cbn. ring.
  - unfold total in *. cbn [fold_right]. rewrite IH. ring.
Qed.

(** A sum of consecutive differences telescopes. *)
Lemma total_telescopes (f F : nat -> Q) (n : nat) :
  (forall k, (k < n)%nat -> f k == F (S k) - F k) ->
  total (map f (seq 0 n)) == F n - F 0%nat.
Proof.
  induction n as [|n IH]; intro H.
  - unfold total. cbn. ring.
  - rewrite seq_S, map_app, total_app. cbn [Nat.add map].
    rewrite IH by (intros k Hk; apply H; lia).
    unfold total at 1. cbn [fold_right]. rewrite (H n) by lia. ring.
Qed.

Lemma itemAt_ofNat {A : Type} (l : list A) (k : nat) :
  itemAt l (Z.of_nat k) = nth_error l k.
Proof.
  unfold itemAt. destruct (Z.ltb_spec (Z.of_nat k) 0); [lia|].
  rewrite Nat2Z.id. reflexivity.
Qed.

Lemma timeOr_some (l : list CutMarker.t) (k : nat) (fallback : Q) :
  Forall (fun cut => ~ CutMarker.time cut == 0) l ->
  timeOr (nth_error l k) fallback
  = match nth_error l k with
    | Some cut => CutMarker.time cut
    | None => fallback
    end.
Proof.
  intro H. destruct (nth_error l k) as [cut|] eqn:E; [|reflexivity].
  cbn [timeOr]. apply nth_error_In in E.
  rewrite Forall_forall in H. specialize (H cut E).
  destruct (Qeq_bool (CutMarker.time cut) 0) eqn:Q0; [|reflexivity].
  apply Qeq_bool_iff in Q0. contradiction.
Qed.

(** X27. The durations [getPlanDuration] gives to the plans
    [1 .. cuts + 1] add up to the trimmed duration [endTime - startTime],
    provided no cut sits at time 0 (which [||] takes for a missing cut). *)
Theorem getPlanDuration_total (cutMarkers : list CutMarker.t)
        (startTime endTime : Q) :
  Forall (fun cut => ~ CutMarker.time cut == 0) cutMarkers ->
  total (map (getPlanDuration cutMarkers startTime endTime)
             (plansOf cutMarkers))
  == endTime - startTime.
Proof.
  intro Hnz. unfold plansOf.
  rewrite <- (arraySort_length byTime cutMarkers).
  assert (Hs : Forall (fun cut => ~ CutMarker.time cut == 0)
                      (arraySort byTime cutMarkers)).
  { rewrite Forall_forall in *. intros c Hc. apply Hnz.
    apply (arraySort_In byTime). exact Hc. }
  unfold getPlanDuration. cbv zeta.
  set (l := arraySort byTime cutMarkers) in *. clearbody l.
  set (T := fun j => match nth_error l j with
                     | Some cut => CutMarker.time cut
                     | None => endTime
                     end).
  replace (List.length l + 1)%nat with (S (List.length l)) by lia.
  cbn [seq map]. change (Z.of_nat 1 =? 1)%Z with true. cbv iota.
  rewrite <- seq_shift, !map_map.
  unfold total. cbn [fold_right]. fold (total
    (map (fun x : nat =>
            if (Z.of_nat (S x) =? 1)%Z
            then timeOr (itemAt l 0) endTime - startTime
            else timeOr (itemAt l (Z.of_nat (S x) - 1)) endTime
                 - timeOr (itemAt l (Z.of_nat (S x) - 2)) startTime)
         (seq 1 (List.length l)))).
  rewrite <- seq_shift, map_map.
  rewrite (total_telescopes _ T).
  - change 0%Z with (Z.of_nat 0). rewrite itemAt_ofNat.
    rewrite timeOr_some by exact Hs. fold (T 0%nat).
    assert (HT : T (List.length l) = endTime).
    { unfold T. rewrite (proj2 (nth_error_None l (List.length l))) by lia.
      reflexivity. }
    rewrite HT. ring.
  - intros k Hk.
    destruct (Z.eqb_spec (Z.of_nat (S (S k))) 1) as [E|_]; [lia|].
    replace (Z.of_nat (S (S k)) - 1)%Z with (Z.of_nat (S k)) by lia.
    replace (Z.of_nat (S (S k)) - 2)%Z with (Z.of_nat k) by lia.
    rewrite !itemAt_ofNat, !timeOr_some by exact Hs.
    unfold T. destruct (nth_error l k) as [c|] eqn:E; [reflexivity|].
    apply nth_error_None in E. lia.
Qed.

(** * Segments of the exported timeline *)

Lemma min_cases (a b : Q) :
  (a <= b /\ Num.min a b = a) \/ (b <= a /\ Num.min a b = b).
Proof.
  unfold Num.min, Qmin, GenericMinMax.gmin.
  destruct (a ?= b) eqn:E.
  - left. apply Qeq_alt in E. split; [lra | reflexivity].
  - left. apply Qlt_alt in E. split; [lra | reflexivity].
  - right. apply Qgt_alt in E. split; [lra | reflexivity].
Qed.

(** The segments the loop keeps, from a cut on, take the time from that
    cut (clamped to the region) to [endTime]. *)
Lemma segmentsFrom_total (i : nat) (l : list CutMarker.t)
      (startTime endTime : Q) :
  startTime <= endTime ->
  ascending l ->
  total (map (fun segment =>
                VideoSegment.endTime segment - VideoSegment.startTime segment)
             (filter (fun segment =>
                        Num.ltb (VideoSegment.startTime segment)
                                (VideoSegment.endTime segment))
                     (segmentsFrom i l startTime endTime)))
  == match l with
     | [] => 0
     | cut :: _ =>
         endTime - Num.min (Num.max (CutMarker.time cut) startTime) endTime
     end.
Proof.
  intros Hse Hasc. revert i.
  induction Hasc as [|cut rest Hs IH Hall]; intro i.
  - unfold total. cbn. reflexivity.
  - cbn [segmentsFrom]. rewrite filter_app, map_app, total_app.
    rewrite IH. clear IH.
    set (c := CutMarker.time cut) in *.
    destruct (max_cases c startTime) as [[Hm1 Em]|[Hm1 Em]]; rewrite Em;
      destruct (min_cases (Num.max c startTime) endTime) as [[Hn1 En]|[Hn1 En]];
      rewrite Em in Hn1, En; rewrite ?En.
    all: destruct rest as [|next rest'].
    all: try (inversion Hall as [|? ? Hcn _]; subst; fold c in Hcn;
              set (n := CutMarker.time next) in *;
              destruct (max_cases n startTime) as [[Hp1 Ep]|[Hp1 Ep]];
              rewrite Ep;
              destruct (min_cases (Num.max n startTime) endTime)
                as [[Hq1 Eq]|[Hq1 Eq]];
              rewrite Ep in Hq1, Eq; rewrite ?Eq;
              destruct (min_cases n endTime) as [[Hr1 Er]|[Hr1 Er]]).
    all: try (destruct (min_cases endTime endTime) as [[Hr1 Er]|[Hr1 Er]]).
    all: destruct (Num.ltb c endTime) eqn:Ec;
      [apply ltb_lt in Ec | apply ltb_ge in Ec].
    all: cbn [filter VideoSegment.startTime VideoSegment.endTime];
      rewrite ?Em, ?Er.
    all: try match goal with
         | |- context [Num.ltb ?a ?b] =>
             destruct (Num.ltb a b) eqn:Ef;
             [apply ltb_lt in Ef | apply ltb_ge in Ef]
         end.
    all: unfold total; cbn [map fold_right VideoSegment.startTime
                              VideoSegment.endTime];
      rewrite ?Em, ?Er; try lra.
Qed.

(** Every segment of the loop starts at a cut of the array or at
    [startTime], whichever is later, ends no later than [endTime], and has
    a plan number from [i + 2] on. *)
Lemma segmentsFrom_bounds (i : nat) (l : list CutMarker.t)
      (startTime endTime : Q) :
  Forall (fun segment =>
            (exists cut,
                In cut l /\
                VideoSegment.startTime segment
                = Num.max (CutMarker.time cut) startTime) /\
            VideoSegment.endTime segment <= endTime /\
            (i + 2 <= VideoSegment.planIndex segment)%nat)
         (segmentsFrom i l startTime endTime).
Proof.
  revert i. induction l as [|cut rest IH]; intro i; [constructor|].
  cbn [segmentsFrom]. apply Forall_app. split.
  - destruct (Num.ltb (CutMarker.time cut) endTime); constructor;
      [|constructor].
    cbn [VideoSegment.startTime VideoSegment.endTime VideoSegment.planIndex].
    split; [exists cut; split; [left; reflexivity | reflexivity]|].
    split; [|lia].
    match goal with
    | |- Num.min ?a ?b <= _ =>
        destruct (min_cases a b) as [[H E]|[H E]]; rewrite E; lra
    end.
  - eapply Forall_impl; [|apply (IH (S i))]. cbv beta.
    intros segment ((c & Hc & Hstart) & Hend & Hplan).
    split; [exists c; split; [right; exact Hc | exact Hstart]|].
    split; [exact Hend | lia].
Qed.

(** The segments of the loop come in order: each ends no later than the
    next one starts, with a smaller plan number. *)
Lemma segmentsFrom_ordered (i : nat) (l : list CutMarker.t)
      (startTime endTime : Q) :
  ascending l ->
  StronglySorted (fun a b =>
                    VideoSegment.endTime a <= VideoSegment.startTime b /\
                    (VideoSegment.planIndex a < VideoSegment.planIndex b)%nat)
                 (segmentsFrom i l startTime endTime).
Proof.
  intro Hasc. revert i.
  induction Hasc as [|cut rest Hs IH Hall]; intro i; [constructor|].
  cbn [segmentsFrom].
  destruct (Num.ltb (CutMarker.time cut) endTime); cbn [app]; [|apply IH].
  constructor; [apply IH|].
  eapply Forall_impl; [|apply (segmentsFrom_bounds (S i) rest)]. cbv beta.
  intros segment ((c & Hc & Hstart) & _ & Hplan).
  cbn [VideoSegment.endTime VideoSegment.planIndex].
  split; [|lia]. rewrite Hstart.
  destruct rest as [|next rest']; [contradiction|].
  assert (Hnc : CutMarker.time next <= CutMarker.time c).
  { destruct Hc as [<-|Hc]; [lra|].
    inversion Hs as [|? ? _ Hnext]; subst.
    rewrite Forall_forall in Hnext. apply Hnext, Hc. }
  destruct (min_cases (CutMarker.time next) endTime) as [[H E]|[H E]];
    rewrite E;
    destruct (max_cases (CutMarker.time c) startTime) as [[H' E']|[H' E']];
    rewrite E'; lra.
Qed.

(** The lengths of the segments add up to the length of the region. *)
Lemma placeholderSegments_total (cutMarkers : list CutMarker.t)
      (startTime endTime : Q) :
  startTime <= endTime ->
  total (map (fun segment =>
                VideoSegment.endTime segment - VideoSegment.startTime segment)
             (createVideoPlaceholderSegments cutMarkers startTime endTime))
  == endTime - startTime.
Proof.
  intros Hse.
  unfold createVideoPlaceholderSegments. cbv zeta.
  pose proof (sortByTime_ascending cutMarkers) as Hasc.
  set (l := arraySort byTime cutMarkers) in *. clearbody l.
  cbn [filter VideoSegment.startTime VideoSegment.endTime].
    pose proof (segmentsFrom_total 0 l startTime endTime Hse Hasc) as Hrest.
    destruct l as [|cut rest].
    + destruct (min_cases endTime endTime) as [[H E]|[H E]]; rewrite E;
        (destruct (Num.ltb startTime endTime) eqn:Ef;
         [apply ltb_lt in Ef | apply ltb_ge in Ef]);
        unfold total; cbn [segmentsFrom filter map fold_right
                             VideoSegment.startTime VideoSegment.endTime];
        lra.
    + set (c := CutMarker.time cut) in *.
      destruct (max_cases c startTime) as [[Hm1 Em]|[Hm1 Em]];
        rewrite Em in Hrest;
        destruct (min_cases c endTime) as [[Hn1 En]|[Hn1 En]]; rewrite En;
        (match type of Hrest with
         | context [Num.min ?a ?b] =>
             destruct (min_cases a b) as [[Hq1 Eq]|[Hq1 Eq]];
             rewrite Eq in Hrest
         end);
        (match goal with
         | |- context [Num.ltb ?a ?b] =>
             destruct (Num.ltb a b) eqn:Ef;
             [apply ltb_lt in Ef | apply ltb_ge in Ef]
         end);
        unfold total in *;
        cbn [map fold_right VideoSegment.startTime VideoSegment.endTime];
        lra.
Qed.

(** X28. The segments ExportPanel lays out tile the trimmed region: for
    every list of cuts and [startTime <= endTime] the segments lie within
    the region, each of positive length, in order without overlap and with
    increasing plan numbers, and their lengths add up to
    [endTime - startTime]. *)
Theorem createVideoPlaceholderSegments_tile (cutMarkers : list CutMarker.t)
        (startTime endTime : Q) :
  startTime <= endTime ->
  let segments :=
    createVideoPlaceholderSegments cutMarkers startTime endTime in
  total (map (fun segment =>
                VideoSegment.endTime segment - VideoSegment.startTime segment)
             segments)
  == endTime - startTime /\
  Forall (fun segment =>
            startTime <= VideoSegment.startTime segment /\
            VideoSegment.startTime segment < VideoSegment.endTime segment /\
            VideoSegment.endTime segment <= endTime)
         segments /\
  StronglySorted (fun a b =>
                    VideoSegment.endTime a <= VideoSegment.startTime b /\
                    (VideoSegment.planIndex a < VideoSegment.planIndex b)%nat)
                 segments.
Proof.
  intros Hse segments. subst segments.
  split; [apply placeholderSegments_total, Hse|].
  unfold createVideoPlaceholderSegments. cbv zeta.
  pose proof (sortByTime_ascending cutMarkers) as Hasc.
  set (l := arraySort byTime cutMarkers) in *. clearbody l.
  split.
  - apply Forall_forall. intros segment Hin.
    apply filter_In in Hin as [Hin Hpos]. apply ltb_lt in Hpos.
    destruct Hin as [<-|Hin].
    + cbn [VideoSegment.startTime VideoSegment.endTime] in *.
      split; [lra|]. split; [exact Hpos|].
      match goal with
      | |- Num.min ?a ?b <= _ =>
          destruct (min_cases a b) as [[H E]|[H E]]; rewrite E; lra
      end.
    + pose proof (segmentsFrom_bounds 0 l startTime endTime) as Hb.
      rewrite Forall_forall in Hb.
      destruct (Hb segment Hin) as ((c & _ & Hstart) & Hend & _).
      split; [|split; assumption]. rewrite Hstart.
      destruct (max_cases (CutMarker.time c) startTime) as [[H E]|[H E]];
        rewrite E; lra.
  - apply pairwise_filter. constructor.
    + apply segmentsFrom_ordered, Hasc.
    + eapply Forall_impl; [|apply (segmentsFrom_bounds 0 l)]. cbv beta.
      intros segment ((c & Hc & Hstart) & _ & Hplan).
      cbn [VideoSegment.endTime VideoSegment.planIndex].
      split; [|lia]. rewrite Hstart.
      destruct l as [|first rest]; [contradiction|].
      assert (Hfc : CutMarker.time first <= CutMarker.time c).
      { destruct Hc as [<-|Hc]; [lra|].
        inversion Hasc as [|? ? _ Hall]; subst.
        rewrite Forall_forall in Hall. apply Hall, Hc. }
      destruct (min_cases (CutMarker.time first) endTime) as [[H E]|[H E]];
        rewrite E;
        destruct (max_cases (CutMarker.time c) startTime) as [[H' E']|[H' E']];
        rewrite E'; lra.
Qed.

Lemma max_at_least (a b : Q) : b <= a -> Num.max a b = a.
Proof.
  intro H. unfold Num.max, Qmax, GenericMinMax.gmax.
  destruct (a ?= b) eqn:E; try reflexivity.
  apply Qlt_alt in E. lra.
Qed.

Lemma min_same (a : Q) : Num.min a a = a.
Proof. destruct (min_cases a a) as [[_ E]|[_ E]]; exact E. Qed.

(** For cuts at or after [startTime] the loop of [generateSnapcutJSON]
    keeps the segments the loop of ExportPanel keeps, with the same
    durations. *)
Lemma itemsFrom_panel (i : nat) (l : list CutMarker.t) (startTime endTime : Q) :
  Forall (fun cut => startTime <= CutMarker.time cut) l ->
  map (fun item => (TimelineItem.video item, TimelineItem.duration item))
      (itemsFrom i l startTime endTime)
  = map (fun segment =>
           (VideoSegment.planIndex segment,
            VideoSegment.endTime segment - VideoSegment.startTime segment))
        (filter (fun segment =>
                   Num.ltb (VideoSegment.startTime segment)
                           (VideoSegment.endTime segment))
                (segmentsFrom i l startTime endTime)).
Proof.
  intro Hall. revert i.
  induction Hall as [|cut rest Hcut _ IH]; intro i; [reflexivity|].
  cbn [itemsFrom segmentsFrom]. rewrite filter_app, !map_app, IH. f_equal.
  rewrite (max_at_least _ _ Hcut).
  set (c := CutMarker.time cut) in *.
  destruct rest as [|next rest'].
  - rewrite min_same.
    destruct (Num.ltb 0 (endTime - c)) eqn:E0;
      [apply ltb_lt in E0 | apply ltb_ge in E0];
      (destruct (Num.ltb c endTime) eqn:E1;
       [apply ltb_lt in E1 | apply ltb_ge in E1]); try lra;
      cbn [filter map VideoSegment.startTime VideoSegment.endTime
             VideoSegment.planIndex TimelineItem.video TimelineItem.duration];
      [|reflexivity].
    destruct (Num.ltb c endTime) eqn:E2;
      [reflexivity | apply ltb_ge in E2; lra].
  - set (n := CutMarker.time next).
    destruct (min_cases n endTime) as [[Hn En]|[Hn En]]; rewrite En;
      (destruct (Num.ltb c endTime) eqn:E1;
       [apply ltb_lt in E1 | apply ltb_ge in E1]);
      cbn [filter map VideoSegment.startTime VideoSegment.endTime
             VideoSegment.planIndex TimelineItem.video TimelineItem.duration];
      rewrite ?En;
      match goal with
      | |- context [Num.ltb 0 ?d] =>
          destruct (Num.ltb 0 d) eqn:E0;
          [apply ltb_lt in E0 | apply ltb_ge in E0]
      end;
      try match goal with
          | |- context [Num.ltb c ?b] =>
              destruct (Num.ltb c b) eqn:E2;
              [apply ltb_lt in E2 | apply ltb_ge in E2]
          end;
      try reflexivity; lra.
Qed.

Lemma contiguousFrom_comp (elapsed elapsed' : Q) (items : list TimelineItem.t) :
  elapsed == elapsed' ->
  contiguousFrom elapsed items -> contiguousFrom elapsed' items.
Proof.
  revert elapsed elapsed'.
  induction items as [|item rest IH]; intros elapsed elapsed' He H;
    [exact I|].
  cbn [contiguousFrom] in *. destruct H as (H1 & H2 & H3).
  split; [lra|]. split; [exact H2|].
  apply (IH (elapsed + TimelineItem.duration item)); [lra | exact H3].
Qed.

Lemma itemsFrom_contiguous (i : nat) (l : list CutMarker.t)
      (startTime endTime elapsed : Q) :
  ascending l ->
  Forall (fun cut => startTime <= CutMarker.time cut) l ->
  match l with
  | [] => True
  | cut :: _ => elapsed == Num.min (CutMarker.time cut) endTime - startTime
  end ->
  contiguousFrom elapsed (itemsFrom i l startTime endTime).
Proof.
  intros Hasc. revert i elapsed.
  induction Hasc as [|cut rest Hs IH Hle]; intros i elapsed Hall He;
    [exact I|].
  inversion Hall as [|? ? Hcut Hrest]; subst.
  cbn [itemsFrom].
  set (c := CutMarker.time cut) in *.
  destruct (min_cases c endTime) as [[Hc Ec]|[Hc Ec]]; rewrite Ec in He.
  - destruct rest as [|next rest'].
    + destruct (Num.ltb 0 (endTime - c)) eqn:E0; cbn [app itemsFrom];
        [|exact I].
      apply ltb_lt in E0.
      cbn [contiguousFrom TimelineItem.startTime TimelineItem.duration].
      split; [lra|]. split; [exact E0 | exact I].
    + inversion Hle as [|? ? Hcn _]; subst.
      set (n := CutMarker.time next) in *.
      destruct (min_cases n endTime) as [[Hn En]|[Hn En]]; rewrite En;
        (destruct (Num.ltb 0 _) eqn:E0;
         [apply ltb_lt in E0 | apply ltb_ge in E0]); cbn [app].
      * cbn [contiguousFrom TimelineItem.startTime TimelineItem.duration].
        split; [lra|]. split; [exact E0|].
        apply IH; [exact Hrest|]. fold n. rewrite En. lra.
      * apply IH; [exact Hrest|]. fold n. rewrite En. lra.
      * cbn [contiguousFrom TimelineItem.startTime TimelineItem.duration].
        split; [lra|]. split; [exact E0|].
        apply IH; [exact Hrest|]. fold n. rewrite En. lra.
      * apply IH; [exact Hrest|]. fold n. rewrite En. lra.
  - destruct rest as [|next rest'].
    + destruct (Num.ltb 0 (endTime - c)) eqn:E0; cbn [app itemsFrom];
        [apply ltb_lt in E0; lra | exact I].
    + inversion Hle as [|? ? Hcn _]; subst.
      set (n := CutMarker.time next) in *.
      destruct (min_cases n endTime) as [[Hn En]|[Hn En]]; rewrite En;
        (destruct (Num.ltb 0 _) eqn:E0;
         [apply ltb_lt in E0 | apply ltb_ge in E0]); cbn [app]; try lra;
        (apply IH; [exact Hrest|]; fold n; rewrite En; lra).
Qed.

Lemma itemsFrom_none (i : nat) (l : list CutMarker.t) (startTime endTime : Q) :
  endTime < startTime ->
  Forall (fun cut => startTime <= CutMarker.time cut) l ->
  itemsFrom i l startTime endTime = [].
Proof.
  intros Hes Hall. revert i.
  induction Hall as [|cut rest Hcut Hrest IH]; intro i; [reflexivity|].
  cbn [itemsFrom]. rewrite IH.
  destruct rest as [|next rest'].
  - destruct (Num.ltb 0 (endTime - CutMarker.time cut)) eqn:E0;
      [apply ltb_lt in E0; lra | reflexivity].
  - destruct (min_cases (CutMarker.time next) endTime) as [[Hn En]|[Hn En]];
      rewrite En;
      (destruct (Num.ltb 0 _) eqn:E0;
       [apply ltb_lt in E0 | reflexivity]).
    + inversion Hrest; subst. lra.
    + lra.
Qed.

(** X29. When no cut lies before [startTime], the main timeline of
    [generateSnapcutJSON] is gapless: every entry starts where the entries
    before it end and has a positive duration; it holds the plans and
    durations of the timeline ExportPanel builds; and for
    [startTime <= endTime] the durations add up to the duration
    [endTime - startTime] of the audio entry. *)
Theorem mainTimeline_contiguous (cutMarkers : list CutMarker.t)
        (startTime endTime : Q) :
  Forall (fun cut => startTime <= CutMarker.time cut) cutMarkers ->
  contiguousFrom 0 (mainTimeline cutMarkers startTime endTime) /\
  map (fun item => (TimelineItem.video item, TimelineItem.duration item))
      (mainTimeline cutMarkers startTime endTime)
  = panelTimeline cutMarkers startTime endTime /\
  (startTime <= endTime ->
   total (map TimelineItem.duration
              (mainTimeline cutMarkers startTime endTime))
   == endTime - startTime).
Proof.
  intro Hall.
  assert (Hagree :
            map (fun item =>
                   (TimelineItem.video item, TimelineItem.duration item))
                (mainTimeline cutMarkers startTime endTime)
            = panelTimeline cutMarkers startTime endTime).
  { unfold mainTimeline, panelTimeline, createVideoPlaceholderSegments.
    cbv zeta.
    assert (Hs : Forall (fun cut => startTime <= CutMarker.time cut)
                        (arraySort byTime cutMarkers)).
    { rewrite Forall_forall in *. intros c Hc. apply Hall.
      apply (arraySort_In byTime). exact Hc. }
    set (l := arraySort byTime cutMarkers) in *. clearbody l.
    rewrite map_app, (itemsFrom_panel 0 l startTime endTime Hs).
    cbn [filter VideoSegment.startTime VideoSegment.endTime].
    set (first := Num.min match l with
                          | [] => endTime
                          | cut :: _ => CutMarker.time cut
                          end endTime).
    destruct (Num.ltb 0 (first - startTime)) eqn:E0;
      [apply ltb_lt in E0 | apply ltb_ge in E0];
      (destruct (Num.ltb startTime first) eqn:E1;
       [apply ltb_lt in E1 | apply ltb_ge in E1]); try lra; reflexivity. }
  split; [|split; [exact Hagree|]].
  - unfold mainTimeline. cbv zeta.
    pose proof (sortByTime_ascending cutMarkers) as Hasc.
    assert (Hs : Forall (fun cut => startTime <= CutMarker.time cut)
                        (arraySort byTime cutMarkers)).
    { rewrite Forall_forall in *. intros c Hc. apply Hall.
      apply (arraySort_In byTime). exact Hc. }
    set (l := arraySort byTime cutMarkers) in *. clearbody l.
    destruct (Qlt_le_dec endTime startTime) as [Hes|Hse].
    + rewrite (itemsFrom_none 0 l startTime endTime Hes Hs).
      match goal with
      | |- context [Num.min ?a ?b] =>
          destruct (min_cases a b) as [[Hm Em]|[Hm Em]]; rewrite Em
      end.
      * destruct l as [|cut rest].
        -- destruct (Num.ltb 0 (endTime - startTime)) eqn:E0;
             [apply ltb_lt in E0; lra | exact I].
        -- inversion Hs; subst. lra.
      * destruct (Num.ltb 0 (endTime - startTime)) eqn:E0;
          [apply ltb_lt in E0; lra | exact I].
    + destruct l as [|cut rest].
      * rewrite min_same. cbn [itemsFrom].
        destruct (Num.ltb 0 (endTime - startTime)) eqn:E0; [|exact I].
        apply ltb_lt in E0.
        cbn [app contiguousFrom TimelineItem.startTime TimelineItem.duration].
        split; [reflexivity|]. split; [exact E0 | exact I].
      * inversion Hs as [|? ? Hcut _]; subst.
        destruct (Num.ltb 0 _) eqn:E0;
          [apply ltb_lt in E0 | apply ltb_ge in E0]; cbn [app].
        -- cbn [contiguousFrom TimelineItem.startTime TimelineItem.duration].
           split; [reflexivity|]. split; [exact E0|].
           apply itemsFrom_contiguous; [exact Hasc | exact Hs | lra].
        -- apply itemsFrom_contiguous; [exact Hasc | exact Hs|].
           destruct (min_cases (CutMarker.time cut) endTime)
             as [[Hm Em]|[Hm Em]]; rewrite Em in *; lra.
  - intro Hse.
    rewrite <- (placeholderSegments_total cutMarkers startTime endTime Hse).
    replace (map TimelineItem.duration
                 (mainTimeline cutMarkers startTime endTime))
      with (map snd (panelTimeline cutMarkers startTime endTime)).
    + unfold panelTimeline. rewrite map_map. reflexivity.
    + rewrite <- Hagree, map_map. reflexivity.
Qed.

(** * Names of the exported files *)

Lemma append_cancel_l (s a b : string) :
  (s ++ a)%string = (s ++ b)%string -> a = b.
Proof.
  induction s as [|c s IH]; cbn [String.append]; intro H; [exact H|].
  injection H as H. apply IH, H.
Qed.

Lemma length_append (a b : string) :
  String.length (a ++ b) = (String.length a + String.length b)%nat.
Proof.
  induction a as [|c a IH]; cbn [String.append String.length]; [reflexivity|].
  rewrite IH. reflexivity.
Qed.

Lemma append_cancel_r (s a b : string) :
  (a ++ s)%string = (b ++ s)%string -> a = b.
Proof.
  intro H.
  assert (Hlen : String.length a = String.length b).
  { apply (f_equal String.length) in H. rewrite !length_append in H. lia. }
  revert b H Hlen.
  induction a as [|c a IH]; intros [|c' b] H Hlen; cbn [String.length] in Hlen;
    try discriminate; [reflexivity|].
  cbn [String.append] in H. injection H as Hc H.
  subst c'. f_equal. apply IH; [exact H | lia].
Qed.

(** Two integers print alike only when they are equal. *)
Lemma numberToString_inj (p q : Z) :
  numberToString p = numberToString q -> p = q.
Proof.
  unfold numberToString. intro H.
  apply DecimalZ.to_int_inj.
  assert (Hn : forall z,
             Z.to_int z <> Decimal.Pos Decimal.Nil /\
             Z.to_int z <> Decimal.Neg Decimal.Nil).
  { intros [|z|z]; cbn [Z.to_int]; split; try discriminate;
      intro E; injection E as E;
      exact (DecimalPos.Unsigned.to_uint_nonnil z E). }
  destruct (Hn p) as [Hp1 Hp2]. destruct (Hn q) as [Hq1 Hq2].
  pose proof (DecimalString.NilZero.isi _ Hp1 Hp2) as Ep.
  pose proof (DecimalString.NilZero.isi _ Hq1 Hq2) as Eq.
  rewrite H in Ep. rewrite Ep in Eq. injection Eq as Eq. exact Eq.
Qed.

(** X30. Within one export the raw video files of different plans get
    different names, and so do the files of a batch export: the name
    determines the plan index (an integer below [2 ^ 53], printed in
    decimal). *)
Theorem generateRawVideoFilename_distinct (context : NamingContext.t)
        (p q : Z) :
  (Z.abs p < 2 ^ 53)%Z -> (Z.abs q < 2 ^ 53)%Z ->
  p <> q ->
  generateRawVideoFilename context p <> generateRawVideoFilename context q /\
  generateVideoExportFilename context p
  <> generateVideoExportFilename context q.
Proof.
  intros _ _ Hpq.
  unfold generateRawVideoFilename, generateVideoExportFilename. cbv zeta.
  split; intro H;
    apply append_cancel_l, append_cancel_l, append_cancel_r in H;
    apply numberToString_inj in H; lia.
Qed.

Lemma audioBufferToWav_header_witness :
  let bytes := wavHeader sampleBuffer ++ wavData sampleBuffer in
  firstn 4 bytes = charCodes "RIFF" /\
  readLittleEndian bytes 4 4 = Z.of_nat (List.length bytes - 8) /\
  firstn 8 (skipn 8 bytes) = charCodes "WAVEfmt " /\
  readLittleEndian bytes 16 4 = 16%Z /\
  readLittleEndian bytes 20 2 = 1%Z /\
  readLittleEndian bytes 22 2
  = Z.of_nat (AudioBuffer.numberOfChannels sampleBuffer) /\
  readLittleEndian bytes 24 4 = Z.of_nat 4 /\
  readLittleEndian bytes 28 4
  = ((Z.of_nat 4 * Z.of_nat (2 * AudioBuffer.numberOfChannels sampleBuffer))
     mod 2 ^ 32)%Z /\
  readLittleEndian bytes 32 2
  = Z.of_nat (2 * AudioBuffer.numberOfChannels sampleBuffer) /\
  readLittleEndian bytes 34 2 = 16%Z /\
  firstn 4 (skipn 36 bytes) = charCodes "data" /\
  readLittleEndian bytes 40 4 = Z.of_nat (List.length bytes - 44).
Proof.
  apply (audioBufferToWav_header sampleBuffer 4
           (wavHeader sampleBuffer ++ wavData sampleBuffer)).
  - vm_compute. reflexivity.
  - reflexivity.
  - vm_compute. reflexivity.
  - vm_compute. reflexivity.
  - split; vm_compute; reflexivity.
Defined.

Lemma audioBufferToWav_samples_witness :
  readInt16 (wavHeader sampleBuffer ++ wavData sampleBuffer)
            (44 + 2 * (1 * AudioBuffer.numberOfChannels sampleBuffer + 0))
  = truncate (intSampleOf (sampleAt sampleBuffer 0 1)) /\
  (-32768 <= truncate (intSampleOf (sampleAt sampleBuffer 0 1)) <= 32767)%Z.
Proof.
  apply (audioBufferToWav_samples sampleBuffer
           (wavHeader sampleBuffer ++ wavData sampleBuffer) 1 0).
  - vm_compute. reflexivity.
  - vm_compute. lia.
  - vm_compute. lia.
Defined.


Lemma sortedCuts3_ascending : ascending sortedCuts3.
Proof.
  unfold ascending, sortedCuts3.
  repeat (constructor; [|repeat constructor; vm_compute; discriminate]).
  constructor.
Qed.

Lemma handleAddCut_inserts_witness :
  ascending (handleAddCut "n" sortedCuts3 3) /\
  exists newCut before after,
    sortedCuts3 = before ++ after /\
    handleAddCut "n" sortedCuts3 3 = before ++ newCut :: after /\
    CutMarker.id newCut = "n"%string /\
    CutMarker.time newCut = 3 /\
    CutMarker.color newCut = colorAt (List.length sortedCuts3) /\
    0 < CutMarker.duration newCut <= 1 /\
    forall cut,
      In cut sortedCuts3 -> 3 < CutMarker.time cut ->
      3 + CutMarker.duration newCut <= CutMarker.time cut.
Proof.
  apply (handleAddCut_inserts "n" sortedCuts3 3).
  exact sortedCuts3_ascending.
Defined.

Lemma handleRemoveCut_undoes_add_witness :
  handleRemoveCut (handleAddCut "n" sortedCuts3 3) "n" = sortedCuts3.
Proof.
  apply (handleRemoveCut_undoes_add "n" sortedCuts3 3).
  - exact sortedCuts3_ascending.
  - repeat constructor; discriminate.
Defined.

Lemma getPlanDuration_total_witness :
  total (map (getPlanDuration sortedCuts3 1 10) (plansOf sortedCuts3))
  == 10 - 1.
Proof.
  apply (getPlanDuration_total sortedCuts3 1 10).
  repeat constructor; intro H; vm_compute in H; discriminate.
Defined.

Lemma createVideoPlaceholderSegments_tile_witness :
  total (map (fun segment =>
                VideoSegment.endTime segment - VideoSegment.startTime segment)
             (createVideoPlaceholderSegments sortedCuts3 3 6))
  == 6 - 3 /\
  Forall (fun segment =>
            3 <= VideoSegment.startTime segment /\
            VideoSegment.startTime segment < VideoSegment.endTime segment /\
            VideoSegment.endTime segment <= 6)
         (createVideoPlaceholderSegments sortedCuts3 3 6) /\
  StronglySorted (fun a b =>
                    VideoSegment.endTime a <= VideoSegment.startTime b /\
                    (VideoSegment.planIndex a < VideoSegment.planIndex b)%nat)
                 (createVideoPlaceholderSegments sortedCuts3 3 6).
Proof.
  apply (createVideoPlaceholderSegments_tile sortedCuts3 3 6).
  vm_compute. discriminate.
Defined.

Lemma mainTimeline_contiguous_witness :
  contiguousFrom 0 (mainTimeline sortedCuts3 1 10) /\
  map (fun item => (TimelineItem.video item, TimelineItem.duration item))
      (mainTimeline sortedCuts3 1 10)
  = panelTimeline sortedCuts3 1 10 /\
  (1 <= 10 ->
   total (map TimelineItem.duration (mainTimeline sortedCuts3 1 10))
   == 10 - 1).
Proof.
  apply (mainTimeline_contiguous sortedCuts3 1 10).
  repeat constructor; vm_compute; discriminate.
Defined.

Lemma generateRawVideoFilename_distinct_witness :
  generateRawVideoFilename (createContext sampleSettings sortedCuts3 (17#2)) 1
  <> generateRawVideoFilename (createContext sampleSettings sortedCuts3 (17#2)) 2
  /\
  generateVideoExportFilename (createContext sampleSettings sortedCuts3 (17#2)) 1
  <> generateVideoExportFilename
       (createContext sampleSettings sortedCuts3 (17#2)) 2.
Proof.
  apply (generateRawVideoFilename_distinct
           (createContext sampleSettings sortedCuts3 (17#2)) 1 2).
  - vm_compute. reflexivity.
  - vm_compute. reflexivity.
  - discriminate.
Defined.
